(** * aic: the changelog normalization engine of [main.go]

    A shallow embedding of the parsing layer of [src/main.go] (the
    hierarchical release-body parser [parseReleaseBody], the two
    version-anchored flat parsers [parseMarkdownChangelog] and
    [parseMarkdownChangelogWithDate], their helper [parseChanges], and the
    entry-building loop of [fetchGitHubReleases]), of the two text renderers
    [outputMarkdown] and [outputPlainText] and of the command line of
    [main], together with the parts of the Go standard library these
    functions call ([strings], [regexp] on the three patterns the program
    uses, [time.Parse] on the date-only layout and on [time.RFC3339],
    [Time.Format] on the date-only layout).

    A Go [string] is a sequence of bytes: it is a [string] of the Standard
    Library, whose characters are the 256 byte values.  A Go [int] index is a
    [Z].  A run-time panic (index out of range, slice bounds out of range) is
    the [None] of the [option] monad. *)

From Stdlib Require Import Strings.String Strings.Ascii.
From Stdlib Require Import Lists.List.
From Stdlib Require Import ZArith Bool Arith Lia.
Import ListNotations.

Open Scope string_scope.
Open Scope list_scope.
Open Scope nat_scope.

(** ** Bytes *)

(** The line feed, ["\n"] in Go. *)
Definition LF : ascii := "010"%char.

Definition byte (c : ascii) : nat := nat_of_ascii c.

(** [take n s] is [s[:n]] and [drop n s] is [s[n:]], clipped at the end of
    [s]; the partial Go slice expression is [slice] below. *)
Fixpoint take (n : nat) (s : string) : string :=
  match n, s with
  | S n', String c s' => String c (take n' s')
  | _, _ => EmptyString
  end.

Fixpoint drop (n : nat) (s : string) : string :=
  match n, s with
  | S n', String _ s' => drop n' s'
  | _, _ => s
  end.

Definition len (s : string) : Z := Z.of_nat (String.length s).

(** The bytes of [s] at the offsets [lo], ..., [hi-1]. *)
Definition substr (s : string) (lo hi : Z) : string :=
  take (Z.to_nat (hi - lo)) (drop (Z.to_nat lo) s).

(** The Go slice expression [s[lo:hi]]: it panics unless
    [0 <= lo <= hi <= len(s)]. *)
Definition slice (s : string) (lo hi : Z) : option string :=
  if (0 <=? lo)%Z && (lo <=? hi)%Z && (hi <=? len s)%Z
  then Some (substr s lo hi)
  else None.

(** The Go index expression [xs[i]] on a slice: it panics out of range. *)
Definition index {A : Type} (xs : list A) (i : Z) : option A :=
  if (0 <=? i)%Z then nth_error xs (Z.to_nat i) else None.

Fixpoint rev_string (acc s : string) : string :=
  match s with
  | EmptyString => acc
  | String c s' => rev_string (String c acc) s'
  end.

(** [a +\n+ b]: the two texts on consecutive lines. *)
Definition nl (a b : string) : string := (a ++ String LF b)%string.
Infix "+\n+" := nl (at level 60, right associativity).

(** ** The panic monad *)

Definition bind {A B : Type} (m : option A) (k : A -> option B) : option B :=
  match m with
  | Some a => k a
  | None => None
  end.

Notation "x <- m ;; k" := (bind m (fun x => k))
  (at level 61, m at next level, right associativity).

(** A [for _, x := range xs] loop whose body may panic, threading the
    variables it assigns as the accumulator. *)
Fixpoint forRange {A S : Type} (body : S -> A -> option S) (xs : list A) (st : S)
  : option S :=
  match xs with
  | [] => Some st
  | x :: rest => st' <- body st x ;; forRange body rest st'
  end.

(** ** Package [strings] *)

Module strings.

(** [strings.HasPrefix(s, prefix)]. *)
Definition HasPrefix (s prefix : string) : bool := String.prefix prefix s.

(** [strings.TrimPrefix(s, prefix)]: [s] without the leading [prefix], or
    [s] itself when it does not start with [prefix]. *)
Definition TrimPrefix (s prefix : string) : string :=
  if HasPrefix s prefix then drop (String.length prefix) s else s.

(** [strings.Split(s, sep)] for a one-byte separator [sep], the only use
    the program makes of it ([sep] is ["\n"]): the substrings between the
    occurrences of [sep]; the empty string splits into one empty string. *)
Fixpoint Split (s : string) (sep : ascii) : list string :=
  match s with
  | EmptyString => [EmptyString]
  | String c s' =>
      if Ascii.eqb c sep then EmptyString :: Split s' sep
      else match Split s' sep with
           | x :: xs => String c x :: xs
           | [] => [String c EmptyString]
           end
  end.

(** White space as [unicode.IsSpace] sees it in a UTF-8 byte string.  The
    one-byte runes are '\t', '\n', '\v', '\f', '\r' and ' '. *)
Definition asciiSpace (c : ascii) : bool :=
  let n := byte c in ((9 <=? n) && (n <=? 13)) || (n =? 32).

(** U+0085 (C2 85) and U+00A0 (C2 A0). *)
Definition space2 (c d : ascii) : bool :=
  (byte c =? 194) && ((byte d =? 133) || (byte d =? 160)).

(** U+1680 (E1 9A 80), U+2000..U+200A (E2 80 80..8A), U+2028, U+2029
    (E2 80 A8, A9), U+202F (E2 80 AF), U+205F (E2 81 9F), U+3000
    (E3 80 80). *)
Definition space3 (c d e : ascii) : bool :=
  ((byte c =? 225) && (byte d =? 154) && (byte e =? 128))
  || ((byte c =? 226) && (byte d =? 128)
      && (((128 <=? byte e) && (byte e <=? 138))
          || (byte e =? 168) || (byte e =? 169) || (byte e =? 175)))
  || ((byte c =? 226) && (byte d =? 129) && (byte e =? 159))
  || ((byte c =? 227) && (byte d =? 128) && (byte e =? 128)).

(** [strings.TrimLeftFunc(s, unicode.IsSpace)]: runes are decoded from the
    front while they are white space. *)
Fixpoint TrimLeftSpace (s : string) : string :=
  match s with
  | EmptyString => EmptyString
  | String c r =>
      if asciiSpace c then TrimLeftSpace r
      else match r with
           | String d r2 =>
               if space2 c d then TrimLeftSpace r2
               else match r2 with
                    | String e r3 =>
                        if space3 c d e then TrimLeftSpace r3 else s
                    | EmptyString => s
                    end
           | EmptyString => s
           end
  end.

(** The same scan on the reversed string, for
    [strings.TrimRightFunc(s, unicode.IsSpace)]: the bytes of a rune are
    met last byte first. *)
Fixpoint TrimLeftSpaceRev (s : string) : string :=
  match s with
  | EmptyString => EmptyString
  | String c r =>
      if asciiSpace c then TrimLeftSpaceRev r
      else match r with
           | String d r2 =>
               if space2 d c then TrimLeftSpaceRev r2
               else match r2 with
                    | String e r3 =>
                        if space3 e d c then TrimLeftSpaceRev r3 else s
                    | EmptyString => s
                    end
           | EmptyString => s
           end
  end.

Definition TrimRightSpace (s : string) : string :=
  rev_string EmptyString (TrimLeftSpaceRev (rev_string EmptyString s)).

(** [strings.TrimSpace(s)]: all leading and trailing white space removed. *)
Definition TrimSpace (s : string) : string :=
  TrimRightSpace (TrimLeftSpace s).

End strings.

(** ** Package [regexp], on the patterns of the program

    The program compiles three constant patterns.  Each is embedded as the
    matcher Go's engine runs for it: leftmost-first (backtracking) semantics,
    greedy quantifiers tried longest first, byte offsets.  [\d] is [0-9],
    [\s] is [\t\n\f\r ] (no vertical tab), [.] is any character but ["\n"];
    without the [m] flag [^] and [$] are the ends of the text, with it they
    are the ends of a line. *)

Module regexp.

Definition isDigit (c : ascii) : bool := (48 <=? byte c) && (byte c <=? 57).

(** The class [\s]. *)
Definition isSpace (c : ascii) : bool :=
  (byte c =? 9) || (byte c =? 10) || (byte c =? 12) || (byte c =? 13)
  || (byte c =? 32).

(** The class [[\d.]]. *)
Definition isDigitOrDot (c : ascii) : bool := isDigit c || (byte c =? 46).

Definition isHash (c : ascii) : bool := byte c =? 35.

(** Length of the longest prefix of [s] whose characters are in [cls]. *)
Fixpoint run (cls : ascii -> bool) (s : string) : nat :=
  match s with
  | String c s' => if cls c then S (run cls s') else 0
  | EmptyString => 0
  end.

Fixpoint noLF (s : string) : bool :=
  match s with
  | String c s' => negb (Ascii.eqb c LF) && noLF s'
  | EmptyString => true
  end.

(** *** [^#{1,3}\s+(.+)$]  (the [headerRegex] of [parseReleaseBody]) *)

(** [(.+)$] at [s]: the group is all of [s], which must be non-empty and
    free of line feeds. *)
Definition dotPlusEnd (s : string) : bool :=
  negb (String.eqb s EmptyString) && noLF s.

(** [\s+(.+)$] at [s], the repetition taking [k] characters, then [k-1],
    ... down to one. *)
Fixpoint spacesThenText (s : string) (k : nat) : option string :=
  match k with
  | 0 => None
  | S k' => if dotPlusEnd (drop k s) then Some (drop k s)
            else spacesThenText s k'
  end.

(** [#{1,3}\s+(.+)$] at [s], the first repetition taking [n] characters, then
    [n-1], ... down to one. *)
Fixpoint hashesThenRest (s : string) (n : nat) : option string :=
  match n with
  | 0 => None
  | S n' => match spacesThenText (drop n s) (run isSpace (drop n s)) with
            | Some g => Some g
            | None => hashesThenRest s n'
            end
  end.

(** [headerRegex.FindStringSubmatch(s)]: [nil] ([None]) when [s] does not
    match, else the whole match followed by the text of group 1. *)
Definition headerRegex_FindStringSubmatch (s : string) : option (list string) :=
  match hashesThenRest s (Nat.min (run isHash s) 3) with
  | Some g => Some [s; g]
  | None => None
  end.

(** *** The version-header patterns of the flat parsers *)

(** A compiled pattern, seen through the one method the flat parsers call on
    it: [FindAllStringSubmatchIndex(content, -1)], the list of matches, each
    the list of offsets [start; end; start of group 1; end of group 1; ...]. *)
Record Regexp := { FindAllStringSubmatchIndex : string -> list (list Z) }.

(** [FindAllStringSubmatch(content, -1)]: the same matches as texts; a group
    that did not take part (offset -1) is the empty string. *)
Fixpoint submatchTexts (content : string) (m : list Z) : list string :=
  match m with
  | lo :: hi :: rest =>
      (if (0 <=? lo)%Z then substr content lo hi else EmptyString)
      :: submatchTexts content rest
  | _ => []
  end.

Definition FindAllStringSubmatch (re : Regexp) (content : string) : list (list string) :=
  map (submatchTexts content) (FindAllStringSubmatchIndex re content).

(** A matcher in progress: the offset reached, counted from the start of the
    attempt, and the text that remains. *)
Definition cursor : Type := nat * string.

Definition lit (p : string) (cu : cursor) : option cursor :=
  if String.prefix p (snd cu)
  then Some (fst cu + String.length p, drop (String.length p) (snd cu))
  else None.

(** [cls+], greedy.  In the patterns below what follows a [cls+] starts with
    a character outside [cls], so no shorter repetition can succeed. *)
Definition many1 (cls : ascii -> bool) (cu : cursor) : option cursor :=
  let n := run cls (snd cu) in
  if n =? 0 then None else Some (fst cu + n, drop n (snd cu)).

(** [cls{n}]. *)
Definition exactly (n : nat) (cls : ascii -> bool) (cu : cursor) : option cursor :=
  if (n <=? run cls (snd cu)) then Some (fst cu + n, drop n (snd cu)) else None.

(** [$] under the [m] flag: at the end of the text or before a line feed. *)
Definition atEOL (s : string) : bool :=
  match s with
  | EmptyString => true
  | String c _ => Ascii.eqb c LF
  end.

(** [\s*$] under the [m] flag at [s], the repetition taking [k] characters,
    then [k-1], ... down to none. *)
Fixpoint spacesThenEOL (s : string) (k : nat) : option nat :=
  if atEOL (drop k s) then Some k
  else match k with
       | 0 => None
       | S k' => spacesThenEOL s k'
       end.

Definition spacesEOL (cu : cursor) : option cursor :=
  k <- spacesThenEOL (snd cu) (run isSpace (snd cu)) ;;
  Some (fst cu + k, drop k (snd cu)).

(** One attempt of [^## (\d+\.\d+\.\d+)\s*$] at the start of a line: the
    length of the match and the offsets of group 1. *)
Definition claudeHeader (s : string) : option (nat * list (nat * nat)) :=
  c0 <- lit "## " (0, s) ;;
  c1 <- many1 isDigit c0 ;;
  c2 <- lit "." c1 ;;
  c3 <- many1 isDigit c2 ;;
  c4 <- lit "." c3 ;;
  c5 <- many1 isDigit c4 ;;
  c6 <- spacesEOL c5 ;;
  Some (fst c6, [(fst c0, fst c5)]).

(** One attempt of [^## ([\d.]+) - (\d{4}-\d{2}-\d{2})\s*$] at the start of a
    line: the length of the match and the offsets of groups 1 and 2. *)
Definition copilotHeader (s : string) : option (nat * list (nat * nat)) :=
  c0 <- lit "## " (0, s) ;;
  c1 <- many1 isDigitOrDot c0 ;;
  c2 <- lit " - " c1 ;;
  c3 <- exactly 4 isDigit c2 ;;
  c4 <- lit "-" c3 ;;
  c5 <- exactly 2 isDigit c4 ;;
  c6 <- lit "-" c5 ;;
  c7 <- exactly 2 isDigit c6 ;;
  c8 <- spacesEOL c7 ;;
  Some (fst c8, [(fst c0, fst c1); (fst c2, fst c7)]).

Definition offsets (pos : nat) (r : nat * list (nat * nat)) : list Z :=
  Z.of_nat pos :: Z.of_nat (pos + fst r)
  :: flat_map (fun g => [Z.of_nat (pos + fst g); Z.of_nat (pos + snd g)]) (snd r).

(** The search loop of [FindAll...] for a pattern anchored by [(?m)^]: the
    text is walked from offset [pos]; [bol] tells whether [pos] is the start
    of a line, [skip] how many characters of the last match are still to be
    passed.  An attempt is made at every line start outside a match, and the
    search resumes at the end of each match.  (The header patterns start with
    the literal ["## "], so they never match the empty string and Go's
    special treatment of empty matches does not arise.) *)
Fixpoint findAllFrom (attempt : string -> option (nat * list (nat * nat)))
    (skip : nat) (bol : bool) (pos : nat) (s : string) : list (list Z) :=
  match skip, s with
  | S k, String c s' => findAllFrom attempt k (Ascii.eqb c LF) (S pos) s'
  | S _, EmptyString => []
  | 0, _ =>
      match (if bol then attempt s else None), s with
      | Some r, String c s' =>
          offsets pos r :: findAllFrom attempt (pred (fst r)) (Ascii.eqb c LF) (S pos) s'
      | Some r, EmptyString => [offsets pos r]
      | None, String c s' => findAllFrom attempt 0 (Ascii.eqb c LF) (S pos) s'
      | None, EmptyString => []
      end
  end.

(** [regexp.MustCompile(`(?m)^## (\d+\.\d+\.\d+)\s*$`)], the pattern
    [fetchClaudeChangelog] passes. *)
Definition claudeVersionRegex : Regexp :=
  {| FindAllStringSubmatchIndex := findAllFrom claudeHeader 0 true 0 |}.

(** [regexp.MustCompile(`(?m)^## ([\d.]+) - (\d{4}-\d{2}-\d{2})\s*$`)], the
    pattern [fetchCopilotChangelog] passes. *)
Definition copilotVersionRegex : Regexp :=
  {| FindAllStringSubmatchIndex := findAllFrom copilotHeader 0 true 0 |}.

End regexp.

(** ** Package [time] *)

Module time.

(** A [time.Time], by its civil fields and the offset of its location in
    seconds east of UTC.  The zero value [Time{}] is January 1, year 1,
    00:00:00 UTC. *)
Record Time := Date {
  Year : Z; Month : Z; Day : Z;
  Hour : Z; Minute : Z; Second : Z; Nanosecond : Z;
  ZoneOffset : Z
}.

Definition zero : Time := Date 1 1 1 0 0 0 0 0.

Definition Time_eqb (a b : Time) : bool :=
  (Year a =? Year b)%Z && (Month a =? Month b)%Z && (Day a =? Day b)%Z
  && (Hour a =? Hour b)%Z && (Minute a =? Minute b)%Z
  && (Second a =? Second b)%Z && (Nanosecond a =? Nanosecond b)%Z
  && (ZoneOffset a =? ZoneOffset b)%Z.

(** [t.IsZero()]. *)
Definition IsZero (t : Time) : bool := Time_eqb t zero.

(** The error value of [time.Parse]. *)
Inductive ParseError := errBad | errRange (what : string) | errExtra.

Definition isLeap (year : Z) : bool :=
  (year mod 4 =? 0)%Z && (negb (year mod 100 =? 0)%Z || (year mod 400 =? 0)%Z).

Definition daysIn (month year : Z) : Z :=
  if (month =? 2)%Z then (if isLeap year then 29 else 28)%Z
  else if (month =? 4)%Z || (month =? 6)%Z || (month =? 9)%Z || (month =? 11)%Z
       then 30%Z else 31%Z.

Definition digit (c : ascii) : Z := Z.of_nat (byte c - 48).

(** A run of exactly [n] decimal digits at the front of [s]: its value and
    the rest of [s]. *)
Fixpoint digits (n : nat) (acc : Z) (s : string) : option (Z * string) :=
  match n with
  | 0 => Some (acc, s)
  | S n' => match s with
            | String c s' =>
                if regexp.isDigit c then digits n' (10 * acc + digit c)%Z s'
                else None
            | EmptyString => None
            end
  end.

(** [time.Parse("2006-01-02", value)]: a four-digit year, a two-digit month
    and a two-digit day separated by ['-'], nothing after; the month must be
    1..12 and the day must exist in that month.  The result is midnight UTC
    of that day.  Like Go's, the function returns a pair: on an error the
    time is the zero value [Time{}]. *)
Definition Parse_DateOnly (value : string) : Time * option ParseError :=
  match digits 4 0 value with
  | Some (year, String "-" v1) =>
      match digits 2 0 v1 with
      | Some (month, v2) =>
          if (month <=? 0)%Z || (12 <? month)%Z then (zero, Some (errRange "month"))
          else match v2 with
               | String "-" v3 =>
                   match digits 2 0 v3 with
                   | Some (day, EmptyString) =>
                       if (day <? 1)%Z || (daysIn month year <? day)%Z
                       then (zero, Some (errRange "day"))
                       else (Date year month day 0 0 0 0 0, None)
                   | Some (_, String _ _) => (zero, Some errExtra)
                   | None => (zero, Some errBad)
                   end
               | _ => (zero, Some errBad)
               end
      | None => (zero, Some errBad)
      end
  | _ => (zero, Some errBad)
  end.

End time.

(** ** The entry model  ([main.go], lines 18-29)

    Both Go structs have a field [Changes]; the one of [ChangelogEntry] is
    [EntryChanges] here. *)

Record Section := {
  Name : string;
  Changes : list string
}.

Record ChangelogEntry := {
  Version : string;
  ReleasedAt : time.Time;
  Source : string;
  Sections : list Section;
  EntryChanges : list string
}.

(** ** The hierarchical release-body parser  ([parseReleaseBody]) *)

(** The variables of the loop: [sections], [ungroupedChanges] and the
    pointer [currentSection], [nil] or the address of the one section under
    construction (the loop never keeps a second reference to it). *)
Record scan := {
  sections : list Section;
  ungroupedChanges : list string;
  currentSection : option Section
}.

Definition scan0 : scan :=
  {| sections := []; ungroupedChanges := []; currentSection := None |}.

(** [if currentSection != nil && len(currentSection.Changes) > 0
       { sections = append(sections, *currentSection) }]. *)
Definition flush (sections : list Section) (currentSection : option Section)
  : list Section :=
  match currentSection with
  | Some cs => if 0 <? List.length (Changes cs) then sections ++ [cs] else sections
  | None => sections
  end.

(** [if currentSection != nil { currentSection.Changes = append(...) }
       else { ungroupedChanges = append(ungroupedChanges, change) }]. *)
Definition appendChange (st : scan) (change : string) : scan :=
  match currentSection st with
  | Some cs =>
      {| sections := sections st;
         ungroupedChanges := ungroupedChanges st;
         currentSection := Some {| Name := Name cs; Changes := Changes cs ++ [change] |} |}
  | None =>
      {| sections := sections st;
         ungroupedChanges := ungroupedChanges st ++ [change];
         currentSection := None |}
  end.

(** [if change != "" && !strings.HasPrefix(change, "@") { ... }]. *)
Definition keepChange (st : scan) (change : string) : scan :=
  if negb (String.eqb change "") && negb (strings.HasPrefix change "@")
  then appendChange st change
  else st.

(** The body of the loop over the lines. *)
Definition scanLine (st : scan) (line : string) : option scan :=
  let trimmed := strings.TrimSpace line in
  match regexp.headerRegex_FindStringSubmatch trimmed with
  | Some match_ =>
      m1 <- index match_ 1 ;;
      let headerName := strings.TrimSpace m1 in
      if String.eqb headerName "What's Changed" then Some st
      else Some {| sections := flush (sections st) (currentSection st);
                   ungroupedChanges := ungroupedChanges st;
                   currentSection := Some {| Name := headerName; Changes := [] |} |}
  | None =>
      if strings.HasPrefix trimmed "- " || strings.HasPrefix trimmed "* " then
        let change := strings.TrimPrefix trimmed "- " in
        let change := strings.TrimPrefix change "* " in
        Some (keepChange st change)
      else Some st
  end.

(** The text of the header a line carries, if it is a header line: group 1
    of [headerRegex] on the trimmed line, trimmed (lines 405-409). *)
Definition headerNameOf (line : string) : option string :=
  match regexp.headerRegex_FindStringSubmatch (strings.TrimSpace line) with
  | Some match_ => option_map strings.TrimSpace (index match_ 1)
  | None => None
  end.

Definition parseReleaseBody (body : string) : option (list Section * list string) :=
  let lines := strings.Split body LF in
  st <- forRange scanLine lines scan0 ;;
  Some (flush (sections st) (currentSection st), ungroupedChanges st).

(** ** The version-anchored flat parsers *)

(** [parseChanges]. *)
Definition parseChanges (content : string) : list string :=
  let lines := strings.Split content LF in
  fold_left
    (fun changes line =>
       let trimmed := strings.TrimSpace line in
       if strings.HasPrefix trimmed "- "
       then changes ++ [strings.TrimPrefix trimmed "- "]
       else changes)
    lines [].

(** [contentEnd] in both flat parsers: the start of the next match, or the
    length of the document after the last match. *)
Definition contentEnd (content : string) (matches : list (list Z)) (i : nat)
  : option Z :=
  if S i <? List.length matches
  then next <- index matches (Z.of_nat (S i)) ;; index next 0
  else Some (len content).

(** [sectionContent] in both flat parsers: the text from the end of the
    [i]-th match to [contentEnd]. *)
Definition sectionContent (content : string) (matches : list (list Z)) (i : nat)
    (versionEnd : Z) : option string :=
  contentEnd <- contentEnd content matches i ;;
  slice content versionEnd contentEnd.

(** The body of the loop of [parseMarkdownChangelog] at index [i]. *)
Definition changelogEntryAt (content : string) (matches : list (list Z))
    (i : nat) (match_ : list Z) : option ChangelogEntry :=
  versionEnd <- index match_ 1 ;;
  lo <- index match_ 2 ;;
  hi <- index match_ 3 ;;
  ver <- slice content lo hi ;;
  sectionContent <- sectionContent content matches i versionEnd ;;
  let changes := parseChanges sectionContent in
  Some {| Version := ver; ReleasedAt := time.zero; Source := "";
          Sections := []; EntryChanges := changes |}.

(** A [for i, x := range xs] loop that appends one value per turn. *)
Fixpoint forRangeAppend {A B : Type} (body : nat -> A -> option B)
    (i : nat) (xs : list A) (acc : list B) : option (list B) :=
  match xs with
  | [] => Some acc
  | x :: rest => b <- body i x ;; forRangeAppend body (S i) rest (acc ++ [b])
  end.

Definition parseMarkdownChangelog (content : string) (versionRegex : regexp.Regexp)
  : option (list ChangelogEntry) :=
  let matches := regexp.FindAllStringSubmatchIndex versionRegex content in
  forRangeAppend (changelogEntryAt content matches) 0 matches [].

(** The body of the loop of [parseMarkdownChangelogWithDate] at index [i]. *)
Definition datedEntryAt (content : string) (matchIndexes : list (list Z))
    (i : nat) (match_ : list string) : option ChangelogEntry :=
  ver <- index match_ 1 ;;
  dateStr <- index match_ 2 ;;
  let releasedAt := fst (time.Parse_DateOnly dateStr) in
  this <- index matchIndexes (Z.of_nat i) ;;
  start <- index this 1 ;;
  sectionContent <- sectionContent content matchIndexes i start ;;
  let changes := parseChanges sectionContent in
  Some {| Version := ver; ReleasedAt := releasedAt; Source := "";
          Sections := []; EntryChanges := changes |}.

Definition parseMarkdownChangelogWithDate (content : string)
    (versionRegex : regexp.Regexp) : option (list ChangelogEntry) :=
  let matches := regexp.FindAllStringSubmatch versionRegex content in
  let matchIndexes := regexp.FindAllStringSubmatchIndex versionRegex content in
  forRangeAppend (datedEntryAt content matchIndexes) 0 matches [].

(** [fetchClaudeChangelog], from the document it has fetched to the entries
    it parses (the commit date it then stores in the first entry comes from
    the network). *)
Definition fetchClaudeChangelog (content : string) : option (list ChangelogEntry) :=
  parseMarkdownChangelog content regexp.claudeVersionRegex.

(** [fetchCopilotChangelog], from the document it has fetched. *)
Definition fetchCopilotChangelog (content : string) : option (list ChangelogEntry) :=
  parseMarkdownChangelogWithDate content regexp.copilotVersionRegex.

(** ** The entries of a list of releases  ([fetchGitHubReleases], lines 363-392) *)

(** One decoded record of the releases API. *)
Record Release := {
  TagName : string;
  ReleaseName : string;
  Body : string;
  PublishedAt : string
}.

(** The value of [ver] after lines 376-378. *)
Definition ver (tagName : string) : string :=
  let ver := tagName in
  let ver := strings.TrimPrefix ver "v" in
  let ver := strings.TrimPrefix ver "rust-v" in
  ver.

Section Releases.

(** [time.Parse(time.RFC3339, value)], the time and the error it returns. *)
Variable Parse_RFC3339 : string -> time.Time * option time.ParseError.

(** The body of the loop over the releases. *)
Definition releaseEntry (entries : list ChangelogEntry) (rel : Release)
  : option (list ChangelogEntry) :=
  let ver := ver (TagName rel) in
  parsed <- parseReleaseBody (Body rel) ;;
  let '(sections, ungroupedChanges) := parsed in
  let releasedAt := fst (Parse_RFC3339 (PublishedAt rel)) in
  Some (entries ++ [ {| Version := ver; ReleasedAt := releasedAt; Source := "";
                        Sections := sections; EntryChanges := ungroupedChanges |} ]).

Definition fetchGitHubReleases (releases : list Release) : option (list ChangelogEntry) :=
  forRange releaseEntry releases [].

End Releases.

(** ** [time.Parse] under the layout [time.RFC3339]

    [time.Parse(time.RFC3339, value)] as Go (1.20 and later) runs it on the
    layout [2006-01-02T15:04:05Z07:00], element by element: a year of four
    digits, month and day of two, an hour of one or two digits, minute and
    second of two; after the seconds a fraction is read even though the
    layout has none, a period or a comma followed by digits, of which the
    first nine count; the zone is [Z] or a sign, two digits, a colon and two
    digits, hours up to 24 and minutes up to 60; nothing may follow; the day
    is checked against the month at the end.  The result carries the fields
    as they are written and the offset of the zone in seconds. *)

Module rfc3339.

Definition res (A : Type) : Type := (A + time.ParseError)%type.

Definition andThen {A B : Type} (m : res A) (k : A -> res B) : res B :=
  match m with
  | inl a => k a
  | inr e => inr e
  end.

(** [getnum(s, fixed)]: two digits, or one when [fixed] is false and no
    second digit follows. *)
Definition getnum (s : string) (fixed : bool) : res (Z * string) :=
  match s with
  | String c s1 =>
      if regexp.isDigit c then
        match s1 with
        | String d s2 =>
            if regexp.isDigit d
            then inl ((10 * time.digit c + time.digit d)%Z, s2)
            else if fixed then inr time.errBad else inl (time.digit c, s1)
        | EmptyString => if fixed then inr time.errBad else inl (time.digit c, s1)
        end
      else inr time.errBad
  | EmptyString => inr time.errBad
  end.

(** The element [2006]: four bytes, all digits. *)
Definition longYear (s : string) : res (Z * string) :=
  match time.digits 4 0 s with
  | Some r => inl r
  | None => inr time.errBad
  end.

(** [skip(value, prefix)] for a prefix of one byte other than a space. *)
Definition skip (s : string) (c : ascii) : res string :=
  match s with
  | String d s' => if Ascii.eqb d c then inl s' else inr time.errBad
  | EmptyString => inr time.errBad
  end.

(** A range test of the loop: [what] is out of range unless [ok]. *)
Definition inRange (ok : bool) (what : string) : res unit :=
  if ok then inl tt else inr (time.errRange what).

Definition commaOrPeriod (c : ascii) : bool := (byte c =? 46) || (byte c =? 44).

(** The digits at the front of [s] and what follows them. *)
Fixpoint digitRun (s : string) : string * string :=
  match s with
  | String c s' =>
      if regexp.isDigit c
      then let '(ds, rest) := digitRun s' in (String c ds, rest)
      else (EmptyString, s)
  | EmptyString => (EmptyString, EmptyString)
  end.

(** [parseNanoseconds]: the first [n] digits of [ds] count, a missing digit
    is a zero. *)
Fixpoint nanoseconds (n : nat) (acc : Z) (ds : string) : Z :=
  match n with
  | 0 => acc
  | S n' =>
      match ds with
      | String c ds' => nanoseconds n' (10 * acc + time.digit c)%Z ds'
      | EmptyString => nanoseconds n' (10 * acc)%Z EmptyString
      end
  end.

(** The fraction after the seconds, if there is one. *)
Definition fraction (s : string) : Z * string :=
  match s with
  | String c (String d _ as s1) =>
      if commaOrPeriod c && regexp.isDigit d
      then let '(ds, rest) := digitRun s1 in (nanoseconds 9 0 ds, rest)
      else (0%Z, s)
  | _ => (0%Z, s)
  end.

(** The element [Z07:00]: the offset in seconds and what follows. *)
Definition zone (s : string) : res (Z * string) :=
  match s with
  | String sign s1 =>
      if Ascii.eqb sign "Z" then inl (0%Z, s1)
      else
        match s1 with
        | String h1 (String h2 (String colon (String m1 (String m2 rest)))) =>
            if negb (Ascii.eqb colon ":") then inr time.errBad
            else
              let hr := getnum (String h1 (String h2 EmptyString)) true in
              let mm := andThen hr (fun _ =>
                          getnum (String m1 (String m2 EmptyString)) true) in
              let hrv := match hr with inl (v, _) => v | inr _ => 0%Z end in
              let mmv := match mm with inl (v, _) => v | inr _ => 0%Z end in
              if (60 <? mmv)%Z then inr (time.errRange "time zone offset minute")
              else if (24 <? hrv)%Z then inr (time.errRange "time zone offset hour")
              else
                andThen mm (fun _ =>
                  let zoneOffset := ((hrv * 60 + mmv) * 60)%Z in
                  if Ascii.eqb sign "+" then inl (zoneOffset, rest)
                  else if Ascii.eqb sign "-" then inl ((- zoneOffset)%Z, rest)
                  else inr time.errBad)
        | _ => inr time.errBad
        end
  | EmptyString => inr time.errBad
  end.

Definition parse (value : string) : res time.Time :=
  andThen (longYear value) (fun '(year, v) =>
  andThen (skip v "-") (fun v =>
  andThen (getnum v true) (fun '(month, v) =>
  andThen (inRange (negb ((month <=? 0)%Z || (12 <? month)%Z)) "month") (fun _ =>
  andThen (skip v "-") (fun v =>
  andThen (getnum v true) (fun '(day, v) =>
  andThen (skip v "T") (fun v =>
  andThen (getnum v false) (fun '(hour, v) =>
  andThen (inRange (hour <? 24)%Z "hour") (fun _ =>
  andThen (skip v ":") (fun v =>
  andThen (getnum v true) (fun '(min, v) =>
  andThen (inRange (min <? 60)%Z "minute") (fun _ =>
  andThen (skip v ":") (fun v =>
  andThen (getnum v true) (fun '(sec, v) =>
  andThen (inRange (sec <? 60)%Z "second") (fun _ =>
  let '(nsec, v) := fraction v in
  andThen (zone v) (fun '(zoneOffset, v) =>
  match v with
  | String _ _ => inr time.errExtra
  | EmptyString =>
      andThen (inRange (negb ((day <? 1)%Z || (time.daysIn month year <? day)%Z)) "day")
        (fun _ => inl (time.Date year month day hour min sec nsec zoneOffset))
  end)))))))))))))))).

(** The pair Go returns: with an error the time is the zero value. *)
Definition Parse (value : string) : time.Time * option time.ParseError :=
  match parse value with
  | inl t => (t, None)
  | inr e => (time.zero, Some e)
  end.

End rfc3339.

(** ** Printing a date  ([time.Time.Format] under the layout [2006-01-02]) *)

Module timefmt.

Definition utod (u : nat) : ascii := ascii_of_nat (48 + u).

(** The decimal digits of [u], most significant first, put before [acc]. *)
Fixpoint decimalDigits (fuel u : nat) (acc : string) : string :=
  match fuel with
  | 0 => acc
  | S fuel' =>
      let acc' := String (utod (u mod 10)) acc in
      if u <? 10 then acc' else decimalDigits fuel' (u / 10) acc'
  end.

Definition decimal (u : nat) : string := decimalDigits (S (Nat.log2 u)) u EmptyString.

Fixpoint zeros (n : nat) : string :=
  match n with
  | 0 => EmptyString
  | S n' => String "0" (zeros n')
  end.

(** [appendInt(b, x, width)] of package [time], as the text it appends: the
    sign of a negative [x], then its decimal digits padded with zeros to
    [width] digits. *)
Definition appendInt (x : Z) (width : nat) : string :=
  let u := Z.abs_nat x in
  let sign := if (x <? 0)%Z then "-" else "" in
  let digits :=
    if (width =? 2) && (u <? 100)
    then String (utod (u / 10)) (String (utod (u mod 10)) EmptyString)
    else if (width =? 4) && (u <? 100 * 100)
    then String (utod (u / 1000))
           (String (utod (u / 100 mod 10))
              (String (utod (u / 10 mod 10))
                 (String (utod (u mod 10)) EmptyString)))
    else (zeros (width - String.length (decimal u)) ++ decimal u)%string in
  (sign ++ digits)%string.

(** [t.Format("2006-01-02")]: year, month and day of [t] in its own
    location. *)
Definition Format_DateOnly (t : time.Time) : string :=
  (appendInt (time.Year t) 4 ++ "-" ++ appendInt (time.Month t) 2 ++ "-"
   ++ appendInt (time.Day t) 2)%string.

End timefmt.

(** ** The renderers  ([outputMarkdown], [outputPlainText])

    What a renderer writes to the standard output is the string it returns;
    [out] is the output so far.  ([IsZero] compares civil fields, which is
    the test of Go for the times in UTC the parsers produce.) *)

Definition eol : string := String LF EmptyString.

(** [strings.Repeat(s, count)]. *)
Fixpoint Repeat (s : string) (count : nat) : string :=
  match count with
  | 0 => EmptyString
  | S n => (s ++ Repeat s n)%string
  end.

(** [for _, change := range changes { fmt.Printf(bullet + "%s\n", change) }]. *)
Definition printChanges (bullet : string) (out : string) (changes : list string) : string :=
  fold_left (fun out change => (out ++ bullet ++ change ++ eol)%string) changes out.

Definition outputMarkdown (entry : ChangelogEntry) : string :=
  let out :=
    if negb (time.IsZero (ReleasedAt entry))
    then ("## " ++ Version entry ++ " ("
          ++ timefmt.Format_DateOnly (ReleasedAt entry) ++ ")" ++ eol ++ eol)%string
    else ("## " ++ Version entry ++ eol ++ eol)%string in
  let out :=
    fold_left
      (fun out section =>
         let out := (out ++ "### " ++ Name section ++ eol ++ eol)%string in
         let out := printChanges "- " out (Changes section) in
         (out ++ eol)%string)
      (Sections entry) out in
  printChanges "- " out (EntryChanges entry).

Definition outputPlainText (displayName : string) (entry : ChangelogEntry) : string :=
  let out :=
    if negb (time.IsZero (ReleasedAt entry))
    then (displayName ++ " " ++ Version entry ++ " ("
          ++ timefmt.Format_DateOnly (ReleasedAt entry) ++ ")" ++ eol)%string
    else (displayName ++ " " ++ Version entry ++ eol)%string in
  let out := (out ++ Repeat "-" 40 ++ eol)%string in
  let out :=
    fold_left
      (fun out section =>
         let out := (out ++ eol ++ "[" ++ Name section ++ "]" ++ eol)%string in
         printChanges "  * " out (Changes section))
      (Sections entry) out in
  let out :=
    if (0 <? List.length (Sections entry)) && (0 <? List.length (EntryChanges entry))
    then (out ++ eol)%string
    else out in
  printChanges "  * " out (EntryChanges entry).

(** ** [fetchClaudeChangelog] with the date of the last commit

    [commitDate] is what [fetchGitHubFileLastCommitDate] returned: the date
    of the last commit of the changelog file, or the zero time when it could
    not be had.  It is queried, and stored in the first entry, only when
    there is an entry. *)
Definition fetchClaudeChangelogAt (content : string) (commitDate : time.Time)
  : option (list ChangelogEntry) :=
  entries <- parseMarkdownChangelog content regexp.claudeVersionRegex ;;
  match entries with
  | first :: rest =>
      if negb (time.IsZero commitDate)
      then Some ({| Version := Version first; ReleasedAt := commitDate;
                    Source := Source first; Sections := Sections first;
                    EntryChanges := EntryChanges first |} :: rest)
      else Some entries
  | [] => Some entries
  end.

(** ** The command line  ([main], lines 107-167) *)

Record Flags := {
  jsonOutput : bool;
  mdOutput : bool;
  listVersions : bool;
  targetVersion : string
}.

Definition noFlags : Flags :=
  {| jsonOutput := false; mdOutput := false; listVersions := false;
     targetVersion := "" |}.

(** The loop over [args[1:]]: [-version] takes the argument after it, when
    there is one, and the loop steps over that argument. *)
Fixpoint parseFlags (fl : Flags) (args : list string) : Flags :=
  match args with
  | [] => fl
  | arg :: rest =>
      if String.eqb arg "-json" || String.eqb arg "--json" then
        parseFlags {| jsonOutput := true; mdOutput := mdOutput fl;
                      listVersions := listVersions fl;
                      targetVersion := targetVersion fl |} rest
      else if String.eqb arg "-md" || String.eqb arg "--md" then
        parseFlags {| jsonOutput := jsonOutput fl; mdOutput := true;
                      listVersions := listVersions fl;
                      targetVersion := targetVersion fl |} rest
      else if String.eqb arg "-list" || String.eqb arg "--list" then
        parseFlags {| jsonOutput := jsonOutput fl; mdOutput := mdOutput fl;
                      listVersions := true;
                      targetVersion := targetVersion fl |} rest
      else if String.eqb arg "-version" || String.eqb arg "--version" then
        match rest with
        | value :: rest' =>
            parseFlags {| jsonOutput := jsonOutput fl; mdOutput := mdOutput fl;
                          listVersions := listVersions fl;
                          targetVersion := value |} rest'
        | [] => fl
        end
      else parseFlags fl rest
  end.

(** How the program ends: its exit status and what it wrote. *)
Record Outcome := {
  exitCode : Z;
  stdout : string;
  stderr : string
}.

(** [for i := range entries { if entries[i].Version == targetVersion
       { entry = &entries[i]; break } }]. *)
Fixpoint findVersion (entries : list ChangelogEntry) (targetVersion : string)
  : option ChangelogEntry :=
  match entries with
  | [] => None
  | e :: rest =>
      if String.eqb (Version e) targetVersion then Some e
      else findVersion rest targetVersion
  end.

Section Main.

(** [outputJSON], which goes through [encoding/json]: what the program
    writes and how it ends when it prints [entry] as JSON. *)
Variable outputJSON : ChangelogEntry -> Outcome.

(** [main] from line 107 on, for a known source: [displayName] is its
    display name, [args] are the arguments after the source name and
    [fetched] is what its [FetchFunc] returned, entries or an error text. *)
Definition mainFrom (displayName : string) (args : list string)
    (fetched : list ChangelogEntry + string) : Outcome :=
  let fl := parseFlags noFlags args in
  match fetched with
  | inr err =>
      {| exitCode := 1; stdout := "";
         stderr := ("Error fetching changelog: " ++ err ++ eol)%string |}
  | inl entries =>
      if List.length entries =? 0 then
        {| exitCode := 1; stdout := "";
           stderr := ("Error: No changelog entries found" ++ eol)%string |}
      else if listVersions fl then
        {| exitCode := 0;
           stdout := fold_left (fun out entry => (out ++ Version entry ++ eol)%string)
                       entries "";
           stderr := "" |}
      else
        let chosen :=
          if negb (String.eqb (targetVersion fl) "")
          then findVersion entries (targetVersion fl)
          else nth_error entries 0 in
        match chosen with
        | None =>
            {| exitCode := 1; stdout := "";
               stderr := ("Error: Version " ++ targetVersion fl ++ " not found" ++ eol)%string |}
        | Some entry =>
            if jsonOutput fl then outputJSON entry
            else if mdOutput fl then
              {| exitCode := 0; stdout := outputMarkdown entry; stderr := "" |}
            else
              {| exitCode := 0; stdout := outputPlainText displayName entry;
                 stderr := "" |}
        end
  end.

End Main.

(** ** Vocabulary of the statements *)

(** [P] holds of the sections already closed and of the one that is open. *)
Definition scan_all (P : Section -> Prop) (st : scan) : Prop :=
  Forall P (sections st) /\ (forall cs, currentSection st = Some cs -> P cs).

Definition noMention (change : string) : Prop := strings.HasPrefix change "@" = false.

Definition named (s : Section) : Prop := Name s <> "What's Changed".

Definition populated (s : Section) : Prop := Changes s <> [].

(** A line that is neither a header nor a bullet. *)
Definition prose (line : string) : Prop :=
  headerNameOf line = None
  /\ strings.HasPrefix (strings.TrimSpace line) "- " = false
  /\ strings.HasPrefix (strings.TrimSpace line) "* " = false.

(** The start and the end of a match. *)
Definition matchStart (m : list Z) : Z := nth 0 m 0%Z.
Definition matchEnd (m : list Z) : Z := nth 1 m 0%Z.

(** What the flat parsers rely on in the result of
    [FindAllStringSubmatchIndex] on a document of [n] bytes: every match has
    the offsets of the whole match and of group 1, group 1 took part in the
    match and lies in the document, and the matches are in document order and
    do not overlap (each starts at or after [from], the end of the one
    before). *)
Fixpoint wf_matches (n from : Z) (ms : list (list Z)) : bool :=
  match ms with
  | [] => true
  | (s :: e :: g1 :: g2 :: _) :: rest =>
      (from <=? s)%Z && (s <=? e)%Z && (e <=? n)%Z
      && (0 <=? g1)%Z && (g1 <=? g2)%Z && (g2 <=? n)%Z
      && wf_matches n e rest
  | _ :: _ => false
  end.

(** Every match has the offsets of a second group as well. *)
Definition two_groups (ms : list (list Z)) : bool :=
  forallb (fun m => 6 <=? List.length m) ms.

(** The spans of a document: for each match, the text from its end to the
    start of the next match, or to the end of the document. *)
Fixpoint spansOf (content : string) (ms : list (list Z)) : list string :=
  match ms with
  | [] => []
  | m :: rest =>
      substr content (matchEnd m)
        (match rest with
         | next :: _ => matchStart next
         | [] => len content
         end)
      :: spansOf content rest
  end.

(** The texts of the matches. *)
Definition headersOf (content : string) (ms : list (list Z)) : list string :=
  map (fun m => substr content (matchStart m) (matchEnd m)) ms.

(** [weave [s0; s1; ...] [h1; h2; ...]] is [s0 ++ h1 ++ s1 ++ h2 ++ ...]. *)
Fixpoint weave (spans headers : list string) : string :=
  match spans with
  | [] => EmptyString
  | s :: spans' =>
      (s ++ match headers with
            | h :: headers' => h ++ weave spans' headers'
            | [] => EmptyString
            end)%string
  end.

Definition concat_strings (xs : list string) : string :=
  fold_right String.append EmptyString xs.

(** A time of day of zero in UTC. *)
Definition midnightUTC (t : time.Time) : Prop :=
  time.Hour t = 0%Z /\ time.Minute t = 0%Z /\ time.Second t = 0%Z
  /\ time.Nanosecond t = 0%Z /\ time.ZoneOffset t = 0%Z.

(** A cursor of a match attempt on [s]: the offset reached plus the length
    of what remains is the length of [s]. *)
Definition cursor_ok (s : string) (cu : regexp.cursor) : Prop :=
  fst cu + String.length (snd cu) = String.length s.

(** A step of a match attempt moves the cursor forward inside the text. *)
Definition advances (s : string) (cu cu' : regexp.cursor) : Prop :=
  cursor_ok s cu -> cursor_ok s cu' /\ fst cu <= fst cu'.

(** An attempt function reports matches that lie in the text it was given,
    with a first group inside the match. *)
Definition attempt_ok (attempt : string -> option (nat * list (nat * nat))) : Prop :=
  forall s n gs,
    attempt s = Some (n, gs) ->
    n <= String.length s
    /\ exists a b more, gs = (a, b) :: more /\ a <= b /\ b <= n.

(** Every byte of [s] is below 128. *)
Fixpoint isASCII (s : string) : bool :=
  match s with
  | EmptyString => true
  | String c s' => (byte c <? 128) && isASCII s'
  end.

(** The first rune of [s], read backwards as [TrimLeftSpaceRev] reads it, is
    white space. *)
Definition leadsSpaceRev (s : string) : bool :=
  match s with
  | String c r =>
      strings.asciiSpace c
      || match r with
         | String d r2 =>
             strings.space2 d c
             || match r2 with
                | String e _ => strings.space3 e d c
                | EmptyString => false
                end
         | EmptyString => false
         end
  | EmptyString => false
  end.

(** The lines of [ls], each followed by a line feed. *)
Definition unlines (ls : list string) : string :=
  fold_right (fun l rest => (l ++ eol ++ rest)%string) EmptyString ls.

(** The lines [outputMarkdown] writes: the title, an empty line, for each
    section its heading, an empty line, its bullets and an empty line, then
    the bullets of the ungrouped changes. *)
Definition markdownTitle (entry : ChangelogEntry) : string :=
  if negb (time.IsZero (ReleasedAt entry))
  then ("## " ++ Version entry ++ " ("
        ++ timefmt.Format_DateOnly (ReleasedAt entry) ++ ")")%string
  else ("## " ++ Version entry)%string.

Definition markdownSection (s : Section) : list string :=
  ("### " ++ Name s)%string :: EmptyString
  :: map (String.append "- ") (Changes s) ++ [EmptyString].

Definition markdownLines (entry : ChangelogEntry) : list string :=
  markdownTitle entry :: EmptyString
  :: flat_map markdownSection (Sections entry)
  ++ map (String.append "- ") (EntryChanges entry).

(** The lines [outputPlainText] writes. *)
Definition plainTitle (displayName : string) (entry : ChangelogEntry) : string :=
  if negb (time.IsZero (ReleasedAt entry))
  then (displayName ++ " " ++ Version entry ++ " ("
        ++ timefmt.Format_DateOnly (ReleasedAt entry) ++ ")")%string
  else (displayName ++ " " ++ Version entry)%string.

Definition plainSection (s : Section) : list string :=
  EmptyString :: ("[" ++ Name s ++ "]")%string
  :: map (String.append "  * ") (Changes s).

Definition plainLines (displayName : string) (entry : ChangelogEntry) : list string :=
  plainTitle displayName entry :: Repeat "-" 40
  :: flat_map plainSection (Sections entry)
  ++ (if (0 <? List.length (Sections entry)) && (0 <? List.length (EntryChanges entry))
      then [EmptyString] else [])
  ++ map (String.append "  * ") (EntryChanges entry).

(** A text that can stand after a bullet marker: not empty, on one line, no
    white space at its end. *)
Definition bulletText (c : string) : Prop :=
  regexp.noLF c = true /\ strings.TrimRightSpace c = c /\ c <> EmptyString.

(** What [parseChanges] takes from one line. *)
Definition dashBullet (line : string) : list string :=
  let trimmed := strings.TrimSpace line in
  if strings.HasPrefix trimmed "- " then [strings.TrimPrefix trimmed "- "] else [].

(** A section whose name is on one line and whose changes can stand after a
    bullet marker. *)
Definition printable (s : Section) : Prop :=
  regexp.noLF (Name s) = true /\ Forall bulletText (Changes s).

(** A text the release-body parser reads back as the text of a header: not
    empty, on one line, no white space at either end, and not the wrapper. *)
Definition headingText (n : string) : Prop :=
  regexp.noLF n = true /\ strings.TrimSpace n = n /\ n <> EmptyString
  /\ n <> "What's Changed".

(** A text the release-body parser keeps as a change when it stands after a
    ["- "] marker: a bullet text that starts neither with ['@'] nor with a
    second marker ["* "]. *)
Definition keptText (c : string) : Prop :=
  bulletText c
  /\ strings.HasPrefix c "@" = false /\ strings.HasPrefix c "* " = false.

(** A section as the release-body parser returns them: a name it reads back,
    changes it keeps, at least one of them. *)
Definition readable (s : Section) : Prop :=
  headingText (Name s) /\ Forall keptText (Changes s) /\ Changes s <> [].

(** The state of the scan before the first section and the first change. *)
Definition untouched (st : scan) : Prop :=
  sections st = [] /\ ungroupedChanges st = []
  /\ forall cs, currentSection st = Some cs -> Changes cs = [].


(** A display name that starts with an ASCII character other than white
    space, ['#'], ['-'] and ['*'], as the names of the five sources do. *)
Definition plainStart (displayName : string) : Prop :=
  match displayName with
  | String a _ =>
      byte a < 128 /\ strings.asciiSpace a = false
      /\ byte a <> 35 /\ byte a <> 45 /\ byte a <> 42
  | EmptyString => False
  end.

(** A text the release-body parser keeps as a change when it stands after a
    ["* "] marker. *)
Definition starText (c : string) : Prop :=
  bulletText c /\ strings.HasPrefix c "@" = false.

(** No argument is [-version] or [--version]. *)
Definition versionFree (args : list string) : Prop :=
  ~ In "-version" args /\ ~ In "--version" args.

(** [fl] with [value] as target version. *)
Definition withTarget (fl : Flags) (value : string) : Flags :=
  {| jsonOutput := jsonOutput fl; mdOutput := mdOutput fl;
     listVersions := listVersions fl; targetVersion := value |}.

(** The variables of the loop in [st], with [secs] in front of the closed
    sections and [ung] as the ungrouped changes. *)
Definition behind (secs : list Section) (ung : list string) (st : scan) : scan :=
  {| sections := secs ++ sections st;
     ungroupedChanges := ung;
     currentSection := currentSection st |}.

(** A day of the calendar in the years 0 to 9999. *)
Definition calendarDay (y m d : Z) : Prop :=
  (0 <= y <= 9999)%Z /\ (1 <= m <= 12)%Z /\ (1 <= d <= time.daysIn m y)%Z.

(** The text [yyyy-mm-dd] of a day: the year on four digits, the month and
    the day on two. *)
Definition dateText (y m d : Z) : string :=
  timefmt.Format_DateOnly (time.Date y m d 0 0 0 0 0).

(** * Properties *)

(** ** Strings *)

Lemma prefix_cons (c d : ascii) (p s : string) :
  String.prefix (String c p) (String d s)
  = if ascii_dec c d then String.prefix p s else false.
Proof. reflexivity. Qed.

Lemma prefix_nil (s : string) : String.prefix EmptyString s = true.
Proof. now destruct s. Qed.

Lemma prefix_app (p r : string) : String.prefix p (p ++ r)%string = true.
Proof.
  induction p as [|c p IH].
  - apply prefix_nil.
  - change (String.prefix (String c p) (String c (p ++ r)) = true).
    rewrite prefix_cons. destruct (ascii_dec c c) as [_|ne]; [exact IH | contradiction].
Qed.

Lemma drop_app (p r : string) : drop (String.length p) (p ++ r)%string = r.
Proof. induction p as [|c p IH]; simpl; [now destruct r | exact IH]. Qed.

Lemma prefix_split (p s : string) :
  String.prefix p s = true -> s = (p ++ drop (String.length p) s)%string.
Proof.
  revert s; induction p as [|c p IH]; intros s H.
  - now destruct s.
  - destruct s as [|d s]; [discriminate|]. rewrite prefix_cons in H.
    destruct (ascii_dec c d) as [->|_]; [|discriminate].
    simpl. f_equal. now apply IH.
Qed.

Lemma HasPrefix_app (p r : string) : strings.HasPrefix (p ++ r)%string p = true.
Proof. apply prefix_app. Qed.

Lemma TrimPrefix_app (p r : string) : strings.TrimPrefix (p ++ r)%string p = r.
Proof. unfold strings.TrimPrefix. rewrite HasPrefix_app. apply drop_app. Qed.

Lemma TrimPrefix_other (s p : string) :
  strings.HasPrefix s p = false -> strings.TrimPrefix s p = s.
Proof. unfold strings.TrimPrefix. now intros ->. Qed.

Lemma HasPrefix_trans (s p q : string) :
  strings.HasPrefix s (p ++ q)%string = true ->
  strings.HasPrefix s p = true
  /\ strings.HasPrefix (drop (String.length p) s) q = true.
Proof.
  unfold strings.HasPrefix.
  revert s; induction p as [|c p IH]; intros s H.
  - split; [apply prefix_nil|]. simpl in *. now destruct s.
  - destruct s as [|d s]; [discriminate|].
    change (String.prefix (String c (p ++ q)) (String d s) = true) in H.
    rewrite prefix_cons in *.
    destruct (ascii_dec c d) as [->|_]; [|discriminate].
    exact (IH s H).
Qed.

Lemma HasPrefix_app_inv (s p q : string) :
  strings.HasPrefix s p = true ->
  strings.HasPrefix (drop (String.length p) s) q = true ->
  strings.HasPrefix s (p ++ q)%string = true.
Proof.
  unfold strings.HasPrefix.
  revert s; induction p as [|c p IH]; intros s H1 H2.
  - simpl in *. now destruct s.
  - destruct s as [|d s]; [discriminate|].
    change (String.prefix (String c (p ++ q)) (String d s) = true).
    rewrite prefix_cons in *.
    destruct (ascii_dec c d) as [->|_]; [|discriminate]. now apply IH.
Qed.

Lemma drop_drop (n m : nat) (s : string) : drop n (drop m s) = drop (m + n) s.
Proof.
  revert s; induction m as [|m IH]; intros s; simpl; [reflexivity|].
  destruct s as [|c s]; [now destruct n | apply IH].
Qed.

(** ** The version of a release  (claim C2) *)

(** What [ver] computes, by cases on the tag: the two [TrimPrefix] calls are
    chained, the second working on the result of the first. *)
Lemma ver_cases (tagName : string) :
  ver tagName =
    if strings.HasPrefix tagName "vrust-v" then drop 7 tagName
    else if strings.HasPrefix tagName "v" then drop 1 tagName
    else if strings.HasPrefix tagName "rust-v" then drop 6 tagName
    else tagName.
Proof.
  unfold ver.
  destruct (strings.HasPrefix tagName "vrust-v") eqn:Hvr.
  - destruct (HasPrefix_trans tagName "v" "rust-v" Hvr) as [Hv Hr].
    unfold strings.TrimPrefix. rewrite Hv, Hr. apply drop_drop.
  - destruct (strings.HasPrefix tagName "v") eqn:Hv.
    + assert (Hr : strings.HasPrefix (strings.TrimPrefix tagName "v") "rust-v" = false).
      { destruct (strings.HasPrefix (strings.TrimPrefix tagName "v") "rust-v") eqn:E;
          [|reflexivity].
        unfold strings.TrimPrefix in E. rewrite Hv in E.
        pose proof (HasPrefix_app_inv tagName "v" "rust-v" Hv E) as F.
        simpl in F. congruence. }
      rewrite (TrimPrefix_other _ _ Hr). unfold strings.TrimPrefix. now rewrite Hv.
    + rewrite (TrimPrefix_other _ _ Hv). unfold strings.TrimPrefix.
      now destruct (strings.HasPrefix tagName "rust-v").
Qed.

(** C2, as the code has it: the bare [v] prefix is tried first and the
    [rust-v] prefix is then tried on the result (the two calls are chained).
    A tag that starts with neither is returned unchanged; a tag that starts
    with exactly one of them (and not with [vrust-v]) loses that prefix and
    nothing else; a tag [vrust-v...] loses both. *)
Theorem ver_strips_prefixes :
  (forall rest, ver ("v" ++ "rust-v" ++ rest)%string = rest)
  /\ (forall rest, strings.HasPrefix rest "rust-v" = false ->
        ver ("v" ++ rest)%string = rest)
  /\ (forall rest, ver ("rust-v" ++ rest)%string = rest)
  /\ (forall tagName,
        strings.HasPrefix tagName "v" = false ->
        strings.HasPrefix tagName "rust-v" = false ->
        ver tagName = tagName).
Proof.
  repeat split.
  - intros rest. unfold ver.
    rewrite (TrimPrefix_app "v"). apply (TrimPrefix_app "rust-v").
  - intros rest H. unfold ver. rewrite (TrimPrefix_app "v").
    now apply TrimPrefix_other.
  - intros rest. unfold ver.
    rewrite (TrimPrefix_other _ "v") by reflexivity. apply (TrimPrefix_app "rust-v").
  - intros tagName Hv Hr. unfold ver.
    rewrite (TrimPrefix_other _ _ Hv). now apply TrimPrefix_other.
Qed.

(** The theorem at the tags of the specification's examples and at a tag
    that starts with both prefixes. *)
Lemma ver_strips_prefixes_witness :
  ver "vrust-v1.0" = "1.0" /\ ver "v1.2.3" = "1.2.3"
  /\ ver "rust-v0.9.0" = "0.9.0" /\ ver "2.0.0" = "2.0.0".
Proof.
  destruct ver_strips_prefixes as (H1 & H2 & H3 & H4).
  split; [exact (H1 "1.0")|].
  split; [exact (H2 "1.2.3" eq_refl)|].
  split; [exact (H3 "0.9.0")|].
  exact (H4 "2.0.0" eq_refl eq_refl).
Defined.

(** C2 as stated fails: on a tag that starts with ['v'] followed by
    ['rust-v'] both prefixes are removed, not only the leading ['v']. *)
Lemma ver_removes_both_prefixes :
  ver "vrust-v1.0" = "1.0" /\ ver "vrust-v1.0" <> "rust-v1.0".
Proof. split; [reflexivity | discriminate]. Qed.

(** ** Loops *)

Lemma forRange_app {A S : Type} (body : S -> A -> option S) (xs ys : list A) (st : S) :
  forRange body (xs ++ ys) st = (st' <- forRange body xs st ;; forRange body ys st').
Proof.
  revert st; induction xs as [|x xs IH]; intros st; simpl; [reflexivity|].
  destruct (body st x); simpl; [apply IH | reflexivity].
Qed.

(** A property kept by every turn of a loop holds when the loop ends. *)
Lemma forRange_invariant {A S : Type} (body : S -> A -> option S) (P : S -> Prop) :
  (forall st x st', P st -> body st x = Some st' -> P st') ->
  forall xs st st', P st -> forRange body xs st = Some st' -> P st'.
Proof.
  intros Hstep xs; induction xs as [|x xs IH]; intros st st' HP H; simpl in H.
  - now inversion H; subst.
  - destruct (body st x) as [st1|] eqn:E; simpl in H; [|discriminate].
    eapply IH; [eapply Hstep; eassumption | exact H].
Qed.

(** A loop whose body never panics never panics. *)
Lemma forRange_total {A S : Type} (body : S -> A -> option S) :
  (forall st x, exists st', body st x = Some st') ->
  forall xs st, exists st', forRange body xs st = Some st'.
Proof.
  intros Hbody xs; induction xs as [|x xs IH]; intros st; simpl.
  - now exists st.
  - destruct (Hbody st x) as [st1 ->]. simpl. apply IH.
Qed.

(** ** The header pattern of the release body *)

Lemma headerRegex_shape (s : string) (m : list string) :
  regexp.headerRegex_FindStringSubmatch s = Some m -> exists g, m = [s; g].
Proof.
  unfold regexp.headerRegex_FindStringSubmatch.
  destruct (regexp.hashesThenRest s _) as [g|]; intros H; inversion H.
  now exists g.
Qed.

(** A text that does not start with ['#'] is not a header. *)
Lemma headerRegex_no_hash (s : string) :
  regexp.run regexp.isHash s = 0 -> regexp.headerRegex_FindStringSubmatch s = None.
Proof. unfold regexp.headerRegex_FindStringSubmatch. now intros ->. Qed.

Lemma headerNameOf_Some (line name : string) :
  headerNameOf line = Some name ->
  exists g, regexp.headerRegex_FindStringSubmatch (strings.TrimSpace line)
            = Some [strings.TrimSpace line; g]
            /\ name = strings.TrimSpace g.
Proof.
  unfold headerNameOf.
  destruct (regexp.headerRegex_FindStringSubmatch _) as [m|] eqn:E; [|discriminate].
  destruct (headerRegex_shape _ _ E) as [g ->]. simpl. intros H; inversion H.
  now exists g.
Qed.

Lemma headerNameOf_None (line : string) :
  headerNameOf line = None ->
  regexp.headerRegex_FindStringSubmatch (strings.TrimSpace line) = None.
Proof.
  unfold headerNameOf.
  destruct (regexp.headerRegex_FindStringSubmatch _) as [m|] eqn:E; [|reflexivity].
  destruct (headerRegex_shape _ _ E) as [g ->]. discriminate.
Qed.

(** ** One line of the release body *)

(** What [scanLine] does on a header line. *)
Lemma scanLine_header (st : scan) (line name : string) :
  headerNameOf line = Some name ->
  scanLine st line =
    if String.eqb name "What's Changed" then Some st
    else Some {| sections := flush (sections st) (currentSection st);
                 ungroupedChanges := ungroupedChanges st;
                 currentSection := Some {| Name := name; Changes := [] |} |}.
Proof.
  intros H. destruct (headerNameOf_Some _ _ H) as (g & E & ->).
  unfold scanLine. now rewrite E.
Qed.

(** What [scanLine] does on any other line. *)
Lemma scanLine_other (st : scan) (line : string) :
  headerNameOf line = None ->
  scanLine st line =
    let trimmed := strings.TrimSpace line in
    if strings.HasPrefix trimmed "- " || strings.HasPrefix trimmed "* "
    then Some (keepChange st (strings.TrimPrefix (strings.TrimPrefix trimmed "- ") "* "))
    else Some st.
Proof.
  intros H. unfold scanLine. now rewrite (headerNameOf_None _ H).
Qed.

(** A line whose trimmed text starts with a bullet marker is not a header
    line. *)
Lemma bullet_not_header (line marker rest : string) :
  strings.TrimSpace line = (marker ++ rest)%string ->
  marker = "- " \/ marker = "* " ->
  headerNameOf line = None.
Proof.
  intros E M. unfold headerNameOf. rewrite headerRegex_no_hash; [reflexivity|].
  rewrite E. now destruct M as [-> | ->].
Qed.

Lemma scanLine_total (st : scan) (line : string) : exists st', scanLine st line = Some st'.
Proof.
  destruct (headerNameOf line) as [name|] eqn:E.
  - rewrite (scanLine_header _ _ _ E). destruct (String.eqb _ _); eauto.
  - rewrite (scanLine_other _ _ E). cbv zeta. destruct (_ || _); eauto.
Qed.

(** The three things a line can do to the variables of the loop: nothing,
    open a section (after flushing the open one), or record a change that is
    not empty and does not start with ['@']. *)
Lemma scanLine_cases (st st' : scan) (line : string) :
  scanLine st line = Some st' ->
  st' = st
  \/ (exists name, name <> "What's Changed"
        /\ st' = {| sections := flush (sections st) (currentSection st);
                    ungroupedChanges := ungroupedChanges st;
                    currentSection := Some {| Name := name; Changes := [] |} |})
  \/ (exists change, change <> "" /\ strings.HasPrefix change "@" = false
        /\ st' = appendChange st change).
Proof.
  destruct (headerNameOf line) as [name|] eqn:E.
  - rewrite (scanLine_header _ _ _ E).
    destruct (String.eqb name "What's Changed") eqn:W; intros H; inversion H.
    + now left.
    + right; left. exists name. split; [|reflexivity].
      now apply String.eqb_neq.
  - rewrite (scanLine_other _ _ E). cbv zeta.
    destruct (_ || _); intros H; inversion H; [|now left].
    unfold keepChange.
    set (change := strings.TrimPrefix _ "* ").
    destruct (String.eqb change "") eqn:N; simpl; [now left|].
    destruct (strings.HasPrefix change "@") eqn:M; simpl; [now left|].
    right; right. exists change. repeat split; trivial.
    now apply String.eqb_neq.
Qed.

Lemma flush_cases (secs : list Section) (cur : option Section) :
  flush secs cur =
    match cur with
    | Some cs => match Changes cs with
                 | [] => secs
                 | _ :: _ => secs ++ [cs]
                 end
    | None => secs
    end.
Proof. destruct cur as [cs|]; [|reflexivity]. simpl. now destruct (Changes cs). Qed.

Lemma Forall_flush (P : Section -> Prop) (secs : list Section) (cur : option Section) :
  Forall P secs ->
  (forall cs, cur = Some cs -> Changes cs <> [] -> P cs) ->
  Forall P (flush secs cur).
Proof.
  intros Hs Hc. rewrite flush_cases.
  destruct cur as [cs|]; [|exact Hs].
  destruct (Changes cs) eqn:E; [exact Hs|].
  apply Forall_app; split; [exact Hs|].
  constructor; [|constructor]. apply Hc; [reflexivity | now rewrite E].
Qed.

(** ** Invariants of the scan *)

Lemma scanLine_keeps_noMention (st st' : scan) (line : string) :
  scan_all (fun s => Forall noMention (Changes s)) st
  /\ Forall noMention (ungroupedChanges st) ->
  scanLine st line = Some st' ->
  scan_all (fun s => Forall noMention (Changes s)) st'
  /\ Forall noMention (ungroupedChanges st').
Proof.
  intros [[Hs Hc] Hu] H.
  destruct (scanLine_cases _ _ _ H) as [-> | [(name & _ & ->) | (c & _ & Hm & ->)]].
  - now repeat split.
  - repeat split; simpl; trivial.
    + apply Forall_flush; [exact Hs | intros cs E _; now apply Hc].
    + intros cs E; inversion E; subst. constructor.
  - unfold appendChange. destruct (currentSection st) as [cs|] eqn:E; simpl.
    + repeat split; simpl; trivial.
      intros cs' E'; inversion E'; subst; simpl.
      apply Forall_app; split; [exact (Hc _ eq_refl) | now repeat constructor].
    + repeat split; simpl; trivial; try discriminate.
      apply Forall_app; split; [exact Hu | now repeat constructor].
Qed.

Lemma scanLine_keeps_named (st st' : scan) (line : string) :
  scan_all named st -> scanLine st line = Some st' -> scan_all named st'.
Proof.
  intros [Hs Hc] H.
  destruct (scanLine_cases _ _ _ H) as [-> | [(name & Hn & ->) | (c & _ & _ & ->)]].
  - now split.
  - split; simpl.
    + apply Forall_flush; [exact Hs | intros cs E _; now apply Hc].
    + intros cs E; inversion E; subst. exact Hn.
  - unfold appendChange. destruct (currentSection st) as [cs|] eqn:E; split; simpl; trivial.
    intros cs' E'; inversion E'; subst. exact (Hc cs eq_refl).
Qed.

Lemma scanLine_keeps_populated (st st' : scan) (line : string) :
  Forall populated (sections st) -> scanLine st line = Some st' ->
  Forall populated (sections st').
Proof.
  intros Hs H.
  destruct (scanLine_cases _ _ _ H) as [-> | [(name & _ & ->) | (c & _ & _ & ->)]].
  - exact Hs.
  - simpl. apply Forall_flush; [exact Hs | now intros cs _ Hne].
  - unfold appendChange. now destruct (currentSection st).
Qed.

(** The result of [parseReleaseBody], from the state in which the loop ends. *)
Lemma parseReleaseBody_Some (body : string) (secs : list Section) (ung : list string) :
  parseReleaseBody body = Some (secs, ung) ->
  exists st, forRange scanLine (strings.Split body LF) scan0 = Some st
             /\ secs = flush (sections st) (currentSection st)
             /\ ung = ungroupedChanges st.
Proof.
  unfold parseReleaseBody.
  destruct (forRange scanLine _ scan0) as [st|]; simpl; intros H; inversion H.
  now exists st.
Qed.

Lemma parseReleaseBody_total (body : string) :
  exists secs ung, parseReleaseBody body = Some (secs, ung).
Proof.
  unfold parseReleaseBody.
  destruct (forRange_total scanLine scanLine_total (strings.Split body LF) scan0) as [st ->].
  simpl. eauto.
Qed.

(** ** Lines *)

Lemma Split_nonempty (s : string) (sep : ascii) : strings.Split s sep <> [].
Proof.
  destruct s as [|c s]; simpl; [discriminate|].
  destruct (Ascii.eqb c sep); [discriminate|].
  destruct (strings.Split s sep); discriminate.
Qed.

(** The lines of two texts joined by a separator are the lines of the first
    followed by the lines of the second. *)
Lemma Split_join (a b : string) (sep : ascii) :
  strings.Split (a ++ String sep b)%string sep
  = strings.Split a sep ++ strings.Split b sep.
Proof.
  induction a as [|c a IH]; simpl.
  - now rewrite Ascii.eqb_refl.
  - destruct (Ascii.eqb c sep); [now rewrite IH|].
    rewrite IH. pose proof (Split_nonempty a sep) as NE.
    now destruct (strings.Split a sep).
Qed.

Lemma Split_line (line : string) :
  regexp.noLF line = true -> strings.Split line LF = [line].
Proof.
  induction line as [|c line IH]; simpl; [reflexivity|].
  destruct (Ascii.eqb c LF); simpl; [discriminate|].
  intros H. now rewrite (IH H).
Qed.

(** ** The hierarchical parser: attribution mentions  (claim C1) *)

(** C1, as the code has it: in everything the hierarchical release-body
    parser returns, and so in every entry [fetchGitHubReleases] builds from
    it, no change string begins with ['@'], neither an ungrouped one nor one
    of a section: such bullets are discarded while the body is scanned.  (The
    flat parsers keep them.) *)
Theorem hierarchical_changes_never_start_with_at :
  (forall body secs ung,
      parseReleaseBody body = Some (secs, ung) ->
      Forall noMention ung
      /\ Forall (fun s => Forall noMention (Changes s)) secs)
  /\ (forall Parse_RFC3339 releases entries,
        fetchGitHubReleases Parse_RFC3339 releases = Some entries ->
        Forall (fun e => Forall noMention (EntryChanges e)
                         /\ Forall (fun s => Forall noMention (Changes s)) (Sections e))
               entries).
Proof.
  assert (Hbody : forall body secs ung,
             parseReleaseBody body = Some (secs, ung) ->
             Forall noMention ung
             /\ Forall (fun s => Forall noMention (Changes s)) secs).
  { intros body secs ung H.
    destruct (parseReleaseBody_Some _ _ _ H) as (st & Hst & -> & ->).
    assert (I : scan_all (fun s => Forall noMention (Changes s)) st
                /\ Forall noMention (ungroupedChanges st)).
    { refine (forRange_invariant scanLine
                (fun st => scan_all (fun s => Forall noMention (Changes s)) st
                           /\ Forall noMention (ungroupedChanges st))
                _ _ scan0 st _ Hst).
      - intros s x s' Hs Hx. exact (scanLine_keeps_noMention s s' x Hs Hx).
      - repeat split; simpl; [constructor | discriminate | constructor]. }
    destruct I as [[Hs Hc] Hu]. split; [exact Hu|].
    apply Forall_flush; [exact Hs | intros cs E _; now apply Hc]. }
  split; [exact Hbody|].
  intros P releases entries H.
  refine (forRange_invariant (releaseEntry P)
            (Forall (fun e => Forall noMention (EntryChanges e)
                              /\ Forall (fun s => Forall noMention (Changes s))
                                        (Sections e)))
            _ releases [] entries _ H);
    [|constructor].
  intros es rel es' Hes Hrel. unfold releaseEntry in Hrel.
  destruct (parseReleaseBody (Body rel)) as [[secs ung]|] eqn:E; simpl in Hrel;
    [|discriminate].
  inversion Hrel; subst. apply Forall_app; split; [exact Hes|].
  constructor; [|constructor]. simpl. exact (Hbody _ _ _ E).
Qed.

Lemma hierarchical_changes_never_start_with_at_witness :
  parseReleaseBody
    ("- a" +\n+ "- @alice made their first contribution" +\n+ "## Fixes"
     +\n+ "* @bob fixed it" +\n+ "* b")
  = Some ([ {| Name := "Fixes"; Changes := ["b"] |} ], ["a"])
  /\ Forall noMention ["a"]
  /\ Forall (fun s => Forall noMention (Changes s))
            [ {| Name := "Fixes"; Changes := ["b"] |} ].
Proof.
  split; [reflexivity|].
  exact (proj1 hierarchical_changes_never_start_with_at
           ("- a" +\n+ "- @alice made their first contribution" +\n+ "## Fixes"
            +\n+ "* @bob fixed it" +\n+ "* b")
           [ {| Name := "Fixes"; Changes := ["b"] |} ] ["a"] eq_refl).
Defined.

(** C1 as stated fails for both variants of the flat parser: a bullet whose
    content begins with ['@'] is kept in the entry's changes. *)
Lemma flat_parsers_keep_mentions :
  fetchClaudeChangelog ("## 1.0.0" +\n+ "- @alice made a change")
  = Some [ {| Version := "1.0.0"; ReleasedAt := time.zero; Source := "";
              Sections := []; EntryChanges := ["@alice made a change"] |} ]
  /\ fetchCopilotChangelog ("## 1.5.0 - 2025-03-10" +\n+ "- @alice made a change")
     = Some [ {| Version := "1.5.0"; ReleasedAt := time.Date 2025 3 10 0 0 0 0 0;
                 Source := ""; Sections := [];
                 EntryChanges := ["@alice made a change"] |} ]
  /\ ~ noMention "@alice made a change".
Proof. split; [reflexivity|]. split; [reflexivity|]. discriminate. Qed.

(** ** The hierarchical parser: bullets  (claim C3) *)

(** C3, as the code has it: on a line that after trimming starts with ["- "]
    or ["* "] the change is the trimmed line with a leading ["- "] removed
    and then a leading ["* "] removed from what is left.  It is the text after
    the one marker when the line starts with ["* "], and when it starts with
    ["- "] and the text after it does not itself start with ["* "]; on a line
    ["- * rest"] it is [rest].  The change is then kept or discarded by
    [keepChange]. *)
Theorem bullet_content :
  forall st line rest,
    (strings.TrimSpace line = ("* " ++ rest)%string ->
     scanLine st line = Some (keepChange st rest))
    /\ (strings.TrimSpace line = ("- " ++ rest)%string ->
        strings.HasPrefix rest "* " = false ->
        scanLine st line = Some (keepChange st rest))
    /\ (strings.TrimSpace line = ("- " ++ "* " ++ rest)%string ->
        scanLine st line = Some (keepChange st rest)).
Proof.
  intros st line rest. repeat split.
  - intros E. rewrite (scanLine_other _ _ (bullet_not_header _ "* " _ E (or_intror eq_refl))).
    cbv zeta. rewrite E. rewrite (HasPrefix_app "* "), orb_true_r.
    rewrite (TrimPrefix_other _ "- ") by reflexivity.
    now rewrite (TrimPrefix_app "* ").
  - intros E N. rewrite (scanLine_other _ _ (bullet_not_header _ "- " _ E (or_introl eq_refl))).
    cbv zeta. rewrite E. rewrite (HasPrefix_app "- "), orb_true_l.
    rewrite (TrimPrefix_app "- "). now rewrite (TrimPrefix_other _ _ N).
  - intros E. rewrite (scanLine_other _ _ (bullet_not_header _ "- " _ E (or_introl eq_refl))).
    cbv zeta. rewrite E. rewrite (HasPrefix_app "- "), orb_true_l.
    rewrite (TrimPrefix_app "- "). now rewrite (TrimPrefix_app "* ").
Qed.

Lemma bullet_content_witness :
  scanLine scan0 "  * foo" = Some (keepChange scan0 "foo")
  /\ scanLine scan0 "- *foo* bar " = Some (keepChange scan0 "*foo* bar")
  /\ scanLine scan0 "- * foo" = Some (keepChange scan0 "foo").
Proof.
  split; [exact (proj1 (bullet_content scan0 "  * foo" "foo") eq_refl)|].
  split; [exact (proj1 (proj2 (bullet_content scan0 "- *foo* bar " "*foo* bar"))
                   eq_refl eq_refl)|].
  exact (proj2 (proj2 (bullet_content scan0 "- * foo" "foo")) eq_refl).
Defined.

(** C3 as stated fails: on the bullet line ["- * foo"] the change is ["foo"],
    both markers removed, not ["* foo"]. *)
Lemma bullet_loses_second_marker :
  strings.TrimSpace "- * foo" = ("- " ++ "* foo")%string
  /\ parseReleaseBody "- * foo" = Some ([], ["foo"])
  /\ parseReleaseBody "- * foo" <> Some ([], ["* foo"]).
Proof. split; [reflexivity|]. split; [reflexivity | discriminate]. Qed.

(** ** The hierarchical parser: empty sections  (claim C5) *)

Lemma scanLine_prose (st : scan) (line : string) :
  prose line -> scanLine st line = Some st.
Proof.
  intros (H & D & S). rewrite (scanLine_other _ _ H). cbv zeta. now rewrite D, S.
Qed.

Lemma forRange_prose (st : scan) (lines : list string) :
  Forall prose lines -> forRange scanLine lines st = Some st.
Proof.
  induction 1 as [|line lines P _ IH]; [reflexivity|].
  cbn [forRange]. now rewrite (scanLine_prose _ _ P).
Qed.

(** C5: no section of the result is empty.  On a header line (other than the
    wrapper) the open section joins [sections] only if it has a change, and
    the header opens a new, empty section; so a header followed by another
    with no bullet between them leaves nothing behind: the scan goes on as if
    the first had not been there.  At the end of the input the open section
    is flushed under the same condition. *)
Theorem empty_sections_are_dropped :
  (forall body secs ung,
      parseReleaseBody body = Some (secs, ung) -> Forall populated secs)
  /\ (forall st line name,
        headerNameOf line = Some name -> name <> "What's Changed" ->
        scanLine st line
        = Some {| sections := match currentSection st with
                              | Some cs => match Changes cs with
                                           | [] => sections st
                                           | _ :: _ => sections st ++ [cs]
                                           end
                              | None => sections st
                              end;
                  ungroupedChanges := ungroupedChanges st;
                  currentSection := Some {| Name := name; Changes := [] |} |})
  /\ (forall st line1 between line2 name1 name2,
        headerNameOf line1 = Some name1 -> name1 <> "What's Changed" ->
        Forall prose between ->
        headerNameOf line2 = Some name2 -> name2 <> "What's Changed" ->
        forRange scanLine (line1 :: between ++ [line2]) st = scanLine st line2)
  /\ (forall body st,
        forRange scanLine (strings.Split body LF) scan0 = Some st ->
        parseReleaseBody body
        = Some (match currentSection st with
                | Some cs => match Changes cs with
                             | [] => sections st
                             | _ :: _ => sections st ++ [cs]
                             end
                | None => sections st
                end, ungroupedChanges st)).
Proof.
  assert (Hheader : forall st line name,
             headerNameOf line = Some name -> name <> "What's Changed" ->
             scanLine st line
             = Some {| sections := flush (sections st) (currentSection st);
                       ungroupedChanges := ungroupedChanges st;
                       currentSection := Some {| Name := name; Changes := [] |} |}).
  { intros st line name H N. rewrite (scanLine_header _ _ _ H).
    apply String.eqb_neq in N. now rewrite N. }
  repeat split.
  - intros body secs ung H.
    destruct (parseReleaseBody_Some _ _ _ H) as (st & Hst & -> & _).
    apply Forall_flush; [|now intros cs _ Hne].
    refine (forRange_invariant scanLine (fun st => Forall populated (sections st))
              (fun s x s' => scanLine_keeps_populated s s' x) _ scan0 st _ Hst).
    constructor.
  - intros st line name H N. rewrite (Hheader _ _ _ H N). now rewrite flush_cases.
  - intros st line1 between line2 name1 name2 H1 N1 B H2 N2.
    cbn [forRange]. rewrite (Hheader st _ _ H1 N1). cbn [bind].
    rewrite forRange_app, (forRange_prose _ _ B). cbn [forRange bind].
    now rewrite !(Hheader _ _ _ H2 N2).
  - intros body st H. unfold parseReleaseBody. rewrite H. simpl.
    now rewrite flush_cases.
Qed.

Lemma empty_sections_are_dropped_witness :
  parseReleaseBody ("## Empty" +\n+ "### Fixes" +\n+ "- a" +\n+ "# Last")
  = Some ([ {| Name := "Fixes"; Changes := ["a"] |} ], [])
  /\ Forall populated [ {| Name := "Fixes"; Changes := ["a"] |} ]
  /\ forRange scanLine (["## Empty"] ++ ["no bullet here"; ""] ++ ["### Fixes"]) scan0
     = scanLine scan0 "### Fixes".
Proof.
  split; [reflexivity|]. split.
  - exact (proj1 empty_sections_are_dropped
             ("## Empty" +\n+ "### Fixes" +\n+ "- a" +\n+ "# Last") _ [] eq_refl).
  - refine (proj1 (proj2 (proj2 empty_sections_are_dropped))
              scan0 "## Empty" ["no bullet here"; ""] "### Fixes" "Empty" "Fixes"
              eq_refl _ _ eq_refl _); try discriminate.
    repeat constructor.
Defined.

(** ** The hierarchical parser: the wrapper header  (claim C6) *)

(** C6: a header line whose text is exactly ["What's Changed"] leaves the
    variables of the loop as they are: it opens no section and closes none.
    So the result is the one of the body without that line (first line or a
    later one), and the bullets after it go where they would have gone; and
    no section of any result has that name. *)
Theorem whats_changed_is_transparent :
  (forall st line,
      headerNameOf line = Some "What's Changed" -> scanLine st line = Some st)
  /\ (forall st before line after,
        headerNameOf line = Some "What's Changed" ->
        forRange scanLine (before ++ line :: after) st
        = forRange scanLine (before ++ after) st)
  /\ (forall line after,
        headerNameOf line = Some "What's Changed" -> regexp.noLF line = true ->
        parseReleaseBody (line +\n+ after) = parseReleaseBody after)
  /\ (forall before line after,
        headerNameOf line = Some "What's Changed" -> regexp.noLF line = true ->
        parseReleaseBody (before +\n+ line +\n+ after)
        = parseReleaseBody (before +\n+ after))
  /\ (forall body secs ung,
        parseReleaseBody body = Some (secs, ung) -> Forall named secs).
Proof.
  assert (Hline : forall st line,
             headerNameOf line = Some "What's Changed" -> scanLine st line = Some st).
  { intros st line H. now rewrite (scanLine_header _ _ _ H). }
  assert (Hlines : forall st before line after,
             headerNameOf line = Some "What's Changed" ->
             forRange scanLine (before ++ line :: after) st
             = forRange scanLine (before ++ after) st).
  { intros st before line after H. rewrite !forRange_app.
    destruct (forRange scanLine before st) as [st1|]; simpl; [|reflexivity].
    now rewrite (Hline _ _ H). }
  repeat split.
  - exact Hline.
  - exact Hlines.
  - intros line after H N. unfold parseReleaseBody, nl.
    rewrite Split_join, (Split_line _ N).
    now rewrite (Hlines scan0 [] line (strings.Split after LF) H : forRange scanLine ([line] ++ _) _ = _).
  - intros before line after H N. unfold parseReleaseBody, nl.
    rewrite !Split_join, (Split_line _ N).
    now rewrite (Hlines scan0 (strings.Split before LF) line (strings.Split after LF) H
                 : forRange scanLine (_ ++ [line] ++ _) _ = _).
  - intros body secs ung H.
    destruct (parseReleaseBody_Some _ _ _ H) as (st & Hst & -> & _).
    assert (I : scan_all named st).
    { refine (forRange_invariant scanLine (scan_all named)
                (fun s x s' => scanLine_keeps_named s s' x) _ scan0 st _ Hst).
      split; simpl; [constructor | discriminate]. }
    destruct I as [Hs Hc].
    apply Forall_flush; [exact Hs | intros cs E _; now apply Hc].
Qed.

Lemma whats_changed_is_transparent_witness :
  headerNameOf "## What's Changed  " = Some "What's Changed"
  /\ parseReleaseBody ("### Fixes" +\n+ "## What's Changed  " +\n+ "* a")
     = parseReleaseBody ("### Fixes" +\n+ "* a")
  /\ parseReleaseBody ("### Fixes" +\n+ "## What's Changed  " +\n+ "* a")
     = Some ([ {| Name := "Fixes"; Changes := ["a"] |} ], []).
Proof.
  split; [reflexivity|]. split; [|reflexivity].
  exact (proj1 (proj2 (proj2 (proj2 whats_changed_is_transparent)))
           "### Fixes" "## What's Changed  " "* a" eq_refl eq_refl).
Defined.

(** ** Loops that append *)

Lemma forRangeAppend_Some {A B : Type} (body : nat -> A -> option B) (xs : list A) :
  forall i acc res,
    forRangeAppend body i xs acc = Some res ->
    exists bs, res = acc ++ bs /\ List.length bs = List.length xs
               /\ forall k x, nth_error xs k = Some x ->
                              exists b, nth_error bs k = Some b /\ body (i + k) x = Some b.
Proof.
  induction xs as [|x xs IH]; intros i acc res H; simpl in H.
  - inversion H; subst. exists []. rewrite app_nil_r. repeat split.
    intros k y Hk. now destruct k.
  - destruct (body i x) as [b|] eqn:E; simpl in H; [|discriminate].
    destruct (IH _ _ _ H) as (bs & -> & Hlen & Hnth).
    exists (b :: bs). rewrite <- app_assoc. repeat split; simpl; [now rewrite Hlen|].
    intros [|k] y Hk; simpl in Hk.
    + inversion Hk; subst. exists b. now rewrite Nat.add_0_r.
    + destruct (Hnth k y Hk) as (b' & H1 & H2). exists b'. split; [exact H1|].
      now rewrite Nat.add_succ_r.
Qed.

Lemma forRangeAppend_total {A B : Type} (body : nat -> A -> option B) (xs : list A) :
  forall i acc,
    (forall k x, nth_error xs k = Some x -> exists b, body (i + k) x = Some b) ->
    exists res, forRangeAppend body i xs acc = Some res.
Proof.
  induction xs as [|x xs IH]; intros i acc H; simpl.
  - now exists acc.
  - destruct (H 0 x eq_refl) as [b Hb]. rewrite Nat.add_0_r in Hb. rewrite Hb. simpl.
    apply IH. intros k y Hk. rewrite Nat.add_succ_l, <- Nat.add_succ_r.
    exact (H (S k) y Hk).
Qed.

(** ** The bullets of a span *)

Lemma parseChanges_fold (lines : list string) (acc : list string) :
  fold_left
    (fun changes line =>
       let trimmed := strings.TrimSpace line in
       if strings.HasPrefix trimmed "- "
       then changes ++ [strings.TrimPrefix trimmed "- "]
       else changes)
    lines acc
  = acc ++ map (fun trimmed => strings.TrimPrefix trimmed "- ")
             (filter (fun trimmed => strings.HasPrefix trimmed "- ")
                (map strings.TrimSpace lines)).
Proof.
  revert acc; induction lines as [|line lines IH]; intros acc; simpl.
  - now rewrite app_nil_r.
  - rewrite IH. destruct (strings.HasPrefix (strings.TrimSpace line) "- "); simpl.
    + now rewrite <- app_assoc.
    + reflexivity.
Qed.

Lemma parseChanges_lines (content : string) :
  parseChanges content
  = map (fun trimmed => strings.TrimPrefix trimmed "- ")
      (filter (fun trimmed => strings.HasPrefix trimmed "- ")
         (map strings.TrimSpace (strings.Split content LF))).
Proof. unfold parseChanges. now rewrite parseChanges_fold. Qed.

Lemma parseChanges_join (a b : string) :
  parseChanges (a +\n+ b) = parseChanges a ++ parseChanges b.
Proof.
  rewrite !parseChanges_lines. unfold nl.
  now rewrite Split_join, map_app, filter_app, map_app.
Qed.

(** ** Slices *)

Lemma length_drop (n : nat) (s : string) :
  String.length (drop n s) = String.length s - n.
Proof.
  revert s; induction n as [|n IH]; intros s; simpl.
  - now rewrite Nat.sub_0_r.
  - destruct s as [|c s]; simpl; [reflexivity | apply IH].
Qed.

Lemma take_drop (n : nat) (s : string) : (take n s ++ drop n s)%string = s.
Proof.
  revert s; induction n as [|n IH]; intros s; simpl; [reflexivity|].
  destruct s as [|c s]; simpl; [reflexivity | now rewrite IH].
Qed.

Lemma take_all (n : nat) (s : string) : String.length s <= n -> take n s = s.
Proof.
  revert s; induction n as [|n IH]; intros s H.
  - destruct s; [reflexivity | simpl in H; lia].
  - destruct s as [|c s]; simpl; [reflexivity|]. simpl in H. rewrite IH; [reflexivity | lia].
Qed.

Lemma take_0 (s : string) : take 0 s = EmptyString.
Proof. reflexivity. Qed.

Lemma append_nil_r (s : string) : (s ++ "")%string = s.
Proof. induction s as [|c s IH]; simpl; [reflexivity | now rewrite IH]. Qed.

Lemma append_assoc (a b c : string) : ((a ++ b) ++ c)%string = (a ++ b ++ c)%string.
Proof. induction a as [|x a IH]; simpl; [reflexivity | now rewrite IH]. Qed.

(** A slice and the rest of the text after it. *)
Lemma substr_drop (s : string) (a b : Z) :
  (0 <= a <= b)%Z ->
  (substr s a b ++ drop (Z.to_nat b) s)%string = drop (Z.to_nat a) s.
Proof.
  intros H. unfold substr.
  replace (Z.to_nat b) with (Z.to_nat a + Z.to_nat (b - a)) by lia.
  rewrite <- drop_drop. apply take_drop.
Qed.

Lemma substr_to_end (s : string) (a : Z) :
  (0 <= a)%Z -> substr s a (len s) = drop (Z.to_nat a) s.
Proof.
  intros H. unfold substr. apply take_all. rewrite length_drop. unfold len. lia.
Qed.

Lemma substr_empty (s : string) (a : Z) : substr s a a = EmptyString.
Proof. unfold substr. now rewrite Z.sub_diag. Qed.

Lemma slice_Some (s : string) (lo hi : Z) :
  (0 <= lo <= hi)%Z -> (hi <= len s)%Z -> slice s lo hi = Some (substr s lo hi).
Proof.
  intros [H1 H2] H3. unfold slice.
  apply Z.leb_le in H1, H2, H3. now rewrite H1, H2, H3.
Qed.

Lemma index_of_nat {A : Type} (xs : list A) (i : nat) :
  index xs (Z.of_nat i) = nth_error xs i.
Proof.
  unfold index. destruct (0 <=? Z.of_nat i)%Z eqn:E.
  - now rewrite Nat2Z.id.
  - apply Z.leb_gt in E. lia.
Qed.

(** ** Well-formed matches *)

Lemma wf_matches_cons (n from : Z) (m : list Z) (rest : list (list Z)) :
  wf_matches n from (m :: rest) = true ->
  exists s e g1 g2 more,
    m = s :: e :: g1 :: g2 :: more
    /\ (from <= s <= e)%Z /\ (e <= n)%Z /\ (0 <= g1 <= g2)%Z /\ (g2 <= n)%Z
    /\ wf_matches n e rest = true.
Proof.
  simpl. destruct m as [|s [|e [|g1 [|g2 more]]]]; try discriminate.
  rewrite !andb_true_iff, !Z.leb_le. intros H.
  exists s, e, g1, g2, more. intuition.
Qed.

Lemma wf_matches_nth (n : Z) (ms : list (list Z)) :
  forall from i m,
    wf_matches n from ms = true -> nth_error ms i = Some m ->
    exists s e g1 g2 more,
      m = s :: e :: g1 :: g2 :: more
      /\ (from <= s <= e)%Z /\ (e <= n)%Z /\ (0 <= g1 <= g2)%Z /\ (g2 <= n)%Z
      /\ match nth_error ms (S i) with
         | Some next => (e <= matchStart next <= n)%Z /\ index next 0 = Some (matchStart next)
         | None => True
         end.
Proof.
  induction ms as [|m0 ms IH]; intros from i m W Hi; [now destruct i|].
  destruct (wf_matches_cons _ _ _ _ W) as (s & e & g1 & g2 & more & -> & B1 & B2 & B3 & B4 & W').
  destruct i as [|i]; simpl in Hi.
  - inversion Hi; subst. exists s, e, g1, g2, more. repeat split; try lia.
    destruct ms as [|m1 ms]; simpl; [exact I|].
    destruct (wf_matches_cons _ _ _ _ W') as (s1 & e1 & a & b & more1 & -> & C1 & C2 & _).
    unfold matchStart; simpl. repeat split; lia.
  - destruct (IH e i m W' Hi) as (s' & e' & a & b & more' & -> & C1 & C2 & C3 & C4 & Hnext).
    exists s', e', a, b, more'. repeat split; try lia. exact Hnext.
Qed.

Lemma spansOf_nth (content : string) (ms : list (list Z)) :
  forall i m,
    nth_error ms i = Some m ->
    nth_error (spansOf content ms) i
    = Some (substr content (matchEnd m)
              (match nth_error ms (S i) with
               | Some next => matchStart next
               | None => len content
               end)).
Proof.
  induction ms as [|m0 ms IH]; intros i m Hi; [now destruct i|].
  destruct i as [|i]; simpl in Hi.
  - inversion Hi; subst. simpl. now destruct ms.
  - simpl. exact (IH i m Hi).
Qed.

Lemma spansOf_length (content : string) (ms : list (list Z)) :
  List.length (spansOf content ms) = List.length ms.
Proof. induction ms as [|m ms IH]; simpl; [reflexivity | now rewrite IH]. Qed.

(** On well-formed matches [contentEnd] is the start of the next match, or
    the length of the document. *)
Lemma contentEnd_wf (content : string) (ms : list (list Z)) (i : nat) (m : list Z) :
  wf_matches (len content) 0 ms = true -> nth_error ms i = Some m ->
  contentEnd content ms i
  = Some (match nth_error ms (S i) with
          | Some next => matchStart next
          | None => len content
          end).
Proof.
  intros W Hi. unfold contentEnd.
  destruct (wf_matches_nth _ _ _ _ _ W Hi) as (s & e & g1 & g2 & more & _ & _ & _ & _ & _ & Hnext).
  destruct (nth_error ms (S i)) as [next|] eqn:E.
  - assert (L : S i < List.length ms) by (apply nth_error_Some; congruence).
    apply Nat.ltb_lt in L. rewrite L, index_of_nat, E. simpl. now destruct Hnext.
  - apply nth_error_None in E.
    assert (L : (S i <? List.length ms) = false) by (apply Nat.ltb_ge; lia).
    now rewrite L.
Qed.

(** On well-formed matches [sectionContent] is the span of the match. *)
Lemma sectionContent_wf (content : string) (ms : list (list Z)) (i : nat) (m : list Z) :
  wf_matches (len content) 0 ms = true -> nth_error ms i = Some m ->
  let stop := match nth_error ms (S i) with
              | Some next => matchStart next
              | None => len content
              end in
  sectionContent content ms i (matchEnd m) = Some (substr content (matchEnd m) stop)
  /\ slice content (matchEnd m) stop = Some (substr content (matchEnd m) stop)
  /\ (0 <= matchEnd m <= stop)%Z /\ (stop <= len content)%Z
  /\ index m 1 = Some (matchEnd m).
Proof.
  intros W Hi stop. unfold sectionContent. rewrite (contentEnd_wf _ _ _ _ W Hi).
  cbn [bind]. fold stop.
  destruct (wf_matches_nth _ _ _ _ _ W Hi)
    as (s & e & g1 & g2 & more & -> & B1 & B2 & B3 & B4 & Hnext).
  change (matchEnd (s :: e :: g1 :: g2 :: more)) with e.
  assert (B : (e <= stop <= len content)%Z).
  { unfold stop. destruct (nth_error ms (S i)); [tauto | lia]. }
  rewrite slice_Some by lia. repeat split; try lia.
Qed.

(** ** The undated flat parser: spans  (claim C4) *)

Lemma changelogEntryAt_wf (content : string) (ms : list (list Z)) (i : nat) (m : list Z) :
  wf_matches (len content) 0 ms = true -> nth_error ms i = Some m ->
  exists span,
    sectionContent content ms i (matchEnd m) = Some span
    /\ slice content (nth 2 m 0%Z) (nth 3 m 0%Z) = Some (substr content (nth 2 m 0%Z) (nth 3 m 0%Z))
    /\ changelogEntryAt content ms i m
       = Some {| Version := substr content (nth 2 m 0%Z) (nth 3 m 0%Z);
                 ReleasedAt := time.zero; Source := ""; Sections := [];
                 EntryChanges := parseChanges span |}.
Proof.
  intros W Hi.
  destruct (sectionContent_wf _ _ _ _ W Hi) as (Hsec & _ & _ & _ & Hidx).
  destruct (wf_matches_nth _ _ _ _ _ W Hi)
    as (s & e & g1 & g2 & more & E & B1 & B2 & B3 & B4 & _).
  eexists. split; [exact Hsec|].
  assert (Hver : slice content (nth 2 m 0%Z) (nth 3 m 0%Z)
                 = Some (substr content (nth 2 m 0%Z) (nth 3 m 0%Z))).
  { subst m. cbn [nth]. apply slice_Some; lia. }
  split; [exact Hver|].
  unfold changelogEntryAt. rewrite Hidx. cbn [bind].
  replace (index m 2) with (Some (nth 2 m 0%Z)) by now subst m.
  replace (index m 3) with (Some (nth 3 m 0%Z)) by now subst m.
  cbn [bind]. rewrite Hver. cbn [bind]. now rewrite Hsec.
Qed.

(** The spans and the header texts between them make up the document from
    the end of the first match on. *)
Lemma weave_spansOf (content : string) (rest : list (list Z)) :
  forall from m0,
    (0 <= from)%Z ->
    wf_matches (len content) from (m0 :: rest) = true ->
    weave (spansOf content (m0 :: rest)) (headersOf content rest)
    = drop (Z.to_nat (matchEnd m0)) content.
Proof.
  induction rest as [|m1 rest IH]; intros from m0 F W;
    destruct (wf_matches_cons _ _ _ _ W) as (s & e & g1 & g2 & more & -> & B1 & B2 & _ & _ & W').
  - cbn [spansOf headersOf map weave]. rewrite append_nil_r.
    change (matchEnd (s :: e :: g1 :: g2 :: more)) with e. apply substr_to_end. lia.
  - change (weave (spansOf content ((s :: e :: g1 :: g2 :: more) :: m1 :: rest))
                  (headersOf content (m1 :: rest)))
      with (substr content e (matchStart m1)
            ++ substr content (matchStart m1) (matchEnd m1)
            ++ weave (spansOf content (m1 :: rest)) (headersOf content rest))%string.
    change (matchEnd (s :: e :: g1 :: g2 :: more)) with e.
    rewrite (IH e m1 ltac:(lia) W').
    destruct (wf_matches_cons _ _ _ _ W') as (s1 & e1 & a & b & more1 & -> & C1 & C2 & _).
    change (matchStart (s1 :: e1 :: a :: b :: more1)) with s1.
    change (matchEnd (s1 :: e1 :: a :: b :: more1)) with e1.
    rewrite (substr_drop content s1 e1) by lia.
    apply substr_drop. lia.
Qed.

(** On well-formed matches the undated parser returns. *)
Lemma undated_parser_total (content : string) (versionRegex : regexp.Regexp) :
  wf_matches (len content) 0
    (regexp.FindAllStringSubmatchIndex versionRegex content) = true ->
  exists entries, parseMarkdownChangelog content versionRegex = Some entries.
Proof.
  intros W. unfold parseMarkdownChangelog. apply forRangeAppend_total.
  intros k m Hk. destruct (changelogEntryAt_wf _ _ _ _ W Hk) as (span & _ & _ & E).
  simpl. rewrite E. eauto.
Qed.

(** C4, as the code has it.  When the matches of the pattern are well formed
    (in document order, not overlapping, group 1 present), the parser returns
    one entry per match, in the order of the matches.  The version of the
    [i]-th entry is the text of group 1 and its changes are those of the
    [i]-th span, which runs from the end of the [i]-th match to the start of
    the next match, or to the end of the document.  An empty span gives an
    entry with no changes, which is in the result like any other.  The spans
    alone do not make up the rest of the document: woven with the texts of
    the matches that separate them they do, from the end of the first match
    to the end of the document. *)
Theorem flat_parser_spans :
  forall versionRegex content,
    let matches := regexp.FindAllStringSubmatchIndex versionRegex content in
    wf_matches (len content) 0 matches = true ->
    exists entries,
      parseMarkdownChangelog content versionRegex = Some entries
      /\ List.length entries = List.length matches
      /\ (forall i m,
            nth_error matches i = Some m ->
            let stop := match nth_error matches (S i) with
                        | Some next => matchStart next
                        | None => len content
                        end in
            exists e span,
              nth_error entries i = Some e
              /\ slice content (nth 2 m 0%Z) (nth 3 m 0%Z) = Some (Version e)
              /\ sectionContent content matches i (matchEnd m) = Some span
              /\ slice content (matchEnd m) stop = Some span
              /\ nth_error (spansOf content matches) i = Some span
              /\ EntryChanges e = parseChanges span
              /\ (matchEnd m = stop -> span = "" /\ EntryChanges e = []))
      /\ (forall m0 rest,
            matches = m0 :: rest ->
            weave (spansOf content matches) (headersOf content rest)
            = drop (Z.to_nat (matchEnd m0)) content).
Proof.
  intros versionRegex content matches W.
  destruct (undated_parser_total content versionRegex W) as [entries Hentries].
  exists entries. split; [exact Hentries|].
  unfold parseMarkdownChangelog in Hentries. fold matches in Hentries.
  destruct (forRangeAppend_Some _ _ _ _ _ Hentries) as (bs & E & Hlen & Hnth).
  simpl in E; subst bs. split; [exact Hlen|]. split.
  - intros i m Hi stop.
    destruct (Hnth i m Hi) as (e & He & Hbody). simpl in Hbody.
    destruct (changelogEntryAt_wf _ _ _ _ W Hi) as (span & Hsec & Hver & Hentry).
    rewrite Hentry in Hbody. inversion Hbody; subst e; clear Hbody.
    destruct (sectionContent_wf _ _ _ _ W Hi) as (Hsec' & Hslice & _).
    fold stop in Hsec', Hslice. rewrite Hsec in Hsec'. inversion Hsec'; subst span.
    eexists; eexists. split; [exact He|]. cbn [Version EntryChanges].
    split; [exact Hver|]. split; [exact Hsec|]. split; [exact Hslice|].
    split; [exact (spansOf_nth content matches i m Hi)|]. split; [reflexivity|].
    intros ->. now rewrite substr_empty.
  - intros m0 rest E. rewrite E in *. now apply (weave_spansOf content rest 0%Z m0).
Qed.

Lemma flat_parser_spans_witness :
  let content := "## 1.0.0" +\n+ "- a" +\n+ "## 0.9.0" +\n+ "## 0.8.0" +\n+ "- b" in
  wf_matches (len content) 0
    (regexp.FindAllStringSubmatchIndex regexp.claudeVersionRegex content) = true
  /\ exists entries,
       parseMarkdownChangelog content regexp.claudeVersionRegex = Some entries
       /\ List.length entries = 3.
Proof.
  intros content. split; [reflexivity|].
  destruct (flat_parser_spans regexp.claudeVersionRegex content eq_refl)
    as (entries & H1 & H2 & _).
  exists entries. split; [exact H1 | exact H2].
Defined.

(** C4 as stated fails: the spans put end to end are not the document after
    the first header, since the texts of the later headers lie between them. *)
Lemma spans_alone_do_not_rebuild_the_document :
  let content := "## 1.0.0" +\n+ "- a" +\n+ "## 0.9.0" +\n+ "- b" in
  let matches := regexp.FindAllStringSubmatchIndex regexp.claudeVersionRegex content in
  matches = [[0; 8; 3; 8]; [13; 21; 16; 21]]%Z
  /\ wf_matches (len content) 0 matches = true
  /\ spansOf content matches = [String LF ("- a" ++ String LF ""); String LF "- b"]%string
  /\ concat_strings (spansOf content matches) = String LF ("- a" +\n+ "" +\n+ "- b")
  /\ drop 8 content = String LF ("- a" +\n+ "## 0.9.0" +\n+ "- b")
  /\ concat_strings (spansOf content matches) <> drop 8 content.
Proof. repeat split; try reflexivity. discriminate. Qed.

(** ** The dated flat parser *)

Ltac case_matches :=
  repeat match goal with
         | |- context [match ?x with _ => _ end] => destruct x
         end.

(** Whatever [time.Parse] is given under the date-only layout, the time it
    returns is at midnight UTC. *)
Lemma Parse_DateOnly_midnight (value : string) :
  midnightUTC (fst (time.Parse_DateOnly value)).
Proof.
  unfold time.Parse_DateOnly, midnightUTC. case_matches; simpl; repeat split.
Qed.

(** With an error [time.Parse] returns the zero time. *)
Lemma Parse_DateOnly_error (value : string) (err : time.ParseError) :
  snd (time.Parse_DateOnly value) = Some err ->
  fst (time.Parse_DateOnly value) = time.zero.
Proof.
  unfold time.Parse_DateOnly. case_matches; simpl; intros H; try reflexivity; discriminate.
Qed.

Lemma submatchTexts_two_groups (content : string) (m : list Z) :
  (6 <=? List.length m) = true ->
  exists t0 ver dateStr more,
    regexp.submatchTexts content m = t0 :: ver :: dateStr :: more.
Proof.
  intros H. apply Nat.leb_le in H.
  destruct m as [|a [|b [|c [|d [|e [|f more]]]]]]; simpl in H; try lia.
  cbn [regexp.submatchTexts]. eauto.
Qed.

(** The entries of the dated parser, when it returns: one per match, with
    the text of group 1 as version and the parse of group 2 as date. *)
Lemma dated_entries (content : string) (versionRegex : regexp.Regexp)
    (entries : list ChangelogEntry) :
  parseMarkdownChangelogWithDate content versionRegex = Some entries ->
  List.length entries
  = List.length (regexp.FindAllStringSubmatchIndex versionRegex content)
  /\ forall i texts,
       nth_error (regexp.FindAllStringSubmatch versionRegex content) i = Some texts ->
       exists e ver dateStr,
         nth_error entries i = Some e
         /\ index texts 1 = Some ver /\ index texts 2 = Some dateStr
         /\ Version e = ver
         /\ ReleasedAt e = fst (time.Parse_DateOnly dateStr).
Proof.
  unfold parseMarkdownChangelogWithDate. intros H.
  destruct (forRangeAppend_Some _ _ _ _ _ H) as (bs & E & Hlen & Hnth).
  simpl in E; subst bs. split.
  - rewrite Hlen. unfold regexp.FindAllStringSubmatch. apply length_map.
  - intros i texts Hi. destruct (Hnth i texts Hi) as (e & He & Hbody).
    simpl in Hbody. unfold datedEntryAt in Hbody.
    destruct (index texts 1) as [ver|]; [|discriminate].
    destruct (index texts 2) as [dateStr|]; [|discriminate].
    cbn [bind] in Hbody.
    destruct (index _ (Z.of_nat i)) as [this|]; [|discriminate]. cbn [bind] in Hbody.
    destruct (index this 1) as [start|]; [|discriminate]. cbn [bind] in Hbody.
    destruct (sectionContent _ _ _ _) as [span|]; [|discriminate]. cbn [bind] in Hbody.
    inversion Hbody; subst e. eexists; exists ver, dateStr.
    split; [exact He|]. repeat split.
Qed.

(** On well-formed matches with two groups the dated parser returns. *)
Lemma dated_parser_total (content : string) (versionRegex : regexp.Regexp) :
  let matches := regexp.FindAllStringSubmatchIndex versionRegex content in
  wf_matches (len content) 0 matches = true ->
  two_groups matches = true ->
  exists entries, parseMarkdownChangelogWithDate content versionRegex = Some entries.
Proof.
  intros matches W G. unfold parseMarkdownChangelogWithDate.
  apply forRangeAppend_total. intros k texts Hk. simpl.
  unfold regexp.FindAllStringSubmatch in Hk. fold matches in Hk |- *.
  rewrite nth_error_map in Hk.
  destruct (nth_error matches k) as [m|] eqn:Hm; [|discriminate].
  simpl in Hk. inversion Hk; subst texts; clear Hk.
  unfold two_groups in G. rewrite forallb_forall in G.
  destruct (submatchTexts_two_groups content m (G m (nth_error_In _ _ Hm)))
    as (t0 & ver & dateStr & more & ->).
  unfold datedEntryAt.
  change (index (t0 :: ver :: dateStr :: more) 1) with (Some ver).
  change (index (t0 :: ver :: dateStr :: more) 2) with (Some dateStr).
  cbn [bind]. rewrite index_of_nat, Hm. cbn [bind].
  destruct (sectionContent_wf _ _ _ _ W Hm) as (Hsec & _ & _ & _ & Hidx).
  rewrite Hidx. cbn [bind]. fold matches. rewrite Hsec. cbn [bind]. eauto.
Qed.

(** ** The changes of the entries of the flat parsers  (claim C7) *)

(** The changes of the entries of the flat parsers, when they return: those
    of the [sectionContent] of the match. *)
Lemma undated_entries_changes (content : string) (versionRegex : regexp.Regexp)
    (entries : list ChangelogEntry) (i : nat) (e : ChangelogEntry) :
  let matches := regexp.FindAllStringSubmatchIndex versionRegex content in
  parseMarkdownChangelog content versionRegex = Some entries ->
  nth_error entries i = Some e ->
  exists m versionEnd span,
    nth_error matches i = Some m
    /\ index m 1 = Some versionEnd
    /\ sectionContent content matches i versionEnd = Some span
    /\ EntryChanges e = parseChanges span.
Proof.
  intros matches H He. unfold parseMarkdownChangelog in H. fold matches in H.
  destruct (forRangeAppend_Some _ _ _ _ _ H) as (bs & E & Hlen & Hnth).
  simpl in E; subst bs.
  destruct (nth_error matches i) as [m|] eqn:Hm.
  - destruct (Hnth i m Hm) as (e' & He' & Hbody). rewrite He in He'.
    inversion He'; subst e'. simpl in Hbody. unfold changelogEntryAt in Hbody.
    destruct (index m 1) as [versionEnd|] eqn:Hv; [|discriminate]. cbn [bind] in Hbody.
    destruct (index m 2) as [lo|]; [|discriminate]. cbn [bind] in Hbody.
    destruct (index m 3) as [hi|]; [|discriminate]. cbn [bind] in Hbody.
    destruct (slice content lo hi) as [v|]; [|discriminate]. cbn [bind] in Hbody.
    destruct (sectionContent _ _ _ _) as [span|] eqn:Hs; [|discriminate].
    cbn [bind] in Hbody. inversion Hbody; subst e.
    exists m, versionEnd, span. now repeat split.
  - apply nth_error_None in Hm.
    assert (i < List.length entries) by (apply nth_error_Some; congruence). lia.
Qed.

Lemma dated_entries_changes (content : string) (versionRegex : regexp.Regexp)
    (entries : list ChangelogEntry) (i : nat) (e : ChangelogEntry) :
  let matchIndexes := regexp.FindAllStringSubmatchIndex versionRegex content in
  parseMarkdownChangelogWithDate content versionRegex = Some entries ->
  nth_error entries i = Some e ->
  exists m versionEnd span,
    nth_error matchIndexes i = Some m
    /\ index m 1 = Some versionEnd
    /\ sectionContent content matchIndexes i versionEnd = Some span
    /\ EntryChanges e = parseChanges span.
Proof.
  intros matchIndexes H He. unfold parseMarkdownChangelogWithDate in H.
  fold matchIndexes in H.
  destruct (forRangeAppend_Some _ _ _ _ _ H) as (bs & E & Hlen & Hnth).
  simpl in E; subst bs.
  destruct (nth_error (regexp.FindAllStringSubmatch versionRegex content) i)
    as [texts|] eqn:Ht.
  - destruct (Hnth i texts Ht) as (e' & He' & Hbody). rewrite He in He'.
    inversion He'; subst e'. simpl in Hbody. unfold datedEntryAt in Hbody.
    destruct (index texts 1) as [ver'|]; [|discriminate]. cbn [bind] in Hbody.
    destruct (index texts 2) as [dateStr|]; [|discriminate]. cbn [bind] in Hbody.
    rewrite index_of_nat in Hbody.
    destruct (nth_error matchIndexes i) as [m|]; [|discriminate]. cbn [bind] in Hbody.
    destruct (index m 1) as [versionEnd|] eqn:Hv; [|discriminate]. cbn [bind] in Hbody.
    destruct (sectionContent _ _ _ _) as [span|] eqn:Hs; [|discriminate].
    cbn [bind] in Hbody. inversion Hbody; subst e.
    exists m, versionEnd, span. now repeat split.
  - apply nth_error_None in Ht.
    assert (i < List.length entries) by (apply nth_error_Some; congruence). lia.
Qed.

(** C7: the changes of an entry of either flat parser are those
    [parseChanges] finds in the span of its match, and [parseChanges] keeps,
    in the order of the document, the trimmed lines that start with ["- "],
    each without that marker, and nothing else.  A line that after trimming
    starts with ["- "] gives its remainder whatever it is, so also when it
    begins with ['@']; a line that after trimming starts with ["* "] gives
    nothing. *)
Theorem parseChanges_collects_dash_bullets :
  (forall content,
      parseChanges content
      = map (fun trimmed => strings.TrimPrefix trimmed "- ")
          (filter (fun trimmed => strings.HasPrefix trimmed "- ")
             (map strings.TrimSpace (strings.Split content LF))))
  /\ (forall before after,
        parseChanges (before +\n+ after) = parseChanges before ++ parseChanges after)
  /\ (forall line rest,
        regexp.noLF line = true ->
        strings.TrimSpace line = ("- " ++ rest)%string ->
        parseChanges line = [rest])
  /\ (forall line rest,
        regexp.noLF line = true ->
        strings.TrimSpace line = ("* " ++ rest)%string ->
        parseChanges line = [])
  /\ (forall line rest,
        regexp.noLF line = true ->
        strings.TrimSpace line = ("- " ++ "@" ++ rest)%string ->
        parseChanges line = [("@" ++ rest)%string])
  /\ (forall content versionRegex entries i e,
        let matches := regexp.FindAllStringSubmatchIndex versionRegex content in
        (parseMarkdownChangelog content versionRegex = Some entries
         \/ parseMarkdownChangelogWithDate content versionRegex = Some entries) ->
        nth_error entries i = Some e ->
        exists m versionEnd span,
          nth_error matches i = Some m
          /\ index m 1 = Some versionEnd
          /\ sectionContent content matches i versionEnd = Some span
          /\ EntryChanges e = parseChanges span).
Proof.
  assert (Hdash : forall line rest,
             regexp.noLF line = true ->
             strings.TrimSpace line = ("- " ++ rest)%string ->
             parseChanges line = [rest]).
  { intros line rest N E. rewrite parseChanges_lines, (Split_line _ N).
    cbn [map filter]. rewrite E, (HasPrefix_app "- "). cbn [map].
    now rewrite (TrimPrefix_app "- "). }
  repeat split.
  - exact parseChanges_lines.
  - exact parseChanges_join.
  - exact Hdash.
  - intros line rest N E. rewrite parseChanges_lines, (Split_line _ N).
    cbn [map filter]. now rewrite E.
  - intros line rest N E. exact (Hdash line _ N E).
  - intros content versionRegex entries i e matches [H | H] He.
    + exact (undated_entries_changes _ _ _ _ _ H He).
    + exact (dated_entries_changes _ _ _ _ _ H He).
Qed.

Lemma parseChanges_collects_dash_bullets_witness :
  parseChanges "  - fixed a bug " = ["fixed a bug"]
  /\ parseChanges "* not collected" = []
  /\ parseChanges "- @alice made a change" = ["@alice made a change"]
  /\ let content := "## 1.0.0" +\n+ "- @alice made a change" +\n+ "* b" +\n+ " - c" in
     fetchClaudeChangelog content
     = Some [ {| Version := "1.0.0"; ReleasedAt := time.zero; Source := "";
                 Sections := [];
                 EntryChanges := ["@alice made a change"; "c"] |} ]
     /\ exists m versionEnd span,
          nth_error (regexp.FindAllStringSubmatchIndex regexp.claudeVersionRegex content) 0
          = Some m
          /\ index m 1 = Some versionEnd
          /\ sectionContent content
               (regexp.FindAllStringSubmatchIndex regexp.claudeVersionRegex content)
               0 versionEnd = Some span
          /\ ["@alice made a change"; "c"] = parseChanges span.
Proof.
  destruct parseChanges_collects_dash_bullets as (_ & _ & H1 & H2 & H3 & H4).
  split; [exact (H1 "  - fixed a bug " "fixed a bug" eq_refl eq_refl)|].
  split; [exact (H2 "* not collected" "not collected" eq_refl eq_refl)|].
  split; [exact (H3 "- @alice made a change" "alice made a change" eq_refl eq_refl)|].
  intros content. split; [reflexivity|].
  exact (H4 content regexp.claudeVersionRegex _ 0 _ (or_introl eq_refl) eq_refl).
Defined.

(** ** The entries of the releases *)

Lemma fetchGitHubReleases_entries
    (Parse_RFC3339 : string -> time.Time * option time.ParseError)
    (releases : list Release) :
  forall acc,
  exists bs,
    forRange (releaseEntry Parse_RFC3339) releases acc = Some (acc ++ bs)
    /\ List.length bs = List.length releases
    /\ forall i rel,
         nth_error releases i = Some rel ->
         exists secs ung,
           parseReleaseBody (Body rel) = Some (secs, ung)
           /\ nth_error bs i
              = Some {| Version := ver (TagName rel);
                        ReleasedAt := fst (Parse_RFC3339 (PublishedAt rel));
                        Source := ""; Sections := secs; EntryChanges := ung |}.
Proof.
  induction releases as [|rel releases IH]; intros acc.
  - exists []. simpl. rewrite app_nil_r. repeat split. intros i r Hi. now destruct i.
  - simpl. unfold releaseEntry at 1.
    destruct (parseReleaseBody_total (Body rel)) as (secs & ung & E). rewrite E.
    cbn [bind].
    destruct (IH (acc ++ [ {| Version := ver (TagName rel);
                              ReleasedAt := fst (Parse_RFC3339 (PublishedAt rel));
                              Source := ""; Sections := secs; EntryChanges := ung |} ]))
      as (bs & Hrun & Hlen & Hnth).
    eexists (_ :: bs). rewrite Hrun, <- app_assoc. split; [reflexivity|].
    split; [simpl; now rewrite Hlen|].
    intros [|i] r Hi; simpl in Hi.
    + inversion Hi; subst r. exists secs, ung. now split.
    + exact (Hnth i r Hi).
Qed.

(** ** Dates that do not parse  (claim C10) *)

(** C10: a date that has the shape the pattern asks for but names no day of
    the calendar, or a [published_at] that [time.Parse] rejects, does not stop
    the parser and does not remove the entry: the error is dropped and the
    entry carries the zero time that [time.Parse] returns with it. *)
Theorem bad_dates_give_the_zero_time :
  (forall value err,
      snd (time.Parse_DateOnly value) = Some err ->
      fst (time.Parse_DateOnly value) = time.zero)
  /\ (forall versionRegex content,
        let matches := regexp.FindAllStringSubmatchIndex versionRegex content in
        wf_matches (len content) 0 matches = true ->
        two_groups matches = true ->
        exists entries,
          parseMarkdownChangelogWithDate content versionRegex = Some entries
          /\ List.length entries = List.length matches
          /\ forall i texts dateStr err,
               nth_error (regexp.FindAllStringSubmatch versionRegex content) i = Some texts ->
               index texts 2 = Some dateStr ->
               snd (time.Parse_DateOnly dateStr) = Some err ->
               exists e, nth_error entries i = Some e
                         /\ index texts 1 = Some (Version e)
                         /\ ReleasedAt e = time.zero
                         /\ time.IsZero (ReleasedAt e) = true)
  /\ (forall Parse_RFC3339 releases,
        exists entries,
          fetchGitHubReleases Parse_RFC3339 releases = Some entries
          /\ List.length entries = List.length releases
          /\ forall i rel err,
               nth_error releases i = Some rel ->
               Parse_RFC3339 (PublishedAt rel) = (time.zero, Some err) ->
               exists e, nth_error entries i = Some e
                         /\ Version e = ver (TagName rel)
                         /\ ReleasedAt e = time.zero
                         /\ time.IsZero (ReleasedAt e) = true)
  /\ fetchCopilotChangelog ("## 0.9.1 - 2025-13-40" +\n+ "- a change")
     = Some [ {| Version := "0.9.1"; ReleasedAt := time.zero; Source := "";
                 Sections := []; EntryChanges := ["a change"] |} ].
Proof.
  split; [exact Parse_DateOnly_error|]. split; [|split; [|reflexivity]].
  - intros versionRegex content matches W G.
    destruct (dated_parser_total content versionRegex W G) as [entries H].
    exists entries. split; [exact H|].
    destruct (dated_entries _ _ _ H) as [Hlen Hnth]. split; [exact Hlen|].
    intros i texts dateStr err Hi H2 Herr.
    destruct (Hnth i texts Hi) as (e & ver' & dateStr' & He & E1 & E2 & Hv & Hd).
    rewrite H2 in E2; inversion E2; subst dateStr'.
    exists e. split; [exact He|]. split; [now rewrite Hv|].
    rewrite Hd, (Parse_DateOnly_error _ _ Herr). now split.
  - intros P releases.
    destruct (fetchGitHubReleases_entries P releases []) as (bs & Hrun & Hlen & Hnth).
    exists bs. split; [exact Hrun|]. split; [exact Hlen|].
    intros i rel err Hi Herr.
    destruct (Hnth i rel Hi) as (secs & ung & _ & He).
    eexists. split; [exact He|]. cbn [Version ReleasedAt]. rewrite Herr.
    now repeat split.
Qed.

Lemma bad_dates_give_the_zero_time_witness :
  let releases := [ {| TagName := "v1.2.3"; ReleaseName := "1.2.3";
                       Body := "- a change"; PublishedAt := "2025-03-10T12:00:00Z" |};
                    {| TagName := "rust-v0.9.0"; ReleaseName := "0.9.0";
                       Body := "- another"; PublishedAt := "2025-02-30T12:00:00Z" |} ] in
  let content := "## 1.5.0 - 2025-03-10" +\n+ "- a" +\n+ "## 0.9.1 - 2025-13-40" in
  rfc3339.Parse "2025-02-30T12:00:00Z" = (time.zero, Some (time.errRange "day"))
  /\ (exists entries,
        fetchGitHubReleases rfc3339.Parse releases = Some entries
        /\ exists e, nth_error entries 1 = Some e
                     /\ Version e = "0.9.0"
                     /\ ReleasedAt e = time.zero
                     /\ time.IsZero (ReleasedAt e) = true)
  /\ nth_error (regexp.FindAllStringSubmatch regexp.copilotVersionRegex content) 1
     = Some ["## 0.9.1 - 2025-13-40"; "0.9.1"; "2025-13-40"]
  /\ time.Parse_DateOnly "2025-13-40" = (time.zero, Some (time.errRange "month"))
  /\ (exists entries,
        parseMarkdownChangelogWithDate content regexp.copilotVersionRegex = Some entries
        /\ List.length entries = 2
        /\ exists e, nth_error entries 1 = Some e
                     /\ Some "0.9.1" = Some (Version e)
                     /\ ReleasedAt e = time.zero
                     /\ time.IsZero (ReleasedAt e) = true).
Proof.
  intros releases content. split; [reflexivity|].
  destruct bad_dates_give_the_zero_time as (_ & Hdated & Hreleases & _).
  split.
  - destruct (Hreleases rfc3339.Parse releases) as (entries & Hrun & _ & Hnth).
    exists entries. split; [exact Hrun|].
    exact (Hnth 1 _ (time.errRange "day") eq_refl eq_refl).
  - split; [reflexivity|]. split; [reflexivity|].
    destruct (Hdated regexp.copilotVersionRegex content eq_refl eq_refl)
      as (entries & Hrun & Hlen & Hnth).
    exists entries. split; [exact Hrun|]. split; [exact Hlen|].
    exact (Hnth 1 _ "2025-13-40" (time.errRange "month") eq_refl eq_refl eq_refl).
Defined.

(** ** The header patterns of the flat parsers *)

Lemma run_le (cls : ascii -> bool) (s : string) : regexp.run cls s <= String.length s.
Proof.
  induction s as [|c s IH]; simpl; [lia|]. destruct (cls c); simpl; lia.
Qed.

Lemma prefix_length (p s : string) :
  String.prefix p s = true -> String.length p <= String.length s.
Proof.
  revert s; induction p as [|c p IH]; intros s H; simpl; [lia|].
  destruct s as [|d s]; [discriminate|]. rewrite prefix_cons in H.
  destruct (ascii_dec c d); [|discriminate]. simpl. apply IH in H. lia.
Qed.

Lemma advance_by (s : string) (cu : regexp.cursor) (n : nat) :
  n <= String.length (snd cu) ->
  advances s cu (fst cu + n, drop n (snd cu)).
Proof.
  unfold advances, cursor_ok. intros L H. simpl. rewrite length_drop. lia.
Qed.

Lemma lit_advances (s p : string) (cu cu' : regexp.cursor) :
  regexp.lit p cu = Some cu' -> advances s cu cu'.
Proof.
  unfold regexp.lit. destruct (String.prefix p (snd cu)) eqn:E; [|discriminate].
  intros H; inversion H. apply advance_by. now apply prefix_length.
Qed.

Lemma many1_advances (s : string) (cls : ascii -> bool) (cu cu' : regexp.cursor) :
  regexp.many1 cls cu = Some cu' -> advances s cu cu'.
Proof.
  unfold regexp.many1. destruct (_ =? 0); [discriminate|].
  intros H; inversion H. apply advance_by, run_le.
Qed.

Lemma exactly_advances (s : string) (n : nat) (cls : ascii -> bool)
    (cu cu' : regexp.cursor) :
  regexp.exactly n cls cu = Some cu' -> advances s cu cu'.
Proof.
  unfold regexp.exactly. destruct (n <=? _) eqn:E; [|discriminate].
  intros H; inversion H. apply advance_by. apply Nat.leb_le in E.
  pose proof (run_le cls (snd cu)). lia.
Qed.

Lemma spacesThenEOL_le (s : string) (k j : nat) :
  regexp.spacesThenEOL s k = Some j -> j <= k.
Proof.
  induction k as [|k IH]; cbn [regexp.spacesThenEOL].
  - destruct (regexp.atEOL _); intros H; inversion H. lia.
  - destruct (regexp.atEOL _); intros H; [inversion H; lia|]. apply IH in H. lia.
Qed.

Lemma spacesEOL_advances (s : string) (cu cu' : regexp.cursor) :
  regexp.spacesEOL cu = Some cu' -> advances s cu cu'.
Proof.
  unfold regexp.spacesEOL.
  destruct (regexp.spacesThenEOL _ _) as [k|] eqn:E; [|discriminate].
  simpl. intros H; inversion H. apply advance_by.
  apply spacesThenEOL_le in E. pose proof (run_le regexp.isSpace (snd cu)). lia.
Qed.

Ltac step_cursor H :=
  match type of H with
  | (bind ?m _) = Some _ =>
      let cu := fresh "cu" in
      let E := fresh "E" in
      destruct m as [cu|] eqn:E; [cbn [bind] in H | discriminate]
  end.

Ltac chain_cursors s :=
  repeat match goal with
         | E : regexp.lit _ _ = Some _ |- _ => apply (lit_advances s) in E
         | E : regexp.many1 _ _ = Some _ |- _ => apply (many1_advances s) in E
         | E : regexp.exactly _ _ _ = Some _ |- _ => apply (exactly_advances s) in E
         | E : regexp.spacesEOL _ = Some _ |- _ => apply (spacesEOL_advances s) in E
         end;
  repeat match goal with
         | E : advances s ?cu _, O : cursor_ok s ?cu |- _ =>
             destruct (E O) as [? ?]; clear E
         end.

Lemma claudeHeader_ok : attempt_ok regexp.claudeHeader.
Proof.
  intros s n gs H. unfold regexp.claudeHeader in H.
  do 7 step_cursor H. inversion H; subst; clear H.
  assert (O : cursor_ok s (0, s)) by reflexivity.
  chain_cursors s.
  unfold cursor_ok in *. split; [lia|].
  eexists; eexists; eexists. split; [reflexivity|]. lia.
Qed.

Lemma copilotHeader_ok : attempt_ok regexp.copilotHeader.
Proof.
  intros s n gs H. unfold regexp.copilotHeader in H.
  do 9 step_cursor H. inversion H; subst; clear H.
  assert (O : cursor_ok s (0, s)) by reflexivity.
  chain_cursors s.
  unfold cursor_ok in *. split; [lia|].
  eexists; eexists; eexists. split; [reflexivity|]. lia.
Qed.

Lemma copilotHeader_groups (s : string) (n : nat) (gs : list (nat * nat)) :
  regexp.copilotHeader s = Some (n, gs) -> List.length gs = 2.
Proof.
  unfold regexp.copilotHeader. intros H. do 9 step_cursor H. now inversion H.
Qed.

(** The matches the search loop reports are well formed. *)
Lemma findAllFrom_wf (attempt : string -> option (nat * list (nat * nat))) :
  attempt_ok attempt ->
  forall s skip bol pos from total,
    pos + String.length s = total -> from <= pos + skip ->
    wf_matches (Z.of_nat total) (Z.of_nat from)
      (regexp.findAllFrom attempt skip bol pos s) = true.
Proof.
  intros A s. induction s as [|c s IH]; intros skip bol pos from total T F.
  - destruct skip as [|k]; [|reflexivity]. simpl.
    destruct (if bol then attempt "" else None) as [[n gs]|] eqn:E; [|reflexivity].
    destruct bol; [|discriminate].
    destruct (A _ _ _ E) as (L & a & b & more & -> & B1 & B2).
    simpl in *. rewrite !andb_true_iff, !Z.leb_le. repeat split; lia.
  - destruct skip as [|k].
    + cbn [regexp.findAllFrom].
      destruct (if bol then attempt (String c s) else None) as [[n gs]|] eqn:E.
      * destruct bol; [|discriminate].
        destruct (A _ _ _ E) as (L & a & b & more & -> & B1 & B2).
        cbn [regexp.offsets fst snd flat_map app wf_matches].
        rewrite (IH (pred n) _ (S pos) (pos + n) total) by (simpl in *; lia).
        simpl in L, T. rewrite !andb_true_iff, !Z.leb_le. repeat split; lia.
      * apply IH; simpl in *; lia.
    + cbn [regexp.findAllFrom]. apply IH; simpl in *; lia.
Qed.

Lemma findAllFrom_two_groups (attempt : string -> option (nat * list (nat * nat))) :
  (forall s n gs, attempt s = Some (n, gs) -> List.length gs = 2) ->
  forall s skip bol pos,
    two_groups (regexp.findAllFrom attempt skip bol pos s) = true.
Proof.
  intros A s. unfold two_groups.
  assert (G : forall pos r s0, attempt s0 = Some r ->
                (6 <=? List.length (regexp.offsets pos r)) = true).
  { intros pos [n gs] s0 E. apply A in E.
    destruct gs as [|[a b] [|[c d] [|g gs]]]; try discriminate. reflexivity. }
  induction s as [|c s IH]; intros skip bol pos.
  - destruct skip as [|k]; [|reflexivity]. cbn [regexp.findAllFrom].
    destruct (if bol then attempt "" else None) as [r|] eqn:E; [|reflexivity].
    destruct bol; [|discriminate]. cbn [forallb]. now rewrite (G _ _ _ E).
  - destruct skip as [|k]; cbn [regexp.findAllFrom]; [|apply IH].
    destruct (if bol then attempt (String c s) else None) as [r|] eqn:E; [|apply IH].
    destruct bol; [|discriminate]. cbn [forallb]. now rewrite (G _ _ _ E), IH.
Qed.

Lemma claudeVersionRegex_wf (content : string) :
  wf_matches (len content) 0
    (regexp.FindAllStringSubmatchIndex regexp.claudeVersionRegex content) = true.
Proof. apply (findAllFrom_wf _ claudeHeader_ok content 0 true 0 0); simpl; lia. Qed.

Lemma copilotVersionRegex_wf (content : string) :
  wf_matches (len content) 0
    (regexp.FindAllStringSubmatchIndex regexp.copilotVersionRegex content) = true
  /\ two_groups (regexp.FindAllStringSubmatchIndex regexp.copilotVersionRegex content)
     = true.
Proof.
  split.
  - apply (findAllFrom_wf _ copilotHeader_ok content 0 true 0 0); simpl; lia.
  - apply findAllFrom_two_groups, copilotHeader_groups.
Qed.

(** ** Totality  (claim C9) *)

(** C9: no parser panics.  The release-body parser returns on every body,
    [fetchGitHubReleases] on every list of releases, and the two flat parsers
    on every document under the patterns the program gives them; under any
    pattern they return whenever the matches are well formed.  Without a
    match the flat parsers return the empty list of entries; on the empty
    text every parser returns an empty result. *)
Theorem parsers_are_total :
  (forall body, exists secs ung, parseReleaseBody body = Some (secs, ung))
  /\ (forall content, exists entries, fetchClaudeChangelog content = Some entries)
  /\ (forall content, exists entries, fetchCopilotChangelog content = Some entries)
  /\ (forall Parse_RFC3339 releases,
        exists entries, fetchGitHubReleases Parse_RFC3339 releases = Some entries)
  /\ (forall versionRegex content,
        wf_matches (len content) 0
          (regexp.FindAllStringSubmatchIndex versionRegex content) = true ->
        exists entries, parseMarkdownChangelog content versionRegex = Some entries)
  /\ (forall versionRegex content,
        wf_matches (len content) 0
          (regexp.FindAllStringSubmatchIndex versionRegex content) = true ->
        two_groups (regexp.FindAllStringSubmatchIndex versionRegex content) = true ->
        exists entries, parseMarkdownChangelogWithDate content versionRegex = Some entries)
  /\ (forall versionRegex content,
        regexp.FindAllStringSubmatchIndex versionRegex content = [] ->
        parseMarkdownChangelog content versionRegex = Some []
        /\ parseMarkdownChangelogWithDate content versionRegex = Some [])
  /\ parseReleaseBody "" = Some ([], [])
  /\ parseChanges "" = []
  /\ fetchClaudeChangelog "" = Some []
  /\ fetchCopilotChangelog "" = Some []
  /\ fetchClaudeChangelog ("no header here" +\n+ "- only a bullet") = Some []
  /\ fetchCopilotChangelog ("# 1.0.0" +\n+ "- only a bullet") = Some [].
Proof.
  split; [exact parseReleaseBody_total|].
  split. { intros content. apply undated_parser_total, claudeVersionRegex_wf. }
  split. { intros content. destruct (copilotVersionRegex_wf content) as [W G].
           exact (dated_parser_total content _ W G). }
  split. { intros P releases.
           destruct (fetchGitHubReleases_entries P releases []) as (bs & H & _).
           now exists bs. }
  split; [exact (fun re content => undated_parser_total content re)|].
  split; [exact (fun re content => dated_parser_total content re)|].
  split. { intros re content E.
           unfold parseMarkdownChangelog, parseMarkdownChangelogWithDate,
             regexp.FindAllStringSubmatch.
           rewrite E. now split. }
  repeat split.
Qed.

Lemma parsers_are_total_witness :
  let content := "## 2.0.0" +\n+ "- a" +\n+ "## 1.0.0 - 2024-02-29" +\n+ "- b" in
  regexp.FindAllStringSubmatchIndex regexp.claudeVersionRegex content = [[0; 8; 3; 8]]%Z
  /\ regexp.FindAllStringSubmatchIndex regexp.copilotVersionRegex content
     = [[13; 34; 16; 21; 24; 34]]%Z
  /\ (exists entries, parseMarkdownChangelog content regexp.claudeVersionRegex = Some entries)
  /\ (exists entries,
        parseMarkdownChangelogWithDate content regexp.copilotVersionRegex = Some entries)
  /\ parseMarkdownChangelog "" regexp.copilotVersionRegex = Some [].
Proof.
  intros content.
  destruct parsers_are_total as (_ & _ & _ & _ & H1 & H2 & H3 & _).
  split; [reflexivity|]. split; [reflexivity|].
  split; [exact (H1 regexp.claudeVersionRegex content eq_refl)|].
  split; [exact (H2 regexp.copilotVersionRegex content eq_refl eq_refl)|].
  exact (proj1 (H3 regexp.copilotVersionRegex "" eq_refl)).
Defined.

(** ** Dates: parsing and printing *)

Lemma isDigit_byte (c : ascii) :
  regexp.isDigit c = true -> 48 <= byte c /\ byte c <= 57.
Proof.
  unfold regexp.isDigit. rewrite andb_true_iff, !Nat.leb_le. tauto.
Qed.

Lemma utod_digit (c : ascii) :
  regexp.isDigit c = true -> timefmt.utod (byte c - 48) = c.
Proof.
  intros H. apply isDigit_byte in H. unfold timefmt.utod.
  replace (48 + (byte c - 48)) with (byte c) by lia.
  apply ascii_nat_embedding.
Qed.

Lemma isDigit_utod (u : nat) : u < 10 -> regexp.isDigit (timefmt.utod u) = true.
Proof.
  intros H. unfold regexp.isDigit, timefmt.utod, byte.
  rewrite nat_ascii_embedding by lia.
  apply andb_true_iff; split; apply Nat.leb_le; lia.
Qed.

Lemma digit_utod (u : nat) : u < 10 -> time.digit (timefmt.utod u) = Z.of_nat u.
Proof.
  intros H. unfold time.digit, timefmt.utod, byte.
  rewrite nat_ascii_embedding by lia. f_equal. lia.
Qed.

Lemma digits_step (n : nat) (acc : Z) (s : string) (r : Z * string) :
  time.digits (S n) acc s = Some r ->
  exists c s', s = String c s' /\ regexp.isDigit c = true
               /\ time.digits n (10 * acc + time.digit c)%Z s' = Some r.
Proof.
  simpl. destruct s as [|c s']; [discriminate|].
  destruct (regexp.isDigit c) eqn:E; [|discriminate]. intros H. now exists c, s'.
Qed.

Lemma digits_done (acc v : Z) (s rest : string) :
  time.digits 0 acc s = Some (v, rest) -> v = acc /\ rest = s.
Proof. simpl. intros H. now inversion H. Qed.

(** Two digits read by [time.digits]: their value and how it prints. *)
Lemma digits_2 (s rest : string) (v : Z) :
  time.digits 2 0 s = Some (v, rest) ->
  (0 <= v < 100)%Z /\ s = (timefmt.appendInt v 2 ++ rest)%string.
Proof.
  intros H.
  apply digits_step in H. destruct H as (c1 & s1 & -> & D1 & H).
  apply digits_step in H. destruct H as (c2 & s2 & -> & D2 & H).
  apply digits_done in H. destruct H as [-> ->].
  pose proof (isDigit_byte _ D1) as B1. pose proof (isDigit_byte _ D2) as B2.
  unfold time.digit.
  set (a := byte c1 - 48) in *. set (b := byte c2 - 48) in *.
  assert (Ha : a < 10) by (unfold a; lia). assert (Hb : b < 10) by (unfold b; lia).
  split; [lia|].
  unfold timefmt.appendInt.
  replace (Z.abs_nat (10 * (10 * 0 + Z.of_nat a) + Z.of_nat b)) with (10 * a + b) by lia.
  replace ((10 * (10 * 0 + Z.of_nat a) + Z.of_nat b <? 0)%Z) with false
    by (symmetry; apply Z.ltb_ge; lia).
  replace (10 * a + b <? 100) with true by (symmetry; apply Nat.ltb_lt; lia).
  cbn [Nat.eqb andb]. 
  replace ((10 * a + b) / 10) with a
    by (apply (Nat.div_unique _ 10 a b); lia).
  replace ((10 * a + b) mod 10) with b
    by (apply (Nat.mod_unique _ 10 a b); lia).
  unfold a, b. now rewrite !utod_digit.
Qed.

(** Four digits read by [time.digits]: their value and how it prints. *)
Lemma digits_4 (s rest : string) (v : Z) :
  time.digits 4 0 s = Some (v, rest) ->
  (0 <= v < 10000)%Z /\ s = (timefmt.appendInt v 4 ++ rest)%string.
Proof.
  intros H.
  apply digits_step in H. destruct H as (c1 & s1 & -> & D1 & H).
  apply digits_step in H. destruct H as (c2 & s2 & -> & D2 & H).
  apply digits_step in H. destruct H as (c3 & s3 & -> & D3 & H).
  apply digits_step in H. destruct H as (c4 & s4 & -> & D4 & H).
  apply digits_done in H. destruct H as [-> ->].
  pose proof (isDigit_byte _ D1) as B1. pose proof (isDigit_byte _ D2) as B2.
  pose proof (isDigit_byte _ D3) as B3. pose proof (isDigit_byte _ D4) as B4.
  unfold time.digit.
  set (a := byte c1 - 48) in *. set (b := byte c2 - 48) in *.
  set (c := byte c3 - 48) in *. set (d := byte c4 - 48) in *.
  assert (Ha : a < 10) by (unfold a; lia). assert (Hb : b < 10) by (unfold b; lia).
  assert (Hc : c < 10) by (unfold c; lia). assert (Hd : d < 10) by (unfold d; lia).
  split; [lia|].
  unfold timefmt.appendInt.
  set (v := (10 * (10 * (10 * (10 * 0 + Z.of_nat a) + Z.of_nat b) + Z.of_nat c)
             + Z.of_nat d)%Z).
  set (u := 1000 * a + 100 * b + 10 * c + d).
  replace (Z.abs_nat v) with u by (unfold u, v; lia).
  replace ((v <? 0)%Z) with false by (symmetry; apply Z.ltb_ge; unfold v; lia).
  replace (u <? 100 * 100) with true by (symmetry; apply Nat.ltb_lt; unfold u; lia).
  cbn [Nat.eqb andb orb].
  assert (E1 : u / 1000 = a)
    by (symmetry; apply (Nat.div_unique _ 1000 a (100 * b + 10 * c + d)); unfold u; lia).
  assert (E2 : u / 100 = 10 * a + b)
    by (symmetry; apply (Nat.div_unique _ 100 _ (10 * c + d)); unfold u; lia).
  assert (E3 : u / 10 = 100 * a + 10 * b + c)
    by (symmetry; apply (Nat.div_unique _ 10 _ d); unfold u; lia).
  rewrite E1, E2, E3.
  replace ((10 * a + b) mod 10) with b
    by (apply (Nat.mod_unique _ 10 a b); lia).
  replace ((100 * a + 10 * b + c) mod 10) with c
    by (apply (Nat.mod_unique _ 10 (10 * a + b) c); lia).
  replace (u mod 10) with d
    by (apply (Nat.mod_unique _ 10 (100 * a + 10 * b + c) d); unfold u; lia).
  unfold a, b, c, d. now rewrite !utod_digit.
Qed.

Lemma digits_appendInt_2 (v : Z) (rest : string) :
  (0 <= v < 100)%Z ->
  time.digits 2 0 (timefmt.appendInt v 2 ++ rest)%string = Some (v, rest).
Proof.
  intros H. unfold timefmt.appendInt.
  replace ((v <? 0)%Z) with false by (symmetry; apply Z.ltb_ge; lia).
  set (u := Z.abs_nat v).
  assert (Hu : u < 100) by (unfold u; lia).
  replace (u <? 100) with true by (symmetry; apply Nat.ltb_lt; lia).
  cbn [Nat.eqb andb String.append time.digits].
  assert (A : u / 10 < 10) by (apply Nat.Div0.div_lt_upper_bound; lia).
  assert (B : u mod 10 < 10) by (apply Nat.mod_upper_bound; lia).
  rewrite !isDigit_utod, !digit_utod by assumption.
  do 2 f_equal. pose proof (Nat.div_mod_eq u 10). unfold u in *. lia.
Qed.

Lemma digits_appendInt_4 (v : Z) (rest : string) :
  (0 <= v < 10000)%Z ->
  time.digits 4 0 (timefmt.appendInt v 4 ++ rest)%string = Some (v, rest).
Proof.
  intros H. unfold timefmt.appendInt.
  replace ((v <? 0)%Z) with false by (symmetry; apply Z.ltb_ge; lia).
  set (u := Z.abs_nat v).
  assert (Hu : u < 100 * 100) by (unfold u; lia).
  replace (u <? 100 * 100) with true by (symmetry; apply Nat.ltb_lt; lia).
  cbn [Nat.eqb andb orb String.append time.digits].
  assert (A : u / 1000 < 10) by (apply Nat.Div0.div_lt_upper_bound; lia).
  assert (B : u / 100 mod 10 < 10) by (apply Nat.mod_upper_bound; lia).
  assert (C : u / 10 mod 10 < 10) by (apply Nat.mod_upper_bound; lia).
  assert (D : u mod 10 < 10) by (apply Nat.mod_upper_bound; lia).
  rewrite !isDigit_utod, !digit_utod by assumption.
  do 2 f_equal.
  pose proof (Nat.div_mod_eq u 10) as E1.
  pose proof (Nat.div_mod_eq (u / 10) 10) as E2.
  pose proof (Nat.div_mod_eq (u / 100) 10) as E3.
  rewrite (Nat.Div0.div_div u 10 10) in E2.
  change (10 * 10) with 100 in E2.
  rewrite (Nat.Div0.div_div u 100 10) in E3.
  change (100 * 10) with 1000 in E3.
  assert (F : (u / 1000) mod 10 = u / 1000) by (apply Nat.mod_small; exact A).
  unfold u in *. lia.
Qed.

(** A text that [time.Parse] accepts under the date-only layout spells a day
    of the calendar, and the time returned is that day at midnight UTC. *)
Lemma Parse_DateOnly_spelled (value : string) (t : time.Time) :
  time.Parse_DateOnly value = (t, None) ->
  calendarDay (time.Year t) (time.Month t) (time.Day t)
  /\ t = time.Date (time.Year t) (time.Month t) (time.Day t) 0 0 0 0 0
  /\ dateText (time.Year t) (time.Month t) (time.Day t) = value.
Proof.
  unfold time.Parse_DateOnly.
  destruct (time.digits 4 0 value) as [[year v0]|] eqn:Ey; [|discriminate].
  destruct v0 as [|c0 v1]; [discriminate|].
  destruct (Ascii.eqb c0 "-") eqn:E0;
    [apply Ascii.eqb_eq in E0; subst c0
    | destruct c0 as [[] [] [] [] [] [] [] []]; try discriminate].
  destruct (time.digits 2 0 v1) as [[month v2]|] eqn:Em; [|discriminate].
  destruct ((month <=? 0)%Z || (12 <? month)%Z) eqn:Rm; [discriminate|].
  destruct v2 as [|c2 v3]; [discriminate|].
  destruct (Ascii.eqb c2 "-") eqn:E2;
    [apply Ascii.eqb_eq in E2; subst c2
    | destruct c2 as [[] [] [] [] [] [] [] []]; try discriminate].
  destruct (time.digits 2 0 v3) as [[day v4]|] eqn:Ed; [|discriminate].
  destruct v4 as [|c4 v5]; [|discriminate].
  destruct ((day <? 1)%Z || (time.daysIn month year <? day)%Z) eqn:Rd; [discriminate|].
  intros H; inversion H; subst t; clear H.
  apply orb_false_iff in Rm. destruct Rm as [Rm1 Rm2].
  apply orb_false_iff in Rd. destruct Rd as [Rd1 Rd2].
  apply Z.leb_gt in Rm1. apply Z.ltb_ge in Rm2, Rd1, Rd2.
  destruct (digits_4 _ _ _ Ey) as [Hy ->].
  destruct (digits_2 _ _ _ Em) as [_ ->].
  destruct (digits_2 _ _ _ Ed) as [_ ->].
  cbn [time.Year time.Month time.Day].
  split; [unfold calendarDay; lia|]. split; [reflexivity|].
  unfold dateText, timefmt.Format_DateOnly. cbn [time.Year time.Month time.Day].
  now rewrite append_nil_r.
Qed.

(** The text of a day of the calendar parses, under the date-only layout, as
    that day at midnight UTC. *)
Lemma Parse_DateOnly_dateText (y m d : Z) :
  calendarDay y m d ->
  time.Parse_DateOnly (dateText y m d) = (time.Date y m d 0 0 0 0 0, None).
Proof.
  intros (Hy & Hm & Hd).
  assert (D31 : (time.daysIn m y <= 31)%Z).
  { unfold time.daysIn. case_matches; lia. }
  unfold dateText, timefmt.Format_DateOnly, time.Parse_DateOnly.
  cbn [time.Year time.Month time.Day].
  change ("-" ++ ?x)%string with (String "-" x).
  rewrite digits_appendInt_4 by lia.
  change (("-" ++ timefmt.appendInt m 2 ++ "-" ++ timefmt.appendInt d 2)%string)
    with (String "-" (timefmt.appendInt m 2
                        ++ String "-" (timefmt.appendInt d 2))%string).
  rewrite digits_appendInt_2 by lia.
  replace ((m <=? 0)%Z) with false by (symmetry; apply Z.leb_gt; lia).
  replace ((12 <? m)%Z) with false by (symmetry; apply Z.ltb_ge; lia).
  cbn [orb].
  rewrite <- (append_nil_r (timefmt.appendInt d 2)). cbn [String.append].
  rewrite digits_appendInt_2 by lia.
  replace ((d <? 1)%Z) with false by (symmetry; apply Z.ltb_ge; lia).
  replace ((time.daysIn m y <? d)%Z) with false
    by (symmetry; apply Z.ltb_ge; lia).
  reflexivity.
Qed.

(** ** The dates of the dated parser  (claim C8) *)

(** C8: the header line [## 1.5.0 - 2025-03-10] gives an entry with version
    ["1.5.0"] released on March 10, 2025 at midnight UTC, and so does any
    header whose captures are these two texts; every time the date-only parse
    returns, and so the date of every entry of the dated parser, is at
    midnight UTC.  In general the date of an entry is the one its header
    spells: a header whose date capture is the text [yyyy-mm-dd] of a day of
    the calendar gives an entry released on that day at midnight UTC, with
    the version capture as version; and a date capture that parses is
    the text of a day of the calendar, the day of the entry.  Under the
    pattern of the program this holds of every document: the parser returns
    one entry for each header, with the version capture as version and the
    parse of the date capture as date. *)
Theorem dated_header_gives_midnight_utc :
  fetchCopilotChangelog "## 1.5.0 - 2025-03-10"
  = Some [ {| Version := "1.5.0"; ReleasedAt := time.Date 2025 3 10 0 0 0 0 0;
              Source := ""; Sections := []; EntryChanges := [] |} ]
  /\ (forall content versionRegex entries i texts,
        parseMarkdownChangelogWithDate content versionRegex = Some entries ->
        nth_error (regexp.FindAllStringSubmatch versionRegex content) i = Some texts ->
        index texts 1 = Some "1.5.0" ->
        index texts 2 = Some "2025-03-10" ->
        exists e, nth_error entries i = Some e
                  /\ Version e = "1.5.0"
                  /\ ReleasedAt e = time.Date 2025 3 10 0 0 0 0 0)
  /\ (forall value, midnightUTC (fst (time.Parse_DateOnly value)))
  /\ (forall content versionRegex entries,
        parseMarkdownChangelogWithDate content versionRegex = Some entries ->
        Forall (fun e => midnightUTC (ReleasedAt e)) entries)
  /\ (forall content versionRegex entries i texts y m d,
        parseMarkdownChangelogWithDate content versionRegex = Some entries ->
        nth_error (regexp.FindAllStringSubmatch versionRegex content) i = Some texts ->
        calendarDay y m d ->
        index texts 2 = Some (dateText y m d) ->
        exists e, nth_error entries i = Some e
                  /\ index texts 1 = Some (Version e)
                  /\ ReleasedAt e = time.Date y m d 0 0 0 0 0)
  /\ (forall content versionRegex entries i texts dateStr t,
        parseMarkdownChangelogWithDate content versionRegex = Some entries ->
        nth_error (regexp.FindAllStringSubmatch versionRegex content) i = Some texts ->
        index texts 2 = Some dateStr ->
        time.Parse_DateOnly dateStr = (t, None) ->
        exists e y m d,
          nth_error entries i = Some e
          /\ index texts 1 = Some (Version e)
          /\ calendarDay y m d
          /\ dateStr = dateText y m d
          /\ ReleasedAt e = time.Date y m d 0 0 0 0 0)
  /\ (forall content,
        exists entries,
          fetchCopilotChangelog content = Some entries
          /\ List.length entries
             = List.length (regexp.FindAllStringSubmatch regexp.copilotVersionRegex
                              content)
          /\ forall i texts,
               nth_error (regexp.FindAllStringSubmatch regexp.copilotVersionRegex
                            content) i = Some texts ->
               exists e dateStr,
                 nth_error entries i = Some e
                 /\ index texts 1 = Some (Version e)
                 /\ index texts 2 = Some dateStr
                 /\ ReleasedAt e = fst (time.Parse_DateOnly dateStr)).
Proof.
  split; [reflexivity|]. split; [|split; [|split; [|split; [|split]]]].
  - intros content versionRegex entries i texts H Hi H1 H2.
    destruct (dated_entries _ _ _ H) as [_ Hnth].
    destruct (Hnth i texts Hi) as (e & ver & dateStr & He & E1 & E2 & Hv & Hd).
    exists e. rewrite H1 in E1. rewrite H2 in E2. inversion E1; inversion E2; subst.
    repeat split; trivial; congruence.
  - exact Parse_DateOnly_midnight.
  - intros content versionRegex entries H.
    destruct (dated_entries _ _ _ H) as [Hlen Hnth].
    apply Forall_forall. intros e Hin.
    destruct (In_nth_error _ _ Hin) as [i Hi].
    assert (L : i < List.length (regexp.FindAllStringSubmatch versionRegex content)).
    { unfold regexp.FindAllStringSubmatch. rewrite length_map, <- Hlen.
      apply nth_error_Some. congruence. }
    destruct (nth_error (regexp.FindAllStringSubmatch versionRegex content) i)
      as [texts|] eqn:Ht; [|apply nth_error_None in Ht; lia].
    destruct (Hnth i texts Ht) as (e' & ver & dateStr & He & _ & _ & _ & Hd).
    rewrite Hi in He. inversion He; subst e'. rewrite Hd.
    apply Parse_DateOnly_midnight.
  - intros content versionRegex entries i texts y m d H Hi C H2.
    destruct (dated_entries _ _ _ H) as [_ Hnth].
    destruct (Hnth i texts Hi) as (e & ver & dateStr & He & E1 & E2 & Hv & Hd).
    rewrite H2 in E2. inversion E2; subst dateStr.
    exists e. split; [exact He|]. split; [now rewrite Hv|].
    now rewrite Hd, (Parse_DateOnly_dateText _ _ _ C).
  - intros content versionRegex entries i texts dateStr t H Hi H2 P.
    destruct (dated_entries _ _ _ H) as [_ Hnth].
    destruct (Hnth i texts Hi) as (e & ver & dateStr' & He & E1 & E2 & Hv & Hd).
    rewrite H2 in E2. inversion E2; subst dateStr'.
    destruct (Parse_DateOnly_spelled _ _ P) as (C & T & S).
    exists e, (time.Year t), (time.Month t), (time.Day t).
    split; [exact He|]. split; [now rewrite Hv|]. split; [exact C|].
    split; [now symmetry|]. now rewrite Hd, P.
  - intros content. destruct (copilotVersionRegex_wf content) as [W G].
    destruct (dated_parser_total content regexp.copilotVersionRegex W G)
      as [entries E].
    exists entries. split; [exact E|].
    destruct (dated_entries _ _ _ E) as [Hlen Hnth]. split.
    + rewrite Hlen. unfold regexp.FindAllStringSubmatch. now rewrite length_map.
    + intros i texts Hi.
      destruct (Hnth i texts Hi) as (e & ver & dateStr & He & E1 & E2 & Hv & Hd).
      exists e, dateStr. split; [exact He|]. split; [now rewrite Hv|]. now split.
Qed.

Lemma dated_header_gives_midnight_utc_witness :
  let content := "## 1.5.0 - 2025-03-10" +\n+ "- a change" +\n+
                 "## 1.4.2 - 2024-02-29" +\n+ "- another" in
  let entries := [ {| Version := "1.5.0";
                      ReleasedAt := time.Date 2025 3 10 0 0 0 0 0;
                      Source := ""; Sections := [];
                      EntryChanges := ["a change"] |};
                   {| Version := "1.4.2";
                      ReleasedAt := time.Date 2024 2 29 0 0 0 0 0;
                      Source := ""; Sections := [];
                      EntryChanges := ["another"] |} ] in
  fetchCopilotChangelog content = Some entries
  /\ regexp.FindAllStringSubmatch regexp.copilotVersionRegex content
     = [ ["## 1.5.0 - 2025-03-10"; "1.5.0"; "2025-03-10"];
         ["## 1.4.2 - 2024-02-29"; "1.4.2"; "2024-02-29"] ]
  /\ (exists e, nth_error entries 0 = Some e
                /\ Version e = "1.5.0"
                /\ ReleasedAt e = time.Date 2025 3 10 0 0 0 0 0)
  /\ dateText 2024 2 29 = "2024-02-29"
  /\ (exists e, nth_error entries 1 = Some e
                /\ Some "1.4.2" = Some (Version e)
                /\ ReleasedAt e = time.Date 2024 2 29 0 0 0 0 0)
  /\ (exists e y m d,
        nth_error entries 1 = Some e
        /\ Some "1.4.2" = Some (Version e)
        /\ calendarDay y m d
        /\ "2024-02-29" = dateText y m d
        /\ ReleasedAt e = time.Date y m d 0 0 0 0 0).
Proof.
  intros content entries.
  destruct dated_header_gives_midnight_utc as (_ & H2 & _ & _ & H5 & H6 & _).
  split; [reflexivity|]. split; [reflexivity|].
  split; [exact (H2 content regexp.copilotVersionRegex entries 0 _
                   eq_refl eq_refl eq_refl eq_refl)|].
  split; [reflexivity|].
  split.
  - refine (H5 content regexp.copilotVersionRegex entries 1 _ 2024%Z 2%Z 29%Z
              eq_refl eq_refl _ eq_refl).
    unfold calendarDay. cbn. lia.
  - exact (H6 content regexp.copilotVersionRegex entries 1 _ "2024-02-29" _
             eq_refl eq_refl eq_refl eq_refl).
Defined.

(** * Further properties *)

(** ** Dates: the round trips *)

(** A date that [time.Parse] accepts prints back, under the same layout, as
    the text it was parsed from. *)
Theorem Format_of_Parse_DateOnly :
  forall value t,
    time.Parse_DateOnly value = (t, None) ->
    timefmt.Format_DateOnly t = value.
Proof.
  intros value t H.
  destruct (Parse_DateOnly_spelled _ _ H) as (_ & _ & S).
  destruct t. exact S.
Qed.

(** Printing a time whose day exists in the calendar, in the years 0 to
    9999, and parsing the text back gives that day at midnight UTC: the day
    is kept and the time of day is not. *)
Theorem Parse_of_Format_DateOnly :
  forall t,
    (0 <= time.Year t <= 9999)%Z ->
    (1 <= time.Month t <= 12)%Z ->
    (1 <= time.Day t <= time.daysIn (time.Month t) (time.Year t))%Z ->
    time.Parse_DateOnly (timefmt.Format_DateOnly t)
    = (time.Date (time.Year t) (time.Month t) (time.Day t) 0 0 0 0 0, None).
Proof.
  intros [year month day h mi s ns off]. cbn [time.Year time.Month time.Day].
  intros Hy Hm Hd.
  exact (Parse_DateOnly_dateText year month day (conj Hy (conj Hm Hd))).
Qed.

Lemma Parse_of_Format_DateOnly_witness :
  timefmt.Format_DateOnly (time.Date 2024 2 29 15 30 0 0 3600) = "2024-02-29"
  /\ time.Parse_DateOnly "2024-02-29" = (time.Date 2024 2 29 0 0 0 0 0, None).
Proof.
  split; [reflexivity|].
  refine (Parse_of_Format_DateOnly (time.Date 2024 2 29 15 30 0 0 3600) _ _ _);
    cbn; lia.
Defined.

Lemma Format_of_Parse_DateOnly_witness :
  time.Parse_DateOnly "2025-03-10" = (time.Date 2025 3 10 0 0 0 0 0, None)
  /\ timefmt.Format_DateOnly (time.Date 2025 3 10 0 0 0 0 0) = "2025-03-10".
Proof.
  split; [reflexivity|].
  exact (Format_of_Parse_DateOnly "2025-03-10" _ eq_refl).
Defined.

(** ** Trimming *)

Lemma rev_string_acc (s acc : string) :
  rev_string acc s = (rev_string EmptyString s ++ acc)%string.
Proof.
  revert acc; induction s as [|c s IH]; intros acc; simpl; [reflexivity|].
  rewrite (IH (String c acc)), (IH (String c EmptyString)).
  now rewrite append_assoc.
Qed.

Lemma rev_string_app (a b : string) :
  rev_string EmptyString (a ++ b)%string
  = (rev_string EmptyString b ++ rev_string EmptyString a)%string.
Proof.
  induction a as [|c a IH]; simpl; [now rewrite append_nil_r|].
  rewrite (rev_string_acc (a ++ b)), (rev_string_acc a), IH.
  now rewrite append_assoc.
Qed.

Lemma rev_string_involutive (s : string) :
  rev_string EmptyString (rev_string EmptyString s) = s.
Proof.
  induction s as [|c s IH]; simpl; [reflexivity|].
  rewrite (rev_string_acc s (String c EmptyString)), rev_string_app, IH. reflexivity.
Qed.

Lemma length_append (a b : string) :
  String.length (a ++ b)%string = String.length a + String.length b.
Proof. induction a as [|c a IH]; simpl; [reflexivity | now rewrite IH]. Qed.

Lemma length_rev_string (s : string) :
  String.length (rev_string EmptyString s) = String.length s.
Proof.
  induction s as [|c s IH]; simpl; [reflexivity|].
  rewrite rev_string_acc, length_append, IH. simpl. lia.
Qed.

Lemma TrimLeftSpace_eq (s : string) :
  strings.TrimLeftSpace s =
    match s with
    | EmptyString => EmptyString
    | String c r =>
        if strings.asciiSpace c then strings.TrimLeftSpace r
        else match r with
             | String d r2 =>
                 if strings.space2 c d then strings.TrimLeftSpace r2
                 else match r2 with
                      | String e r3 =>
                          if strings.space3 c d e then strings.TrimLeftSpace r3 else s
                      | EmptyString => s
                      end
             | EmptyString => s
             end
    end.
Proof. now destruct s. Qed.

Lemma TrimLeftSpaceRev_eq (s : string) :
  strings.TrimLeftSpaceRev s =
    match s with
    | EmptyString => EmptyString
    | String c r =>
        if strings.asciiSpace c then strings.TrimLeftSpaceRev r
        else match r with
             | String d r2 =>
                 if strings.space2 d c then strings.TrimLeftSpaceRev r2
                 else match r2 with
                      | String e r3 =>
                          if strings.space3 e d c then strings.TrimLeftSpaceRev r3 else s
                      | EmptyString => s
                      end
             | EmptyString => s
             end
    end.
Proof. now destruct s. Qed.

Ltac trim_length IH :=
  match goal with
  | |- String.length (?f ?t) <= _ =>
      let H := fresh in
      assert (H : String.length (f t) <= String.length t)
        by (apply IH; cbn [String.length] in *; lia);
      cbn [String.length] in *; lia
  end.

(** Trimming never lengthens. *)
Lemma TrimLeftSpace_length (s : string) :
  String.length (strings.TrimLeftSpace s) <= String.length s.
Proof.
  assert (H : forall n s, String.length s <= n ->
                          String.length (strings.TrimLeftSpace s) <= String.length s).
  { clear s. induction n as [|n IH]; intros s L.
    - destruct s; [simpl; lia | simpl in L; lia].
    - rewrite TrimLeftSpace_eq. destruct s as [|c r]; [simpl; lia|].
      destruct (strings.asciiSpace c); [trim_length IH|].
      destruct r as [|d r2]; [lia|].
      destruct (strings.space2 c d); [trim_length IH|].
      destruct r2 as [|e r3]; [lia|].
      destruct (strings.space3 c d e); [trim_length IH | lia]. }
  exact (H _ s (le_n _)).
Qed.

Lemma TrimLeftSpaceRev_length (s : string) :
  String.length (strings.TrimLeftSpaceRev s) <= String.length s.
Proof.
  assert (H : forall n s, String.length s <= n ->
                          String.length (strings.TrimLeftSpaceRev s) <= String.length s).
  { clear s. induction n as [|n IH]; intros s L.
    - destruct s; [simpl; lia | simpl in L; lia].
    - rewrite TrimLeftSpaceRev_eq. destruct s as [|c r]; [simpl; lia|].
      destruct (strings.asciiSpace c); [trim_length IH|].
      destruct r as [|d r2]; [lia|].
      destruct (strings.space2 d c); [trim_length IH|].
      destruct r2 as [|e r3]; [lia|].
      destruct (strings.space3 e d c); [trim_length IH | lia]. }
  exact (H _ s (le_n _)).
Qed.

Lemma TrimRightSpace_length (s : string) :
  String.length (strings.TrimRightSpace s) <= String.length s.
Proof.
  unfold strings.TrimRightSpace. rewrite length_rev_string.
  pose proof (TrimLeftSpaceRev_length (rev_string EmptyString s)) as H.
  now rewrite length_rev_string in H.
Qed.

Lemma TrimLeftSpace_cases (s : string) :
  strings.TrimLeftSpace s = s
  \/ String.length (strings.TrimLeftSpace s) < String.length s.
Proof.
  rewrite TrimLeftSpace_eq. destruct s as [|c r]; [now left|].
  destruct (strings.asciiSpace c).
  { right. pose proof (TrimLeftSpace_length r). simpl. lia. }
  destruct r as [|d r2]; [now left|].
  destruct (strings.space2 c d).
  { right. pose proof (TrimLeftSpace_length r2). simpl. lia. }
  destruct r2 as [|e r3]; [now left|].
  destruct (strings.space3 c d e); [|now left].
  right. pose proof (TrimLeftSpace_length r3). simpl. lia.
Qed.

(** A text that trimming leaves as it is has nothing to trim on the left or
    on the right. *)
Lemma TrimSpace_fixed (s : string) :
  strings.TrimSpace s = s ->
  strings.TrimLeftSpace s = s /\ strings.TrimRightSpace s = s.
Proof.
  unfold strings.TrimSpace. intros H.
  pose proof (TrimRightSpace_length (strings.TrimLeftSpace s)) as L.
  rewrite H in L.
  destruct (TrimLeftSpace_cases s) as [E | E]; [|lia].
  split; [exact E|]. now rewrite E in H.
Qed.

Lemma TrimLeftSpace_fixed_head (c : ascii) (r : string) :
  strings.TrimLeftSpace (String c r) = String c r -> strings.asciiSpace c = false.
Proof.
  intros H. destruct (strings.asciiSpace c) eqn:E; [|reflexivity].
  rewrite TrimLeftSpace_eq, E in H.
  pose proof (TrimLeftSpace_length r) as L. rewrite H in L. simpl in L. lia.
Qed.

Lemma space2_ascii_first (d c : ascii) : byte d < 128 -> strings.space2 d c = false.
Proof.
  intros H. unfold strings.space2.
  replace (byte d =? 194) with false by (symmetry; apply Nat.eqb_neq; lia).
  reflexivity.
Qed.

Lemma space3_ascii_first (e d c : ascii) : byte e < 128 -> strings.space3 e d c = false.
Proof.
  intros H. unfold strings.space3.
  replace (byte e =? 225) with false by (symmetry; apply Nat.eqb_neq; lia).
  replace (byte e =? 226) with false by (symmetry; apply Nat.eqb_neq; lia).
  replace (byte e =? 227) with false by (symmetry; apply Nat.eqb_neq; lia).
  reflexivity.
Qed.

Lemma TrimLeftSpace_ascii_head (a : ascii) (r : string) :
  byte a < 128 -> strings.asciiSpace a = false ->
  strings.TrimLeftSpace (String a r) = String a r.
Proof.
  intros A S. rewrite TrimLeftSpace_eq, S.
  destruct r as [|d r2]; [reflexivity|]. rewrite (space2_ascii_first _ _ A).
  destruct r2 as [|e r3]; [reflexivity|]. now rewrite (space3_ascii_first _ _ _ A).
Qed.

Lemma TrimLeftSpaceRev_no_lead (s : string) :
  leadsSpaceRev s = false -> strings.TrimLeftSpaceRev s = s.
Proof.
  intros H. rewrite TrimLeftSpaceRev_eq. destruct s as [|c r]; [reflexivity|].
  simpl in H. apply orb_false_iff in H. destruct H as [-> H].
  destruct r as [|d r2]; [reflexivity|].
  apply orb_false_iff in H. destruct H as [-> H].
  destruct r2 as [|e r3]; [reflexivity|]. now rewrite H.
Qed.

Lemma TrimLeftSpaceRev_fixed (s : string) :
  strings.TrimLeftSpaceRev s = s -> leadsSpaceRev s = false.
Proof.
  intros H. destruct s as [|c r]; [reflexivity|].
  rewrite TrimLeftSpaceRev_eq in H. simpl.
  destruct (strings.asciiSpace c).
  { pose proof (TrimLeftSpaceRev_length r) as L. rewrite H in L. simpl in L. lia. }
  destruct r as [|d r2]; [reflexivity|].
  destruct (strings.space2 d c).
  { pose proof (TrimLeftSpaceRev_length r2) as L. rewrite H in L. simpl in L. lia. }
  destruct r2 as [|e r3]; [reflexivity|].
  destruct (strings.space3 e d c); [|reflexivity].
  pose proof (TrimLeftSpaceRev_length r3) as L. rewrite H in L. simpl in L. lia.
Qed.

Lemma isASCII_head (c : ascii) (s : string) :
  isASCII (String c s) = true -> byte c < 128 /\ isASCII s = true.
Proof. simpl. rewrite andb_true_iff, Nat.ltb_lt. tauto. Qed.

Lemma leadsSpaceRev_app (x q : string) :
  x <> EmptyString -> leadsSpaceRev x = false -> isASCII q = true ->
  leadsSpaceRev (x ++ q)%string = false.
Proof.
  intros N H Q. destruct x as [|c r]; [contradiction|].
  simpl in H. apply orb_false_iff in H. destruct H as [Hc H].
  cbn [String.append leadsSpaceRev]. rewrite Hc. cbn [orb].
  destruct r as [|d r2].
  - cbn [String.append]. destruct q as [|d q2]; [reflexivity|].
    destruct (isASCII_head _ _ Q) as [Qd Q2].
    rewrite (space2_ascii_first _ _ Qd). cbn [orb].
    destruct q2 as [|e q3]; [reflexivity|].
    destruct (isASCII_head _ _ Q2) as [Qe _]. apply space3_ascii_first, Qe.
  - apply orb_false_iff in H. destruct H as [Hd H].
    cbn [String.append]. rewrite Hd. cbn [orb].
    destruct r2 as [|e r3].
    + cbn [String.append]. destruct q as [|e q3]; [reflexivity|].
      destruct (isASCII_head _ _ Q) as [Qe _]. apply space3_ascii_first, Qe.
    + exact H.
Qed.

Lemma isASCII_app (a b : string) :
  isASCII (a ++ b)%string = isASCII a && isASCII b.
Proof.
  induction a as [|c a IH]; simpl; [reflexivity|]. now rewrite IH, andb_assoc.
Qed.

Lemma isASCII_rev (s : string) : isASCII (rev_string EmptyString s) = isASCII s.
Proof.
  induction s as [|c s IH]; simpl; [reflexivity|].
  rewrite rev_string_acc, isASCII_app, IH. simpl.
  now rewrite andb_true_r, andb_comm.
Qed.

Lemma rev_string_nonempty (s : string) :
  s <> EmptyString -> rev_string EmptyString s <> EmptyString.
Proof.
  intros N E. apply N. rewrite <- (rev_string_involutive s), E. reflexivity.
Qed.

(** A line made of an ASCII prefix that starts with a character other than
    white space, followed by a text that does not end with white space, is
    left as it is by trimming. *)
Lemma TrimSpace_prefixed (a : ascii) (p c : string) :
  byte a < 128 -> strings.asciiSpace a = false -> isASCII p = true ->
  strings.TrimRightSpace c = c -> c <> EmptyString ->
  strings.TrimSpace (String a p ++ c)%string = (String a p ++ c)%string.
Proof.
  intros A S P R N. unfold strings.TrimSpace.
  change (String a p ++ c)%string with (String a (p ++ c)%string).
  rewrite (TrimLeftSpace_ascii_head a _ A S).
  change (String a (p ++ c)%string) with (String a p ++ c)%string.
  unfold strings.TrimRightSpace in *.
  rewrite rev_string_app.
  assert (F : strings.TrimLeftSpaceRev (rev_string EmptyString c)
              = rev_string EmptyString c).
  { rewrite <- R at 2. now rewrite rev_string_involutive. }
  rewrite TrimLeftSpaceRev_no_lead.
  - now rewrite <- rev_string_app, rev_string_involutive.
  - apply leadsSpaceRev_app.
    + now apply rev_string_nonempty.
    + now apply TrimLeftSpaceRev_fixed.
    + rewrite isASCII_rev. simpl. apply andb_true_iff; split; [|exact P].
      now apply Nat.ltb_lt.
Qed.

(** Trimming a text that starts with an ASCII character other than white
    space keeps that character in front. *)
Lemma TrimLeftSpaceRev_keeps_last (a : ascii) (x : string) :
  byte a < 128 -> strings.asciiSpace a = false ->
  exists y, strings.TrimLeftSpaceRev (x ++ String a EmptyString)%string
            = (y ++ String a EmptyString)%string.
Proof.
  intros A S.
  assert (H : forall n x, String.length x <= n ->
            exists y, strings.TrimLeftSpaceRev (x ++ String a EmptyString)%string
                      = (y ++ String a EmptyString)%string).
  { clear x. induction n as [|n IH]; intros x L.
    - destruct x; [|simpl in L; lia]. exists EmptyString.
      rewrite TrimLeftSpaceRev_eq. cbn [String.append]. now rewrite S.
    - rewrite TrimLeftSpaceRev_eq. destruct x as [|c x1].
      { exists EmptyString. cbn [String.append]. now rewrite S. }
      cbn [String.append]. simpl in L.
      destruct (strings.asciiSpace c); [apply IH; lia|].
      destruct x1 as [|d x2].
      { cbn [String.append]. rewrite (space2_ascii_first _ _ A).
        now exists (String c EmptyString). }
      cbn [String.append]. simpl in L.
      destruct (strings.space2 d c); [apply IH; lia|].
      destruct x2 as [|e x3].
      { cbn [String.append]. rewrite (space3_ascii_first _ _ _ A).
        now exists (String c (String d EmptyString)). }
      cbn [String.append]. simpl in L.
      destruct (strings.space3 e d c); [apply IH; lia|].
      now exists (String c (String d (String e x3))). }
  exact (H _ x (le_n _)).
Qed.

Lemma TrimSpace_ascii_head (a : ascii) (r : string) :
  byte a < 128 -> strings.asciiSpace a = false ->
  exists r', strings.TrimSpace (String a r) = String a r'.
Proof.
  intros A S. unfold strings.TrimSpace, strings.TrimRightSpace.
  rewrite (TrimLeftSpace_ascii_head a r A S).
  cbn [rev_string]. rewrite (rev_string_acc r (String a EmptyString)).
  destruct (TrimLeftSpaceRev_keeps_last a (rev_string EmptyString r) A S) as [y ->].
  rewrite rev_string_app. cbn [rev_string String.append]. eauto.
Qed.

(** ** The lines of the renderings *)

Lemma unlines_app (a b : list string) :
  unlines (a ++ b) = (unlines a ++ unlines b)%string.
Proof.
  induction a as [|l a IH]; simpl; [reflexivity|].
  now rewrite IH, !append_assoc.
Qed.

Lemma printChanges_unlines (bullet out : string) (changes : list string) :
  printChanges bullet out changes
  = (out ++ unlines (map (String.append bullet) changes))%string.
Proof.
  unfold printChanges. revert out.
  induction changes as [|c changes IH]; intros out; simpl.
  - now rewrite append_nil_r.
  - rewrite IH. now rewrite !append_assoc.
Qed.

Lemma outputMarkdown_lines (entry : ChangelogEntry) :
  outputMarkdown entry = unlines (markdownLines entry).
Proof.
  unfold outputMarkdown, markdownLines.
  rewrite printChanges_unlines.
  assert (F : forall secs out,
             fold_left
               (fun out section =>
                  let out := (out ++ "### " ++ Name section ++ eol ++ eol)%string in
                  let out := printChanges "- " out (Changes section) in
                  (out ++ eol)%string) secs out
             = (out ++ unlines (flat_map markdownSection secs))%string).
  { induction secs as [|s secs IH]; intros out; cbn [fold_left flat_map].
    - simpl. now rewrite append_nil_r.
    - rewrite IH. cbv zeta. rewrite printChanges_unlines.
      unfold markdownSection at 2.
      rewrite unlines_app. cbn [unlines fold_right app].
      rewrite unlines_app. cbn [unlines fold_right].
      now rewrite !append_assoc. }
  rewrite F. cbn [unlines fold_right]. rewrite unlines_app.
  unfold markdownTitle.
  destruct (negb (time.IsZero (ReleasedAt entry))); now rewrite !append_assoc.
Qed.

Lemma outputPlainText_lines (displayName : string) (entry : ChangelogEntry) :
  outputPlainText displayName entry = unlines (plainLines displayName entry).
Proof.
  unfold outputPlainText, plainLines.
  rewrite printChanges_unlines.
  assert (F : forall secs out,
             fold_left
               (fun out section =>
                  let out := (out ++ eol ++ "[" ++ Name section ++ "]" ++ eol)%string in
                  printChanges "  * " out (Changes section)) secs out
             = (out ++ unlines (flat_map plainSection secs))%string).
  { induction secs as [|s secs IH]; intros out; cbn [fold_left flat_map].
    - simpl. now rewrite append_nil_r.
    - rewrite IH. cbv zeta. rewrite printChanges_unlines.
      unfold plainSection at 2.
      rewrite unlines_app. cbn [unlines fold_right app].
      now rewrite !append_assoc. }
  rewrite F. cbn [unlines fold_right]. rewrite !unlines_app.
  unfold plainTitle.
  destruct (negb (time.IsZero (ReleasedAt entry)));
    destruct ((0 <? List.length (Sections entry))
              && (0 <? List.length (EntryChanges entry)));
    cbn [unlines fold_right]; now rewrite !append_assoc, ?append_nil_r.
Qed.

Lemma noLF_app (a b : string) :
  regexp.noLF (a ++ b)%string = regexp.noLF a && regexp.noLF b.
Proof.
  induction a as [|c a IH]; simpl; [reflexivity|]. now rewrite IH, andb_assoc.
Qed.

(** The lines of a text made of lines. *)
Lemma Split_unlines (ls : list string) :
  Forall (fun l => regexp.noLF l = true) ls ->
  strings.Split (unlines ls) LF = ls ++ [EmptyString].
Proof.
  induction 1 as [|l ls Hl _ IH]; [reflexivity|].
  cbn [unlines fold_right]. 
  change (l ++ eol ++ fold_right (fun l rest => (l ++ eol ++ rest)%string) "" ls)%string
    with (l ++ String LF (unlines ls))%string.
  now rewrite Split_join, (Split_line _ Hl), IH.
Qed.

Lemma utod_not_LF (u : nat) : u < 10 -> Ascii.eqb (timefmt.utod u) LF = false.
Proof.
  intros H. apply Ascii.eqb_neq. intros E.
  apply (f_equal nat_of_ascii) in E. unfold timefmt.utod in E.
  rewrite nat_ascii_embedding in E by lia. cbv in E. lia.
Qed.

Lemma noLF_decimalDigits (fuel u : nat) (acc : string) :
  regexp.noLF acc = true -> regexp.noLF (timefmt.decimalDigits fuel u acc) = true.
Proof.
  revert u acc; induction fuel as [|fuel IH]; intros u acc H;
    cbn [timefmt.decimalDigits]; [exact H|].
  assert (A : regexp.noLF (String (timefmt.utod (u mod 10)) acc) = true).
  { cbn [regexp.noLF]. rewrite utod_not_LF by (apply Nat.mod_upper_bound; lia).
    exact H. }
  destruct (u <? 10); [exact A | now apply IH].
Qed.

Lemma noLF_zeros (n : nat) : regexp.noLF (timefmt.zeros n) = true.
Proof. induction n as [|n IH]; [reflexivity | exact IH]. Qed.

Lemma noLF_appendInt (x : Z) (width : nat) :
  regexp.noLF (timefmt.appendInt x width) = true.
Proof.
  unfold timefmt.appendInt. rewrite noLF_app.
  apply andb_true_iff; split; [now destruct (x <? 0)%Z|].
  set (u := Z.abs_nat x).
  destruct ((width =? 2) && (u <? 100)) eqn:E2.
  { apply andb_true_iff in E2. destruct E2 as [_ E2]. apply Nat.ltb_lt in E2.
    cbn [regexp.noLF]. rewrite !utod_not_LF; trivial.
    - apply Nat.mod_upper_bound; lia.
    - apply Nat.Div0.div_lt_upper_bound; lia. }
  destruct ((width =? 4) && (u <? 100 * 100)) eqn:E4.
  { apply andb_true_iff in E4. destruct E4 as [_ E4]. apply Nat.ltb_lt in E4.
    cbn [regexp.noLF]. rewrite !utod_not_LF; trivial.
    - apply Nat.mod_upper_bound; lia.
    - apply Nat.mod_upper_bound; lia.
    - apply Nat.mod_upper_bound; lia.
    - apply Nat.Div0.div_lt_upper_bound; lia. }
  rewrite noLF_app, noLF_zeros. cbn [andb]. now apply noLF_decimalDigits.
Qed.

Lemma noLF_Format_DateOnly (t : time.Time) :
  regexp.noLF (timefmt.Format_DateOnly t) = true.
Proof.
  unfold timefmt.Format_DateOnly. now rewrite !noLF_app, !noLF_appendInt.
Qed.

Lemma noLF_markdownTitle (entry : ChangelogEntry) :
  regexp.noLF (Version entry) = true -> regexp.noLF (markdownTitle entry) = true.
Proof.
  intros H. unfold markdownTitle.
  destruct (negb (time.IsZero (ReleasedAt entry)));
    now rewrite !noLF_app, ?noLF_Format_DateOnly, H.
Qed.

(** ** The flat scan of the markdown rendering *)

Lemma parseChanges_per_line (content : string) :
  parseChanges content = flat_map dashBullet (strings.Split content LF).
Proof.
  rewrite parseChanges_lines.
  induction (strings.Split content LF) as [|l ls IH]; [reflexivity|].
  cbn [map filter flat_map]. unfold dashBullet at 1. cbv zeta.
  destruct (strings.HasPrefix (strings.TrimSpace l) "- "); cbn [map app]; now rewrite IH.
Qed.

(** A line that starts with ['#'] is not a bullet. *)
Lemma hash_line_not_bullet (r : string) :
  strings.HasPrefix (strings.TrimSpace (String "#" r)) "- " = false
  /\ strings.HasPrefix (strings.TrimSpace (String "#" r)) "* " = false.
Proof.
  destruct (TrimSpace_ascii_head "#" r) as [r' ->]; [cbv; lia | reflexivity |].
  split; reflexivity.
Qed.

(** A bullet line is left as it is by trimming. *)
Lemma TrimSpace_dash_bullet (c : string) :
  bulletText c -> strings.TrimSpace ("- " ++ c)%string = ("- " ++ c)%string.
Proof.
  intros (_ & R & N).
  apply (TrimSpace_prefixed "-" " " c); trivial. cbv; lia.
Qed.

Lemma dashBullet_hash (r : string) : dashBullet (String "#" r) = [].
Proof. unfold dashBullet. cbv zeta. now rewrite (proj1 (hash_line_not_bullet r)). Qed.

Lemma dashBullet_bullets (changes : list string) :
  Forall bulletText changes ->
  flat_map dashBullet (map (String.append "- ") changes) = changes.
Proof.
  induction 1 as [|c changes Hc _ IH]; [reflexivity|].
  cbn [map flat_map]. rewrite IH. unfold dashBullet. cbv zeta.
  rewrite (TrimSpace_dash_bullet c Hc), (HasPrefix_app "- "), (TrimPrefix_app "- ").
  reflexivity.
Qed.

Lemma noLF_bullets (marker : string) (changes : list string) :
  regexp.noLF marker = true ->
  Forall bulletText changes ->
  Forall (fun l => regexp.noLF l = true) (map (String.append marker) changes).
Proof.
  intros M. induction 1 as [|c changes (Hc & _) _ IH]; constructor; [|exact IH].
  now rewrite noLF_app, M, Hc.
Qed.

Lemma noLF_markdownLines (entry : ChangelogEntry) :
  regexp.noLF (Version entry) = true ->
  Forall printable (Sections entry) ->
  Forall bulletText (EntryChanges entry) ->
  Forall (fun l => regexp.noLF l = true) (markdownLines entry).
Proof.
  intros V S U. unfold markdownLines.
  constructor; [now apply noLF_markdownTitle|]. constructor; [reflexivity|].
  apply Forall_app; split; [|now apply noLF_bullets].
  induction S as [|s secs (Hn & Hc) _ IH]; [constructor|].
  cbn [flat_map]. apply Forall_app; split; [|exact IH].
  unfold markdownSection. constructor; [now rewrite noLF_app, Hn|].
  constructor; [reflexivity|].
  apply Forall_app; split; [now apply noLF_bullets | now repeat constructor].
Qed.

(** The flat bullet scan, run on the markdown rendering of an entry, finds
    the changes of its sections, section after section, and then its
    ungrouped changes: every change once, in the order of the entry. *)
Theorem parseChanges_of_outputMarkdown :
  forall entry,
    regexp.noLF (Version entry) = true ->
    Forall printable (Sections entry) ->
    Forall bulletText (EntryChanges entry) ->
    parseChanges (outputMarkdown entry)
    = flat_map Changes (Sections entry) ++ EntryChanges entry.
Proof.
  intros entry V S U.
  rewrite parseChanges_per_line, outputMarkdown_lines.
  rewrite (Split_unlines _ (noLF_markdownLines entry V S U)).
  assert (T : dashBullet (markdownTitle entry) = []).
  { unfold markdownTitle. destruct (negb _); apply dashBullet_hash. }
  assert (E : dashBullet EmptyString = []) by reflexivity.
  assert (Hsecs : flat_map dashBullet (flat_map markdownSection (Sections entry))
                  = flat_map Changes (Sections entry)).
  { induction S as [|s secs (Hn & Hc) _ IH]; [reflexivity|].
    cbn [flat_map]. rewrite flat_map_app, IH. f_equal.
    unfold markdownSection. cbn [flat_map].
    change (("### " ++ Name s)%string) with (String "#" ("## " ++ Name s)%string).
    rewrite dashBullet_hash, E. cbn [app].
    rewrite flat_map_app, (dashBullet_bullets _ Hc). cbn [flat_map].
    now rewrite E, !app_nil_r. }
  rewrite flat_map_app. cbn [flat_map]. rewrite E, app_nil_r.
  unfold markdownLines. cbn [flat_map]. rewrite T, E. cbn [app].
  now rewrite flat_map_app, Hsecs, (dashBullet_bullets _ U).
Qed.

Lemma parseChanges_of_outputMarkdown_witness :
  let entry :=
    {| Version := "1.2.0"; ReleasedAt := time.Date 2025 3 10 0 0 0 0 0; Source := "";
       Sections := [ {| Name := "Fixes"; Changes := ["a"; "* b"] |};
                     {| Name := "New"; Changes := ["@c"] |} ];
       EntryChanges := ["u"] |} in
  parseChanges (outputMarkdown entry) = ["a"; "* b"; "@c"; "u"].
Proof.
  intros entry.
  refine (parseChanges_of_outputMarkdown entry eq_refl _ _).
  - repeat constructor; discriminate.
  - repeat constructor; discriminate.
Defined.

(** ** Reading the markdown rendering back *)

Lemma isSpace_asciiSpace (c : ascii) :
  strings.asciiSpace c = false -> regexp.isSpace c = false.
Proof.
  unfold strings.asciiSpace, regexp.isSpace. cbv zeta.
  rewrite !orb_false_iff, andb_false_iff, !Nat.leb_gt, !Nat.eqb_neq.
  intros [H1 H2]. repeat split; lia.
Qed.

(** The heading line of a section is read as a header with the section's
    name. *)
Lemma heading_line (hashes n : string) :
  hashes = "#" \/ hashes = "##" \/ hashes = "###" ->
  headingText n ->
  headerNameOf (hashes ++ " " ++ n)%string = Some n.
Proof.
  intros Hh (L & T & N & _).
  destruct (TrimSpace_fixed n T) as [TL TR].
  destruct n as [|c r]; [contradiction|].
  pose proof (isSpace_asciiSpace c (TrimLeftSpace_fixed_head c r TL)) as Sc.
  assert (D : regexp.dotPlusEnd (String c r) = true).
  { unfold regexp.dotPlusEnd. now rewrite L. }
  unfold headerNameOf.
  assert (E : strings.TrimSpace (hashes ++ " " ++ String c r)%string
              = (hashes ++ " " ++ String c r)%string).
  { destruct Hh as [-> | [-> | ->]].
    - apply (TrimSpace_prefixed "#" " " (String c r)); trivial; cbv; lia.
    - apply (TrimSpace_prefixed "#" "# " (String c r)); trivial; cbv; lia.
    - apply (TrimSpace_prefixed "#" "## " (String c r)); trivial; cbv; lia. }
  rewrite E. unfold regexp.headerRegex_FindStringSubmatch.
  assert (R0 : regexp.run regexp.isSpace (String c r) = 0)
    by (cbn [regexp.run]; now rewrite Sc).
  destruct Hh as [-> | [-> | ->]]; cbn [String.append];
    repeat (change (regexp.run regexp.isHash (String "#" ?x))
              with (S (regexp.run regexp.isHash x)));
    change (regexp.run regexp.isHash (String " " (String c r))) with 0;
    cbn [Nat.min regexp.hashesThenRest drop];
    change (regexp.run regexp.isSpace (String " " (String c r)))
      with (S (regexp.run regexp.isSpace (String c r)));
    rewrite R0; cbn [regexp.spacesThenText drop]; rewrite D;
    change (index [?a; ?b] 1) with (Some b); cbn [option_map]; now rewrite T.
Qed.

Lemma scanLine_blank (st : scan) : scanLine st EmptyString = Some st.
Proof. apply scanLine_prose. now repeat split. Qed.

(** A bullet line with a text the parser keeps records that text. *)
Lemma scanLine_kept_bullet (st : scan) (c : string) :
  keptText c -> scanLine st ("- " ++ c)%string = Some (appendChange st c).
Proof.
  intros (B & M & S).
  pose proof (TrimSpace_dash_bullet c B) as E.
  rewrite (scanLine_other _ _ (bullet_not_header _ "- " _ E (or_introl eq_refl))).
  cbv zeta. rewrite E, (HasPrefix_app "- "), orb_true_l, (TrimPrefix_app "- ").
  rewrite (TrimPrefix_other _ _ S). unfold keepChange. rewrite M.
  destruct B as (_ & _ & N). apply String.eqb_neq in N. now rewrite N.
Qed.

(** The bullets of a list of kept texts, read under an open section, join
    that section. *)
Lemma scan_bullets_open (changes : list string) :
  Forall keptText changes ->
  forall secs ung cur,
    forRange scanLine (map (String.append "- ") changes)
      {| sections := secs; ungroupedChanges := ung; currentSection := Some cur |}
    = Some {| sections := secs; ungroupedChanges := ung;
              currentSection :=
                Some {| Name := Name cur; Changes := Changes cur ++ changes |} |}.
Proof.
  induction 1 as [|c changes Hc _ IH]; intros secs ung cur.
  - cbn [map forRange]. rewrite app_nil_r. now destruct cur.
  - cbn [map forRange]. rewrite (scanLine_kept_bullet _ c Hc).
    unfold appendChange. cbn [currentSection sections ungroupedChanges bind].
    rewrite IH. cbn [Name Changes]. now rewrite <- app_assoc.
Qed.

(** Read with no section open, they join the ungrouped changes. *)
Lemma scan_bullets_closed (changes : list string) :
  Forall keptText changes ->
  forall secs ung,
    forRange scanLine (map (String.append "- ") changes)
      {| sections := secs; ungroupedChanges := ung; currentSection := None |}
    = Some {| sections := secs; ungroupedChanges := ung ++ changes;
              currentSection := None |}.
Proof.
  induction 1 as [|c changes Hc _ IH]; intros secs ung.
  - cbn [map forRange]. now rewrite app_nil_r.
  - cbn [map forRange]. rewrite (scanLine_kept_bullet _ c Hc).
    unfold appendChange. cbn [currentSection sections ungroupedChanges bind].
    rewrite IH. now rewrite <- app_assoc.
Qed.

(** The lines of one section take the scan to that section, open, after
    flushing the one that was open. *)
Lemma scan_markdownSection (s : Section) (st : scan) :
  readable s ->
  forRange scanLine (markdownSection s) st
  = Some {| sections := flush (sections st) (currentSection st);
            ungroupedChanges := ungroupedChanges st;
            currentSection := Some s |}.
Proof.
  intros (Hn & Hc & _). unfold markdownSection.
  cbn [forRange].
  pose proof (heading_line "###" (Name s) (or_intror (or_intror eq_refl)) Hn) as Hh.
  rewrite (scanLine_header _ _ _ Hh).
  destruct Hn as (_ & _ & _ & W). apply String.eqb_neq in W. rewrite W.
  cbn [bind]. rewrite scanLine_blank. cbn [bind].
  rewrite forRange_app, (scan_bullets_open _ Hc). cbn [bind forRange].
  rewrite scanLine_blank. cbn [bind Name Changes app]. now destruct s.
Qed.

Lemma flush_populated (secs : list Section) (s : Section) :
  Changes s <> [] -> flush secs (Some s) = secs ++ [s].
Proof. intros H. rewrite flush_cases. now destruct (Changes s). Qed.

(** The lines of a list of sections take the scan to the last of them, open,
    the others closed behind it. *)
Lemma scan_markdownSections (secs : list Section) :
  Forall readable secs -> secs <> [] ->
  forall st,
    forRange scanLine (flat_map markdownSection secs) st
    = Some {| sections := flush (sections st) (currentSection st) ++ removelast secs;
              ungroupedChanges := ungroupedChanges st;
              currentSection := Some (last secs {| Name := ""; Changes := [] |}) |}.
Proof.
  induction 1 as [|s secs Hs Hsecs IH]; intros N st; [contradiction|].
  cbn [flat_map]. rewrite forRange_app, (scan_markdownSection s st Hs). cbn [bind].
  destruct secs as [|s' secs'].
  - cbn [flat_map forRange removelast last]. now rewrite app_nil_r.
  - rewrite IH by discriminate.
    cbn [sections currentSection ungroupedChanges].
    destruct Hs as (_ & _ & P). rewrite (flush_populated _ s P), <- app_assoc.
    reflexivity.
Qed.

(** A title line leaves the scan without a section and without a change. *)
Lemma scan_title (r : string) :
  exists st, scanLine scan0 (String "#" r) = Some st /\ untouched st.
Proof.
  destruct (headerNameOf (String "#" r)) as [name|] eqn:E.
  - rewrite (scanLine_header _ _ _ E).
    destruct (String.eqb name "What's Changed"); eexists; (split; [reflexivity|]).
    + repeat split; discriminate.
    + repeat split. cbn [currentSection]. intros cs H. now inversion H.
  - rewrite (scanLine_other _ _ E). cbv zeta.
    destruct (hash_line_not_bullet r) as [-> ->]. cbn [orb].
    eexists; split; [reflexivity|]. repeat split; discriminate.
Qed.

Lemma flush_untouched (st : scan) :
  untouched st -> flush (sections st) (currentSection st) = [].
Proof.
  intros (S & _ & C). rewrite flush_cases, S.
  destruct (currentSection st) as [cs|]; [|reflexivity]. now rewrite (C cs eq_refl).
Qed.

Lemma markdownTitle_hash (entry : ChangelogEntry) :
  exists r, markdownTitle entry = String "#" r.
Proof. unfold markdownTitle. destruct (negb _); eexists; reflexivity. Qed.

Lemma keptText_bulletText (changes : list string) :
  Forall keptText changes -> Forall bulletText changes.
Proof. apply Forall_impl. now intros c (B & _). Qed.

Lemma readable_printable (secs : list Section) :
  Forall readable secs -> Forall printable secs.
Proof.
  apply Forall_impl. intros s ((L & _) & C & _). split; [exact L|].
  now apply keptText_bulletText.
Qed.

(** The markdown rendering of an entry, read by the release-body parser.
    Without ungrouped changes the sections come back as they were.  With
    sections and ungrouped changes, the ungrouped changes come back at the end
    of the last section, and none comes back ungrouped. *)
Theorem parseReleaseBody_of_outputMarkdown :
  forall entry,
    regexp.noLF (Version entry) = true ->
    Forall readable (Sections entry) ->
    Forall keptText (EntryChanges entry) ->
    (EntryChanges entry = [] ->
     parseReleaseBody (outputMarkdown entry) = Some (Sections entry, []))
    /\ (forall init final,
          Sections entry = init ++ [final] ->
          parseReleaseBody (outputMarkdown entry)
          = Some (init ++ [ {| Name := Name final;
                               Changes := Changes final ++ EntryChanges entry |} ],
                  [])).
Proof.
  intros entry V S U.
  assert (Hlines : strings.Split (outputMarkdown entry) LF
                   = markdownLines entry ++ [EmptyString]).
  { rewrite outputMarkdown_lines. apply Split_unlines.
    apply noLF_markdownLines; trivial.
    - now apply readable_printable.
    - now apply keptText_bulletText. }
  destruct (markdownTitle_hash entry) as [r Hr].
  destruct (scan_title r) as (st1 & Ht & F1).
  assert (Hsome : forall init final,
             Sections entry = init ++ [final] ->
             parseReleaseBody (outputMarkdown entry)
             = Some (init ++ [ {| Name := Name final;
                                  Changes := Changes final ++ EntryChanges entry |} ],
                     [])).
  { intros init final E. unfold parseReleaseBody. rewrite Hlines.
    unfold markdownLines. rewrite Hr.
    cbn [app forRange]. rewrite Ht. cbn [bind]. rewrite scanLine_blank. cbn [bind].
    rewrite <- app_assoc, forRange_app.
    rewrite (scan_markdownSections _ S) by (rewrite E; now destruct init).
    cbn [bind]. rewrite forRange_app, (scan_bullets_open _ U). cbn [bind forRange].
    rewrite scanLine_blank. cbn [bind sections currentSection ungroupedChanges].
    rewrite (flush_untouched _ F1), E, removelast_last, last_last. cbn [app].
    destruct F1 as (_ & -> & _). f_equal. f_equal.
    apply flush_populated. cbn [Changes].
    rewrite E in S. apply Forall_app in S. destruct S as [_ S].
    inversion S as [|? ? (_ & _ & P) _]; subst.
    intros C. apply app_eq_nil in C. now destruct C. }
  split; [|exact Hsome].
  intros E0.
  destruct (Sections entry) as [|s secs] eqn:Esecs.
  - unfold parseReleaseBody. rewrite Hlines. unfold markdownLines.
    rewrite Hr, Esecs, E0. cbn [flat_map map app forRange].
    rewrite Ht. cbn [bind]. repeat (rewrite scanLine_blank; cbn [bind forRange]).
    rewrite (flush_untouched _ F1). now destruct F1 as (_ & -> & _).
  - destruct (exists_last (l := s :: secs)) as (init & final & E); [discriminate|].
    rewrite (Hsome init final E), E0, app_nil_r, E. now destruct final.
Qed.

Ltac texts := repeat (constructor || split); try reflexivity; try discriminate.

Lemma parseReleaseBody_of_outputMarkdown_witness :
  let fixes := {| Name := "Bug Fixes"; Changes := ["a"; " indented"] |} in
  let added := {| Name := "New"; Changes := ["c (#12)"] |} in
  let entry :=
    {| Version := "0.76.0"; ReleasedAt := time.Date 2025 12 19 15 30 0 0 0;
       Source := ""; Sections := [fixes; added]; EntryChanges := ["u"] |} in
  parseReleaseBody (outputMarkdown entry)
  = Some ([fixes; {| Name := "New"; Changes := ["c (#12)"; "u"] |}], []).
Proof.
  intros fixes added entry.
  refine (proj2 (parseReleaseBody_of_outputMarkdown entry eq_refl _ _)
            [fixes] added eq_refl); texts.
Defined.



(** ** Reading the plain-text rendering back *)

(** A line that starts with an ASCII character other than white space, ['#'],
    ['-'] and ['*'] is neither a header nor a bullet. *)
Lemma prose_ascii_start (a : ascii) (x : string) :
  byte a < 128 -> strings.asciiSpace a = false ->
  byte a <> 35 -> byte a <> 45 -> byte a <> 42 ->
  prose (String a x).
Proof.
  intros A S H D T.
  destruct (TrimSpace_ascii_head a x A S) as [r' E].
  unfold prose, headerNameOf. rewrite E. repeat split.
  - rewrite headerRegex_no_hash; [reflexivity|].
    cbn [regexp.run]. unfold regexp.isHash.
    now replace (byte a =? 35) with false by (symmetry; now apply Nat.eqb_neq).
  - unfold strings.HasPrefix. rewrite prefix_cons.
    destruct (ascii_dec "-" a) as [<-|]; [|reflexivity]. now contradiction D.
  - unfold strings.HasPrefix. rewrite prefix_cons.
    destruct (ascii_dec "*" a) as [<-|]; [|reflexivity]. now contradiction T.
Qed.

Lemma TrimSpace_star_bullet (c : string) :
  bulletText c -> strings.TrimSpace ("  * " ++ c)%string = ("* " ++ c)%string.
Proof.
  intros (_ & R & N).
  transitivity (strings.TrimSpace ("* " ++ c)%string).
  - reflexivity.
  - apply (TrimSpace_prefixed "*" " " c); trivial. cbv; lia.
Qed.

Lemma scanLine_star_bullet (st : scan) (c : string) :
  starText c -> scanLine st ("  * " ++ c)%string = Some (appendChange st c).
Proof.
  intros (B & M).
  pose proof (TrimSpace_star_bullet c B) as E.
  rewrite (scanLine_other _ _ (bullet_not_header _ "* " _ E (or_intror eq_refl))).
  cbv zeta. rewrite E, (HasPrefix_app "* "), orb_true_r.
  rewrite (TrimPrefix_other _ "- ") by reflexivity.
  rewrite (TrimPrefix_app "* "). unfold keepChange. rewrite M.
  destruct B as (_ & _ & N). apply String.eqb_neq in N. now rewrite N.
Qed.

Lemma scan_star_bullets (changes : list string) :
  Forall starText changes ->
  forall ung,
    forRange scanLine (map (String.append "  * ") changes)
      {| sections := []; ungroupedChanges := ung; currentSection := None |}
    = Some {| sections := []; ungroupedChanges := ung ++ changes;
              currentSection := None |}.
Proof.
  induction 1 as [|c changes Hc _ IH]; intros ung.
  - cbn [map forRange]. now rewrite app_nil_r.
  - cbn [map forRange]. rewrite (scanLine_star_bullet _ c Hc).
    unfold appendChange. cbn [currentSection sections ungroupedChanges bind].
    rewrite IH. now rewrite <- app_assoc.
Qed.

Lemma starText_bulletText (changes : list string) :
  Forall starText changes -> Forall bulletText changes.
Proof. apply Forall_impl. now intros c (B & _). Qed.

Lemma prose_plainTitle (displayName : string) (entry : ChangelogEntry) :
  plainStart displayName -> prose (plainTitle displayName entry).
Proof.
  unfold plainStart, plainTitle. destruct displayName as [|a d]; [contradiction|].
  intros (A & S & H & D & T).
  destruct (negb _); cbn [String.append]; now apply prose_ascii_start.
Qed.

Lemma noLF_plainTitle (displayName : string) (entry : ChangelogEntry) :
  regexp.noLF displayName = true -> regexp.noLF (Version entry) = true ->
  regexp.noLF (plainTitle displayName entry) = true.
Proof.
  intros D V. unfold plainTitle.
  destruct (negb _); now rewrite !noLF_app, ?noLF_Format_DateOnly, D, V.
Qed.

(** The plain-text rendering of an entry, read by the release-body parser,
    has no section: every change of the entry comes back ungrouped, those of
    the sections first, in the order of the entry. *)
Theorem parseReleaseBody_of_outputPlainText :
  forall displayName entry,
    plainStart displayName ->
    regexp.noLF displayName = true ->
    regexp.noLF (Version entry) = true ->
    Forall (fun s => regexp.noLF (Name s) = true /\ Forall starText (Changes s))
      (Sections entry) ->
    Forall starText (EntryChanges entry) ->
    parseReleaseBody (outputPlainText displayName entry)
    = Some ([], flat_map Changes (Sections entry) ++ EntryChanges entry).
Proof.
  intros displayName entry P D V S U.
  assert (Hsecs : forall ung,
             forRange scanLine (flat_map plainSection (Sections entry))
               {| sections := []; ungroupedChanges := ung; currentSection := None |}
             = Some {| sections := [];
                       ungroupedChanges := ung ++ flat_map Changes (Sections entry);
                       currentSection := None |}
             /\ Forall (fun l => regexp.noLF l = true)
                  (flat_map plainSection (Sections entry))).
  { induction S as [|s secs (Hn & Hc) _ IH]; intros ung.
    - cbn [flat_map forRange]. rewrite app_nil_r. split; [reflexivity | constructor].
    - cbn [flat_map]. destruct (IH (ung ++ Changes s)) as [IH1 IH2]. split.
      + rewrite forRange_app. unfold plainSection at 1. cbn [forRange].
        rewrite scanLine_blank. cbn [bind]. cbn [String.append].
        rewrite (scanLine_prose _ _ (prose_ascii_start "[" _ ltac:(cbv; lia) eq_refl
                                       ltac:(cbv; lia) ltac:(cbv; lia) ltac:(cbv; lia))).
        cbn [bind]. rewrite (scan_star_bullets _ Hc). cbn [bind].
        rewrite IH1. now rewrite <- app_assoc.
      + apply Forall_app; split; [|exact IH2]. unfold plainSection.
        constructor; [reflexivity|]. constructor.
        * now rewrite !noLF_app, Hn.
        * apply noLF_bullets; [reflexivity | now apply starText_bulletText]. }
  destruct (Hsecs []) as [Hrun Hno].
  assert (Hgap : Forall prose
            (if (0 <? List.length (Sections entry))
                && (0 <? List.length (EntryChanges entry))
             then [EmptyString] else [])).
  { destruct (_ && _); repeat constructor. }
  assert (Hlines : strings.Split (outputPlainText displayName entry) LF
                   = plainLines displayName entry ++ [EmptyString]).
  { rewrite outputPlainText_lines. apply Split_unlines. unfold plainLines.
    constructor; [now apply noLF_plainTitle|]. constructor; [reflexivity|].
    apply Forall_app; split; [exact Hno|]. apply Forall_app; split.
    - destruct (_ && _); repeat constructor.
    - apply noLF_bullets; [reflexivity | now apply starText_bulletText]. }
  unfold parseReleaseBody. rewrite Hlines. unfold plainLines.
  cbn [app forRange].
  rewrite (scanLine_prose _ _ (prose_plainTitle displayName entry P)). cbn [bind].
  assert (Hdash : prose (Repeat "-" 40)) by (repeat split; reflexivity).
  rewrite (scanLine_prose _ _ Hdash). cbn [bind].
  rewrite <- !app_assoc, forRange_app. unfold scan0. rewrite Hrun. cbn [bind].
  rewrite forRange_app, (forRange_prose _ _ Hgap). cbn [bind].
  rewrite forRange_app, (scan_star_bullets _ U). cbn [bind forRange].
  now rewrite scanLine_blank.
Qed.

Lemma parseReleaseBody_of_outputPlainText_witness :
  let entry :=
    {| Version := "0.76.0"; ReleasedAt := time.Date 2025 12 19 15 30 0 0 0;
       Source := "OpenAI Codex";
       Sections := [ {| Name := "New Features"; Changes := ["a"; "* b"] |};
                     {| Name := "Fixes"; Changes := ["c"] |} ];
       EntryChanges := ["u"] |} in
  parseReleaseBody (outputPlainText "OpenAI Codex" entry)
  = Some ([], ["a"; "* b"; "c"; "u"]).
Proof.
  intros entry.
  refine (parseReleaseBody_of_outputPlainText "OpenAI Codex" entry _ eq_refl eq_refl _ _);
    texts; cbv; lia.
Defined.

(** ** The date of the Claude changelog *)

Lemma Time_eqb_eq (a b : time.Time) : time.Time_eqb a b = true -> a = b.
Proof.
  destruct a, b. unfold time.Time_eqb. cbn.
  rewrite !andb_true_iff, !Z.eqb_eq. intuition congruence.
Qed.

(** The entries of the undated parser carry no date, no source and no
    section. *)
Lemma undated_entries_bare (content : string) (versionRegex : regexp.Regexp)
    (entries : list ChangelogEntry) :
  parseMarkdownChangelog content versionRegex = Some entries ->
  Forall (fun e => ReleasedAt e = time.zero /\ Source e = EmptyString /\ Sections e = [])
    entries.
Proof.
  unfold parseMarkdownChangelog. intros H.
  destruct (forRangeAppend_Some _ _ _ _ _ H) as (bs & E & Hlen & Hnth).
  simpl in E; subst bs. apply Forall_forall. intros e Hin.
  destruct (In_nth_error _ _ Hin) as [i Hi].
  set (matches := regexp.FindAllStringSubmatchIndex versionRegex content) in *.
  destruct (nth_error matches i) as [m|] eqn:Hm.
  - destruct (Hnth i m Hm) as (e' & He' & Hbody). rewrite Hi in He'.
    inversion He'; subst e'. simpl in Hbody. unfold changelogEntryAt in Hbody.
    destruct (index m 1); [|discriminate]. cbn [bind] in Hbody.
    destruct (index m 2); [|discriminate]. cbn [bind] in Hbody.
    destruct (index m 3); [|discriminate]. cbn [bind] in Hbody.
    destruct (slice content _ _); [|discriminate]. cbn [bind] in Hbody.
    destruct (sectionContent _ _ _ _); [|discriminate]. cbn [bind] in Hbody.
    inversion Hbody. now repeat split.
  - apply nth_error_None in Hm.
    assert (i < List.length entries) by (apply nth_error_Some; congruence). lia.
Qed.

(** Whatever the document and the date of its last commit, a time in UTC,
    fetching the Claude changelog succeeds with the entries the parser
    finds, versions and changes untouched; the first entry carries the commit
    date (the zero time when there is none) and every other entry carries no
    date. *)
Theorem fetchClaudeChangelogAt_dates_first_entry :
  forall content commitDate,
  time.ZoneOffset commitDate = 0%Z ->
  exists parsed entries,
    fetchClaudeChangelog content = Some parsed
    /\ fetchClaudeChangelogAt content commitDate = Some entries
    /\ map Version entries = map Version parsed
    /\ map EntryChanges entries = map EntryChanges parsed
    /\ (forall first, nth_error entries 0 = Some first -> ReleasedAt first = commitDate)
    /\ (forall i e, nth_error entries (S i) = Some e -> ReleasedAt e = time.zero).
Proof.
  intros content commitDate _.
  destruct (undated_parser_total content regexp.claudeVersionRegex
              (claudeVersionRegex_wf content)) as [parsed Hp].
  pose proof (undated_entries_bare _ _ _ Hp) as B.
  unfold fetchClaudeChangelogAt, fetchClaudeChangelog. rewrite Hp. cbn [bind].
  exists parsed. destruct parsed as [|first rest].
  - exists []. do 4 (split; [reflexivity|]). split; intros; discriminate.
  - inversion B as [|? ? (Hz & _) Hrest]; subst.
    assert (R : forall i e, nth_error rest i = Some e -> ReleasedAt e = time.zero).
    { intros i e Hi. rewrite Forall_forall in Hrest.
      exact (proj1 (Hrest e (nth_error_In _ _ Hi))). }
    destruct (time.IsZero commitDate) eqn:Z; cbn [negb].
    + exists (first :: rest). do 4 (split; [reflexivity|]). split.
      * intros f Hf. inversion Hf; subst f. rewrite Hz. symmetry.
        now apply Time_eqb_eq.
      * intros i e Hi. exact (R i e Hi).
    + eexists. do 4 (split; [reflexivity|]). split.
      * intros f Hf. now inversion Hf.
      * intros i e Hi. exact (R i e Hi).
Qed.

Lemma fetchClaudeChangelogAt_dates_first_entry_witness :
  let content := "## 2.0.1" +\n+ "- b" +\n+ "## 2.0.0" +\n+ "- a" in
  let commitDate := time.Date 2025 11 3 17 45 12 0 0 in
  exists parsed entries,
    fetchClaudeChangelog content = Some parsed
    /\ fetchClaudeChangelogAt content commitDate = Some entries
    /\ map Version entries = map Version parsed
    /\ map EntryChanges entries = map EntryChanges parsed
    /\ (forall first, nth_error entries 0 = Some first -> ReleasedAt first = commitDate)
    /\ (forall i e, nth_error entries (S i) = Some e -> ReleasedAt e = time.zero).
Proof.
  intros content commitDate.
  exact (fetchClaudeChangelogAt_dates_first_entry content commitDate eq_refl).
Defined.

(** ** The command line *)

Lemma versionFree_cons (arg : string) (rest : list string) :
  versionFree (arg :: rest) ->
  String.eqb arg "-version" = false /\ String.eqb arg "--version" = false
  /\ versionFree rest.
Proof.
  intros [H1 H2]. repeat split.
  - apply String.eqb_neq. intros ->. apply H1. now left.
  - apply String.eqb_neq. intros ->. apply H2. now left.
  - intros H. apply H1. now right.
  - intros H. apply H2. now right.
Qed.

(** Arguments without [-version] are read one by one. *)
Lemma parseFlags_app (a b : list string) :
  versionFree a ->
  forall fl, parseFlags fl (a ++ b) = parseFlags (parseFlags fl a) b.
Proof.
  induction a as [|arg rest IH]; intros VF fl; [reflexivity|].
  destruct (versionFree_cons _ _ VF) as (V1 & V2 & VF').
  cbn [app parseFlags]. rewrite V1, V2. cbn [orb].
  repeat match goal with
         | |- context [if ?c then _ else _] => destruct c
         end; now apply IH.
Qed.

Lemma parseFlags_versionFree (args : list string) :
  versionFree args ->
  forall fl,
    (jsonOutput (parseFlags fl args) = true
     <-> jsonOutput fl = true \/ In "-json" args \/ In "--json" args)
    /\ (mdOutput (parseFlags fl args) = true
        <-> mdOutput fl = true \/ In "-md" args \/ In "--md" args)
    /\ (listVersions (parseFlags fl args) = true
        <-> listVersions fl = true \/ In "-list" args \/ In "--list" args)
    /\ targetVersion (parseFlags fl args) = targetVersion fl.
Proof.
  induction args as [|arg rest IH]; intros VF fl.
  - cbn [parseFlags In]. tauto.
  - destruct (versionFree_cons _ _ VF) as (V1 & V2 & VF').
    cbn [parseFlags In]. rewrite V1, V2. cbn [orb].
    destruct (String.eqb_spec arg "-json") as [->|N1];
      [|destruct (String.eqb_spec arg "--json") as [->|N2];
        [|destruct (String.eqb_spec arg "-md") as [->|N3];
          [|destruct (String.eqb_spec arg "--md") as [->|N4];
            [|destruct (String.eqb_spec arg "-list") as [->|N5];
              [|destruct (String.eqb_spec arg "--list") as [->|N6]]]]]];
      cbn [orb];
      match goal with
      | |- context [parseFlags ?f rest] =>
          destruct (IH VF' f) as (J & M & L & T)
      end;
      cbn [jsonOutput mdOutput listVersions targetVersion] in *;
      rewrite J, M, L, T;
      repeat split; try tauto;
      intros [H | [[H | H] | [H | H]]]; auto; try discriminate; congruence.
Qed.

(** Among arguments without [-version], a flag is set exactly when one of
    its two spellings is among them, and no version is asked for.  After
    them, [-version] takes the next argument as the version, whatever it
    is, and that argument is not read as a flag; a [-version] in last place
    is ignored. *)
Theorem parseFlags_reads :
  forall args,
    versionFree args ->
    let fl := parseFlags noFlags args in
    (jsonOutput fl = true <-> In "-json" args \/ In "--json" args)
    /\ (mdOutput fl = true <-> In "-md" args \/ In "--md" args)
    /\ (listVersions fl = true <-> In "-list" args \/ In "--list" args)
    /\ targetVersion fl = EmptyString
    /\ (forall flag value rest,
          flag = "-version" \/ flag = "--version" ->
          parseFlags noFlags (args ++ flag :: value :: rest)
          = parseFlags (withTarget fl value) rest)
    /\ (forall flag,
          flag = "-version" \/ flag = "--version" ->
          parseFlags noFlags (args ++ [flag]) = fl).
Proof.
  intros args VF fl.
  destruct (parseFlags_versionFree args VF noFlags) as (J & M & L & T).
  cbn [jsonOutput mdOutput listVersions targetVersion noFlags] in J, M, L, T.
  fold fl in J, M, L, T.
  split; [rewrite J; intuition discriminate|].
  split; [rewrite M; intuition discriminate|].
  split; [rewrite L; intuition discriminate|].
  split; [exact T|]. split.
  - intros flag value rest [-> | ->]; now rewrite (parseFlags_app _ _ VF).
  - intros flag [-> | ->]; now rewrite (parseFlags_app _ _ VF).
Qed.

Lemma parseFlags_reads_witness :
  parseFlags noFlags ["--md"; "extra"; "-version"; "-json"; "-list"]
  = {| jsonOutput := false; mdOutput := true; listVersions := true;
       targetVersion := "-json" |}
  /\ parseFlags noFlags ["-json"; "--version"]
     = {| jsonOutput := true; mdOutput := false; listVersions := false;
          targetVersion := "" |}.
Proof.
  assert (V1 : versionFree ["--md"; "extra"]).
  { split; intros [H | [H | []]]; discriminate. }
  assert (V2 : versionFree ["-json"]).
  { split; intros [H | []]; discriminate. }
  split.
  - exact (proj1 (proj2 (proj2 (proj2 (proj2 (parseFlags_reads _ V1)))))
             "-version" "-json" ["-list"] (or_introl eq_refl)).
  - exact (proj2 (proj2 (proj2 (proj2 (proj2 (parseFlags_reads _ V2)))))
             "--version" (or_intror eq_refl)).
Defined.

(** The search for a version finds the first entry that has it. *)
Lemma findVersion_first (before after : list ChangelogEntry) (e : ChangelogEntry)
    (v : string) :
  Version e = v -> Forall (fun x => Version x <> v) before ->
  findVersion (before ++ e :: after) v = Some e.
Proof.
  intros E. induction 1 as [|x before Hx _ IH]; cbn [app findVersion].
  - apply String.eqb_eq in E. now rewrite E.
  - apply String.eqb_neq in Hx. now rewrite Hx.
Qed.

Lemma findVersion_none (entries : list ChangelogEntry) (v : string) :
  Forall (fun x => Version x <> v) entries -> findVersion entries v = None.
Proof.
  induction 1 as [|x entries Hx _ IH]; cbn [findVersion]; [reflexivity|].
  apply String.eqb_neq in Hx. now rewrite Hx.
Qed.

(** When a version is asked for and the versions are not listed, the program
    prints the first entry that has exactly that version, in the format the
    flags choose (JSON before markdown before plain text), and it fails with
    status 1 when no entry has it.  An empty version counts as none asked:
    the first entry is printed. *)
Theorem main_prints_the_requested_version :
  forall outputJSON displayName args entries,
    let fl := parseFlags noFlags args in
    let print := fun entry =>
      if jsonOutput fl then outputJSON entry
      else if mdOutput fl
           then {| exitCode := 0; stdout := outputMarkdown entry; stderr := "" |}
           else {| exitCode := 0; stdout := outputPlainText displayName entry;
                   stderr := "" |} in
    entries <> [] ->
    listVersions fl = false ->
    (targetVersion fl <> EmptyString ->
     Forall (fun x => Version x <> targetVersion fl) entries ->
     mainFrom outputJSON displayName args (inl entries)
     = {| exitCode := 1; stdout := "";
          stderr := ("Error: Version " ++ targetVersion fl ++ " not found" ++ eol)%string |})
    /\ (forall before e after,
          targetVersion fl <> EmptyString ->
          entries = before ++ e :: after ->
          Version e = targetVersion fl ->
          Forall (fun x => Version x <> targetVersion fl) before ->
          mainFrom outputJSON displayName args (inl entries) = print e)
    /\ (forall first rest,
          targetVersion fl = EmptyString ->
          entries = first :: rest ->
          mainFrom outputJSON displayName args (inl entries) = print first).
Proof.
  intros outputJSON displayName args entries fl print N L.
  assert (Z : (List.length entries =? 0) = false).
  { destruct entries; [contradiction | reflexivity]. }
  unfold mainFrom. fold fl. rewrite Z, L. repeat split.
  - intros T H. apply String.eqb_neq in T. rewrite T. cbn [negb].
    now rewrite (findVersion_none _ _ H).
  - intros before e after T E V H. apply String.eqb_neq in T. rewrite T. cbn [negb].
    now rewrite E, (findVersion_first _ _ _ _ V H).
  - intros first rest T E. rewrite T, E. reflexivity.
Qed.

Lemma main_prints_the_requested_version_witness :
  let e1 := {| Version := "2.0.0"; ReleasedAt := time.zero; Source := "";
               Sections := []; EntryChanges := ["a"] |} in
  let e2 := {| Version := "1.5.0"; ReleasedAt := time.Date 2025 3 10 0 0 0 0 0;
               Source := ""; Sections := []; EntryChanges := ["b"] |} in
  let e3 := {| Version := "1.5.0"; ReleasedAt := time.zero; Source := "";
               Sections := []; EntryChanges := ["c"] |} in
  let outputJSON := fun _ : ChangelogEntry =>
                      {| exitCode := 0; stdout := "{}"; stderr := "" |} in
  mainFrom outputJSON "Copilot" ["-version"; "1.5.0"; "-md"] (inl [e1; e2; e3])
  = {| exitCode := 0;
       stdout := "## 1.5.0 (2025-03-10)" +\n+ "" +\n+ "- b" +\n+ "";
       stderr := "" |}
  /\ mainFrom outputJSON "Copilot" ["-version"; "9.9"] (inl [e1; e2; e3])
     = {| exitCode := 1; stdout := "";
          stderr := "Error: Version 9.9 not found" +\n+ "" |}.
Proof.
  intros e1 e2 e3 outputJSON. split.
  - refine (proj1 (proj2 (main_prints_the_requested_version outputJSON "Copilot"
                            ["-version"; "1.5.0"; "-md"] [e1; e2; e3] _ eq_refl))
              [e1] e2 [e3] _ eq_refl eq_refl _); texts.
  - refine (proj1 (main_prints_the_requested_version outputJSON "Copilot"
                     ["-version"; "9.9"] [e1; e2; e3] _ eq_refl) _ _); texts.
Defined.

Lemma listing_unlines (entries : list ChangelogEntry) (out : string) :
  fold_left (fun out entry => (out ++ Version entry ++ eol)%string) entries out
  = (out ++ unlines (map Version entries))%string.
Proof.
  revert out; induction entries as [|e entries IH]; intros out; cbn [fold_left map].
  - simpl. now rewrite append_nil_r.
  - rewrite IH. cbn [unlines fold_right]. now rewrite !append_assoc.
Qed.

(** With [-list] the program prints the versions of all the entries, one on
    each line, in the order of the entries, and stops with status 0: a
    version asked for is not looked up and no entry is printed.  Without any
    entry it fails with status 1 whatever the arguments; so it does when the
    fetch failed. *)
Theorem main_lists_versions :
  forall outputJSON displayName args,
    (forall entries,
        entries <> [] ->
        listVersions (parseFlags noFlags args) = true ->
        Forall (fun e => regexp.noLF (Version e) = true) entries ->
        let outcome := mainFrom outputJSON displayName args (inl entries) in
        exitCode outcome = 0%Z /\ stderr outcome = EmptyString
        /\ strings.Split (stdout outcome) LF = map Version entries ++ [EmptyString])
    /\ mainFrom outputJSON displayName args (inl [])
       = {| exitCode := 1; stdout := "";
            stderr := ("Error: No changelog entries found" ++ eol)%string |}
    /\ (forall err,
          mainFrom outputJSON displayName args (inr err)
          = {| exitCode := 1; stdout := "";
               stderr := ("Error fetching changelog: " ++ err ++ eol)%string |}).
Proof.
  intros outputJSON displayName args. split; [|split; reflexivity].
  intros entries N L V outcome. unfold outcome, mainFrom.
  assert (Z : (List.length entries =? 0) = false).
  { destruct entries; [contradiction | reflexivity]. }
  rewrite Z, L. cbn [exitCode stderr stdout]. repeat split.
  rewrite listing_unlines. cbn [String.append]. apply Split_unlines.
  now apply Forall_map.
Qed.

Lemma main_lists_versions_witness :
  let e1 := {| Version := "2.0.0"; ReleasedAt := time.zero; Source := "";
               Sections := []; EntryChanges := ["a"] |} in
  let e2 := {| Version := "1.5.0"; ReleasedAt := time.zero; Source := "";
               Sections := []; EntryChanges := ["b"] |} in
  let outputJSON := fun _ : ChangelogEntry =>
                      {| exitCode := 0; stdout := "{}"; stderr := "" |} in
  let outcome :=
    mainFrom outputJSON "Claude Code" ["-version"; "9.9"; "--list"; "-json"]
      (inl [e1; e2]) in
  exitCode outcome = 0%Z /\ stderr outcome = ""
  /\ strings.Split (stdout outcome) LF = ["2.0.0"; "1.5.0"; ""].
Proof.
  intros e1 e2 outputJSON.
  refine (proj1 (main_lists_versions outputJSON "Claude Code"
                   ["-version"; "9.9"; "--list"; "-json"]) [e1; e2] _ eq_refl _); texts.
Defined.

(** ** The release body, header by header *)

Lemma flush_app (secs more : list Section) (cur : option Section) :
  flush (secs ++ more) cur = secs ++ flush more cur.
Proof.
  unfold flush. destruct cur as [cs|]; [|reflexivity].
  destruct (0 <? List.length (Changes cs)); [symmetry; apply app_assoc | reflexivity].
Qed.

(** Once a section is open, a line leaves one open and adds no ungrouped
    change; and what it does to the variables of the loop does not depend on
    the sections closed before or on the ungrouped changes. *)
Lemma scanLine_behind (secs : list Section) (ung : list string) (st : scan)
    (line : string) :
  currentSection st <> None ->
  exists st', scanLine st line = Some st'
              /\ scanLine (behind secs ung st) line = Some (behind secs ung st')
              /\ currentSection st' <> None
              /\ ungroupedChanges st' = ungroupedChanges st.
Proof.
  intros O. destruct (headerNameOf line) as [name|] eqn:E.
  - rewrite !(scanLine_header _ _ _ E).
    destruct (String.eqb name "What's Changed").
    + exists st. now repeat split.
    + eexists. split; [reflexivity|]. repeat split; [|discriminate].
      unfold behind. cbn [sections currentSection ungroupedChanges].
      now rewrite flush_app.
  - rewrite !(scanLine_other _ _ E). cbv zeta.
    destruct (strings.HasPrefix _ "- " || strings.HasPrefix _ "* ").
    + eexists. split; [reflexivity|].
      unfold keepChange. destruct (negb _ && negb _); [|now repeat split].
      unfold appendChange, behind. cbn [sections currentSection ungroupedChanges].
      destruct (currentSection st) as [cs|]; [|contradiction].
      repeat split. discriminate.
    + exists st. now repeat split.
Qed.

Lemma forRange_behind (secs : list Section) (ung : list string) (lines : list string) :
  forall st,
    currentSection st <> None ->
    exists st', forRange scanLine lines st = Some st'
                /\ forRange scanLine lines (behind secs ung st)
                   = Some (behind secs ung st')
                /\ ungroupedChanges st' = ungroupedChanges st.
Proof.
  induction lines as [|line lines IH]; intros st O; cbn [forRange].
  - exists st. now repeat split.
  - destruct (scanLine_behind secs ung st line O) as (st1 & E1 & E2 & O1 & U1).
    rewrite E1, E2. cbn [bind].
    destruct (IH st1 O1) as (st' & F1 & F2 & U').
    exists st'. repeat split; trivial. congruence.
Qed.

(** A release body can be read header by header.  Cut in front of a header
    line (other than the wrapper), its sections are the sections of the text
    before the cut followed by the sections of the text from the header on,
    each text parsed alone; its ungrouped changes are those of the text
    before the cut, for the text from a header on has none: a bullet is
    ungrouped only if no header comes before it. *)
Theorem parseReleaseBody_cut_at_header :
  forall before line after name,
    regexp.noLF line = true ->
    headerNameOf line = Some name -> name <> "What's Changed" ->
    exists secs1 ung1 secs2,
      parseReleaseBody before = Some (secs1, ung1)
      /\ parseReleaseBody (line +\n+ after) = Some (secs2, [])
      /\ parseReleaseBody (before +\n+ line +\n+ after) = Some (secs1 ++ secs2, ung1).
Proof.
  intros before line after name L H W.
  apply String.eqb_neq in W.
  unfold parseReleaseBody, nl.
  rewrite (Split_join before), (Split_join line), (Split_line line L).
  rewrite (forRange_app scanLine (strings.Split before LF)). cbn [app forRange].
  destruct (forRange_total scanLine scanLine_total (strings.Split before LF) scan0)
    as [st1 E1].
  rewrite E1. cbn [bind].
  rewrite !(scanLine_header _ _ _ H), W. cbn [bind].
  set (opened := {| sections := flush (sections scan0) (currentSection scan0);
                    ungroupedChanges := ungroupedChanges scan0;
                    currentSection := Some {| Name := name; Changes := [] |} |}).
  destruct (forRange_behind (flush (sections st1) (currentSection st1))
              (ungroupedChanges st1) (strings.Split after LF) opened)
    as (st2 & F1 & F2 & U2); [discriminate|].
  assert (B : behind (flush (sections st1) (currentSection st1))
                (ungroupedChanges st1) opened
              = {| sections := flush (sections st1) (currentSection st1);
                   ungroupedChanges := ungroupedChanges st1;
                   currentSection := Some {| Name := name; Changes := [] |} |}).
  { unfold behind, opened. cbn [sections currentSection ungroupedChanges scan0 flush].
    now rewrite app_nil_r. }
  rewrite B in F2. rewrite F1, F2. cbn [bind].
  exists (flush (sections st1) (currentSection st1)), (ungroupedChanges st1),
         (flush (sections st2) (currentSection st2)).
  repeat split.
  - now rewrite U2.
  - unfold behind. cbn [sections currentSection ungroupedChanges].
    now rewrite flush_app.
Qed.

Lemma parseReleaseBody_cut_at_header_witness :
  exists secs1 ung1 secs2,
    parseReleaseBody ("- loose" +\n+ "## Old" +\n+ "- kept") = Some (secs1, ung1)
    /\ parseReleaseBody ("## New" +\n+ "* added" +\n+ "### Empty")
       = Some (secs2, [])
    /\ parseReleaseBody (("- loose" +\n+ "## Old" +\n+ "- kept")
                           +\n+ "## New" +\n+ "* added" +\n+ "### Empty")
       = Some (secs1 ++ secs2, ung1).
Proof.
  apply (parseReleaseBody_cut_at_header ("- loose" +\n+ "## Old" +\n+ "- kept")
           "## New" ("* added" +\n+ "### Empty") "New");
    [reflexivity | reflexivity | discriminate].
Defined.

(** ** From the releases to the entry printed *)






(** ** Examples *)

(** The examples of the specification. *)
Example mention_is_dropped :
  parseReleaseBody "- @someone did a thing" = Some ([], [])
  /\ parseReleaseBody ("## Thanks" +\n+ "* @someone did a thing") = Some ([], []).
Proof. split; reflexivity. Qed.

Example versions :
  ver "v1.2.3" = "1.2.3" /\ ver "rust-v0.9.0" = "0.9.0" /\ ver "2.0.0" = "2.0.0".
Proof. repeat split. Qed.

(** The wrapper header is recognised by its exact text only. *)
Example wrapper_is_case_sensitive :
  parseReleaseBody ("## What's Changed" +\n+ "- a") = Some ([], ["a"])
  /\ parseReleaseBody ("## what's changed" +\n+ "- a")
     = Some ([ {| Name := "what's changed"; Changes := ["a"] |} ], []).
Proof. split; reflexivity. Qed.

(** A release body with a wrapper, two sections, an empty section, prose,
    mentions and bullets of both kinds. *)
Example release_body :
  parseReleaseBody
    ("## What's Changed" +\n+ "- a" +\n+ "### Fixes" +\n+ "* b" +\n+ "* @x made it"
     +\n+ "## Empty" +\n+ "## Other" +\n+ "some prose" +\n+ "   -  c  " +\n+ "#### too deep")
  = Some ([ {| Name := "Fixes"; Changes := ["b"] |};
            {| Name := "Other"; Changes := [" c"] |} ], ["a"]).
Proof. reflexivity. Qed.

(** The header pattern of the release body. *)
Example header_lines :
  regexp.headerRegex_FindStringSubmatch "##  New Features"
  = Some ["##  New Features"; "New Features"]
  /\ regexp.headerRegex_FindStringSubmatch "#### too deep" = None
  /\ regexp.headerRegex_FindStringSubmatch "#hashtag" = None
  /\ regexp.headerRegex_FindStringSubmatch "#  " = Some ["#  "; " "].
Proof. repeat split. Qed.

(** The matches of the two version patterns: white space after a header is
    part of the match up to the end of the line, a header must start its
    line, and a date needs the shape of a date only. *)
Example version_headers :
  regexp.FindAllStringSubmatchIndex regexp.claudeVersionRegex
    ("## 1.0.0" +\n+ "" +\n+ "- a" +\n+ "## 0.9.0  " +\n+ "- b" +\n+ " ## 0.8.0"
     +\n+ "## 0.7" +\n+ "## 0.6.0")
  = [[0; 9; 3; 8]; [14; 24; 17; 22]; [46; 54; 49; 54]]%Z
  /\ regexp.FindAllStringSubmatchIndex regexp.copilotVersionRegex
       ("## 1.5.0 - 2025-03-10" +\n+ "- a" +\n+ "## 0.9 - 2025-13-40")
     = [[0; 21; 3; 8; 11; 21]; [26; 45; 29; 32; 35; 45]]%Z.
Proof. split; reflexivity. Qed.

Example dates :
  time.Parse_DateOnly "2025-03-10" = (time.Date 2025 3 10 0 0 0 0 0, None)
  /\ time.Parse_DateOnly "2024-02-29" = (time.Date 2024 2 29 0 0 0 0 0, None)
  /\ time.Parse_DateOnly "2025-02-29" = (time.zero, Some (time.errRange "day"))
  /\ time.Parse_DateOnly "2025-13-40" = (time.zero, Some (time.errRange "month"))
  /\ time.Parse_DateOnly "2025-03-10 " = (time.zero, Some time.errExtra)
  /\ time.Parse_DateOnly "10/03/2025" = (time.zero, Some time.errBad).
Proof. repeat split. Qed.

Example trimming :
  strings.TrimSpace ("  " ++ String "009" "- x y " ++ String "013" " ")%string = "- x y"
  /\ strings.TrimSpace (String "194" (String "160" "a b")) = "a b"
  /\ strings.Split (String "a" (String LF (String LF "b"))) LF = ["a"; ""; "b"]
  /\ strings.Split "" LF = [""].
Proof. repeat split. Qed.

(** [time.Parse] under [time.RFC3339] on the forms of a timestamp: UTC, a
    numeric offset, a fraction of a second, and a text it rejects. *)
Example rfc3339_forms :
  rfc3339.Parse "2025-03-10T12:00:00Z"
  = (time.Date 2025 3 10 12 0 0 0 0, None)
  /\ rfc3339.Parse "2025-03-10T12:00:00+01:00"
     = (time.Date 2025 3 10 12 0 0 0 3600, None)
  /\ rfc3339.Parse "2025-03-10T12:00:00.25-08:30"
     = (time.Date 2025 3 10 12 0 0 250000000 (-30600), None)
  /\ rfc3339.Parse "2025-03-10 12:00:00Z" = (time.zero, Some time.errBad).
Proof. repeat split. Qed.
